(** * DarkWave Task Manager: mode detection, task extraction, retrieval
      filters and task-list rendering

    A shallow embedding of [app/mode.py], [app/llm_service.py],
    [app/main.py] (the retrieval branch), [app/task_formatter.py] and
    [app/todoist_links.py], with the properties of the design document
    stated and proved over it.

    Text is modelled as [string], a sequence of characters of which each
    stands for one code point below 256.  On these code points the classes
    [\s] and [\w], the boundary [\b], [str.strip] and [str.lower] are those of
    Python: white space is 9..13, 28..32, 133 and 160; the word characters
    are the ASCII letters, digits and underscore and the letters and
    digits among 170..255; lower-casing moves 65..90, 192..214 and 216..222
    up by 32.  A text that holds a code point above 255 is not a value of the
    model.  The texts that the source itself writes with such characters,
    the signs of its messages, appear as the bytes of their UTF-8 encoding;
    they are only joined, compared and cut at ASCII characters, which is the
    same on the encoding as on the text. *)

From Stdlib Require Import Bool Arith List Lia ZArith.
From Stdlib Require Import Ascii String DecimalString PrimFloat.
Import ListNotations.

Local Open Scope list_scope.
Local Open Scope string_scope.

(** ** Characters and strings *)

Module Text.

Definition code (c : ascii) : nat := nat_of_ascii c.

Definition in_range (lo hi : nat) (c : ascii) : bool :=
  Nat.leb lo (code c) && Nat.leb (code c) hi.

(** [chr(n)] as a text of one character. *)
Definition chr (n : nat) : string := String (ascii_of_nat n) EmptyString.

(** [str.isspace] and the class [\s]: tab, line feed, vertical tab, form
    feed, carriage return, the four separators 28..31, the blank, the next
    line character 133 and the no-break space 160. *)
Definition is_space (c : ascii) : bool :=
  in_range 9 13 c || in_range 28 32 c ||
  Nat.eqb (code c) 133 || Nat.eqb (code c) 160.

(** [str.isalnum] on the code points 128..255: the two ordinal indicators,
    the micro sign, the superscript digits, the three fractions and the
    letters, that is all of 192..255 but the signs of multiplication and
    division. *)
Definition is_alnum_high (c : ascii) : bool :=
  Nat.eqb (code c) 170 || in_range 178 179 c || Nat.eqb (code c) 181 ||
  in_range 185 186 c || in_range 188 190 c ||
  in_range 192 214 c || in_range 216 246 c || in_range 248 255 c.

(** The class [\w]: letters, digits and the underscore. *)
Definition is_word (c : ascii) : bool :=
  in_range 97 122 c || in_range 65 90 c || in_range 48 57 c ||
  Nat.eqb (code c) 95 || is_alnum_high c.

(** The characters that [str.lower] changes: A..Z and the capital letters
    192..222 but the multiplication sign 215. *)
Definition is_upper (c : ascii) : bool :=
  in_range 65 90 c || in_range 192 214 c || in_range 216 222 c.

(** The lower-case letter of each of them is 32 further on. *)
Definition lower_char (c : ascii) : ascii :=
  if is_upper c then ascii_of_nat (code c + 32) else c.

(** [str.lower()] *)
Fixpoint lower (s : string) : string :=
  match s with
  | EmptyString => EmptyString
  | String c s' => String (lower_char c) (lower s')
  end.

Definition is_empty (s : string) : bool :=
  match s with EmptyString => true | String _ _ => false end.

Fixpoint lstrip (s : string) : string :=
  match s with
  | EmptyString => EmptyString
  | String c s' => if is_space c then lstrip s' else s
  end.

Fixpoint rstrip (s : string) : string :=
  match s with
  | EmptyString => EmptyString
  | String c s' =>
      let r := rstrip s' in
      if is_empty r && is_space c then EmptyString else String c r
  end.

(** [str.strip()] *)
Definition strip (s : string) : string := rstrip (lstrip s).

Fixpoint all_space (s : string) : bool :=
  match s with
  | EmptyString => true
  | String c s' => is_space c && all_space s'
  end.

(** [needle in hay] for strings. *)
Fixpoint contains (needle hay : string) : bool :=
  prefix needle hay ||
  match hay with
  | EmptyString => false
  | String _ hay' => contains needle hay'
  end.

Definition newline : ascii := ascii_of_nat 10.
Definition dquote : ascii := ascii_of_nat 34.
Definition nl : string := String newline EmptyString.
Definition dq : string := String dquote EmptyString.

(** [sep.join(parts)] *)
Definition join (sep : string) (parts : list string) : string :=
  String.concat sep parts.

(** Decimal rendering of a count, as [f"{count}"] gives it. *)
Definition decimal (n : nat) : string :=
  NilZero.string_of_uint (Nat.to_uint n).

End Text.

Import Text.

(** ** The fragment of [re] used by the patterns of the source *)

Module Re.

(** Character sets: a literal, [.], [\s], [\w], and a bracket union. *)
Inductive cset : Type :=
| CChar (c : ascii)
| CDot
| CSpace
| CWord
| CUnion (a b : cset).

Fixpoint in_cset (k : cset) (c : ascii) : bool :=
  match k with
  | CChar a => Ascii.eqb a c
  | CDot => negb (Ascii.eqb c newline)
  | CSpace => is_space c
  | CWord => is_word c
  | CUnion a b => in_cset a c || in_cset b c
  end.

(** Patterns.  Repetition only occurs over single characters in the source
    ([.*], [\s+], [\w+], a bracket followed by a star), and [?] over groups. *)
Inductive regex : Type :=
| Lit (w : string)        (* literal text *)
| One (k : cset)          (* one character of a set *)
| Many (k : cset)         (* k*, greedy *)
| Many1 (k : cset)        (* k+, greedy *)
| Seq (r1 r2 : regex)
| Alt (r1 r2 : regex)     (* r1|r2, left first *)
| Opt (r : regex)         (* r?, greedy *)
| Bol                     (* ^ *)
| Eol                     (* $ *)
| WordB                   (* \b *)
| NotAhead (r : regex).   (* (?!r) *)

(** A position in the subject: the character just before it (none at the
    start of the text) and the text that remains. *)
Definition cursor : Type := option ascii * string.

Definition word_before (p : option ascii) : bool :=
  match p with Some c => is_word c | None => false end.

Definition word_after (s : string) : bool :=
  match s with String c _ => is_word c | EmptyString => false end.

Definition at_boundary (p : option ascii) (s : string) : bool :=
  xorb (word_before p) (word_after s).

(** [$] without MULTILINE: the end of the text, or just before a final
    line feed. *)
Definition at_end (s : string) : bool :=
  match s with
  | EmptyString => true
  | String c EmptyString => Ascii.eqb c newline
  | _ => false
  end.

Fixpoint run_lit (w : string) (p : option ascii) (s : string) : list cursor :=
  match w with
  | EmptyString => [(p, s)]
  | String a w' =>
      match s with
      | String x s' => if Ascii.eqb a x then run_lit w' (Some x) s' else []
      | EmptyString => []
      end
  end.

Fixpoint run_many (k : cset) (p : option ascii) (s : string) : list cursor :=
  match s with
  | String x s' =>
      if in_cset k x then (run_many k (Some x) s' ++ [(p, s)])%list
      else [(p, s)]
  | EmptyString => [(p, s)]
  end.

(** [run r p s]: every position at which a match of [r] started at [(p, s)]
    can end, in the order in which the backtracking matcher tries them. *)
Fixpoint run (r : regex) (p : option ascii) (s : string) : list cursor :=
  match r with
  | Lit w => run_lit w p s
  | One k =>
      match s with
      | String x s' => if in_cset k x then [(Some x, s')] else []
      | EmptyString => []
      end
  | Many k => run_many k p s
  | Many1 k =>
      match s with
      | String x s' => if in_cset k x then run_many k (Some x) s' else []
      | EmptyString => []
      end
  | Seq r1 r2 => flat_map (fun c => run r2 (fst c) (snd c)) (run r1 p s)
  | Alt r1 r2 => (run r1 p s ++ run r2 p s)%list
  | Opt r1 => (run r1 p s ++ [(p, s)])%list
  | Bol => match p with None => [(p, s)] | Some _ => [] end
  | Eol => if at_end s then [(p, s)] else []
  | WordB => if at_boundary p s then [(p, s)] else []
  | NotAhead r1 => match run r1 p s with [] => [(p, s)] | _ :: _ => [] end
  end.

Definition matches_at (r : regex) (p : option ascii) (s : string) : bool :=
  match run r p s with [] => false | _ :: _ => true end.

(** The scan of [re.search]: start positions from left to right, the end of
    the text included. *)
Fixpoint search_from (r : regex) (p : option ascii) (s : string) : bool :=
  matches_at r p s ||
  match s with
  | EmptyString => false
  | String x s' => search_from r (Some x) s'
  end.

(** [re.search(r, text)] as a truth value. *)
Definition search (r : regex) (text : string) : bool :=
  search_from r None text.

(** Pattern-building helpers. *)
Fixpoint alts (r : regex) (rs : list regex) : regex :=
  match rs with
  | [] => r
  | r' :: rs' => Alt r (alts r' rs')
  end.

Definition any_of (w : string) (ws : list string) : regex :=
  alts (Lit w) (map Lit ws).

Fixpoint seqs (rs : list regex) : regex :=
  match rs with
  | [] => Lit EmptyString
  | [r] => r
  | r :: rs' => Seq r (seqs rs')
  end.

(** *** Reading a pattern

    [re.compile] on the part of the pattern language that the source uses:
    literal characters, [.], [^], [$], [\b], [\s], [\w], a backslash before a
    punctuation mark, brackets of single characters, groups [( )] and
    [(?: )] with alternatives, the look-ahead [(?! )], and the quantifiers
    [?], [*] and [+] on one character or set and [?] on a group.  A pattern
    outside of it, which includes every pattern on which Python raises
    [re.error], has no reading. *)

Inductive re_error : Type := BadPattern (pattern : string).

Module Reader.

(** What a quantifier may follow. *)
Inductive atom : Type :=
| AChar (c : ascii)
| ASet (k : cset)
| AGroup (alternatives : list (list regex))
| AAssert (r : regex).

Inductive group_kind : Type := Capture | NonCapture | NegAhead.

(** A group that is being read: the alternatives read so far and the parts
    of the one that is being read, the last one first in both. *)
Record frame : Type := {
  kind : group_kind;
  alternatives : list (list regex);
  parts : list regex
}.

Inductive reading : Type :=
| Plain
| Escaped                          (* after a backslash *)
| Opened                           (* after an opening parenthesis *)
| OpenedQ                          (* after [(?] *)
| Bracket (items : list cset)      (* inside a bracket, the last item first *)
| BracketEscaped (items : list cset).

Record state : Type := {
  current : frame;
  enclosing : list frame;
  pending : option atom;
  mode : reading
}.

(** Adjacent literal parts are one literal text. *)
Fixpoint merge (rs : list regex) : list regex :=
  match rs with
  | [] => []
  | Lit a :: rs' =>
      match merge rs' with
      | Lit b :: rest => Lit (a ++ b) :: rest
      | merged => Lit a :: merged
      end
  | r :: rs' => r :: merge rs'
  end.

Definition of_alternatives (bs : list (list regex)) : regex :=
  match map (fun b => seqs (merge b)) bs with
  | [] => Lit EmptyString
  | r :: rs => alts r rs
  end.

Fixpoint union (k : cset) (ks : list cset) : cset :=
  match ks with
  | [] => k
  | k' :: ks' => CUnion k (union k' ks')
  end.

Definition with_parts (f : frame) (ps : list regex) : frame :=
  {| kind := kind f; alternatives := alternatives f; parts := ps |}.

(** The atom that was waiting for a quantifier becomes a part as it is; the
    parts of a group without alternatives join those around it. *)
Definition flush (st : state) : state :=
  let add (ps : list regex) :=
    {| current := with_parts (current st) ps;
       enclosing := enclosing st; pending := None; mode := mode st |} in
  match pending st with
  | None => st
  | Some (AChar c) => add (Lit (String c EmptyString) :: parts (current st))
  | Some (ASet k) => add (One k :: parts (current st))
  | Some (AGroup [b]) => add (rev b ++ parts (current st))%list
  | Some (AGroup bs) => add (of_alternatives bs :: parts (current st))
  | Some (AAssert r) => add (r :: parts (current st))
  end.

Definition quantified (q : ascii) (a : atom) : option regex :=
  let pick (opt star plus : option regex) :=
    if Ascii.eqb q "?" then opt
    else if Ascii.eqb q "*" then star
    else plus in
  match a with
  | AChar c =>
      pick (Some (Opt (Lit (String c EmptyString))))
           (Some (Many (CChar c))) (Some (Many1 (CChar c)))
  | ASet k => pick (Some (Opt (One k))) (Some (Many k)) (Some (Many1 k))
  | AGroup bs => pick (Some (Opt (of_alternatives bs))) None None
  | AAssert _ => None
  end.

Definition is_punctuation (c : ascii) : bool :=
  Nat.ltb (code c) 128 && negb (is_word c) && negb (is_space c).

(** What a backslash and the character after it stand for, outside a
    bracket and inside one. *)
Definition escape (c : ascii) : option atom :=
  if Ascii.eqb c "b" then Some (AAssert WordB)
  else if Ascii.eqb c "s" then Some (ASet CSpace)
  else if Ascii.eqb c "w" then Some (ASet CWord)
  else if is_punctuation c then Some (AChar c)
  else None.

Definition bracket_escape (c : ascii) : option cset :=
  if Ascii.eqb c "s" then Some CSpace
  else if Ascii.eqb c "w" then Some CWord
  else if is_punctuation c then Some (CChar c)
  else None.

Definition wait (st : state) (a : atom) : state :=
  let st := flush st in
  {| current := current st; enclosing := enclosing st;
     pending := Some a; mode := Plain |}.

Definition turn (st : state) (m : reading) : state :=
  {| current := current st; enclosing := enclosing st;
     pending := pending st; mode := m |}.

Definition plain (st : state) (c : ascii) : option state :=
  if Ascii.eqb c "\" then Some (turn (flush st) Escaped)
  else if Ascii.eqb c "(" then
    let st := flush st in
    Some {| current := {| kind := Capture; alternatives := []; parts := [] |};
            enclosing := current st :: enclosing st;
            pending := None; mode := Opened |}
  else if Ascii.eqb c ")" then
    let st := flush st in
    match enclosing st with
    | [] => None
    | outer :: rest =>
        let bs := rev (rev (parts (current st)) :: alternatives (current st)) in
        let a :=
          match kind (current st) with
          | NegAhead => AAssert (NotAhead (of_alternatives bs))
          | _ => AGroup bs
          end in
        Some {| current := outer; enclosing := rest;
                pending := Some a; mode := Plain |}
    end
  else if Ascii.eqb c "|" then
    let st := flush st in
    Some {| current :=
              {| kind := kind (current st);
                 alternatives :=
                   rev (parts (current st)) :: alternatives (current st);
                 parts := [] |};
            enclosing := enclosing st; pending := None; mode := Plain |}
  else if Ascii.eqb c "[" then Some (turn (flush st) (Bracket []))
  else if Ascii.eqb c "^" then Some (wait st (AAssert Bol))
  else if Ascii.eqb c "$" then Some (wait st (AAssert Eol))
  else if Ascii.eqb c "." then Some (wait st (ASet CDot))
  else if Ascii.eqb c "?" || Ascii.eqb c "*" || Ascii.eqb c "+" then
    match pending st with
    | Some a =>
        match quantified c a with
        | Some r =>
            Some {| current := with_parts (current st) (r :: parts (current st));
                    enclosing := enclosing st; pending := None; mode := Plain |}
        | None => None
        end
    | None => None
    end
  else if Ascii.eqb c "{" || Ascii.eqb c "}" || Ascii.eqb c "]" then None
  else Some (wait st (AChar c)).

(** One character of the pattern. *)
Definition step (st : state) (c : ascii) : option state :=
  match mode st with
  | Plain => plain st c
  | Escaped =>
      match escape c with
      | Some a => Some (wait st a)
      | None => None
      end
  | Opened =>
      if Ascii.eqb c "?" then Some (turn st OpenedQ)
      else plain (turn st Plain) c
  | OpenedQ =>
      let become (k : group_kind) :=
        Some {| current :=
                  {| kind := k; alternatives := alternatives (current st);
                     parts := parts (current st) |};
                enclosing := enclosing st; pending := None; mode := Plain |} in
      if Ascii.eqb c ":" then become NonCapture
      else if Ascii.eqb c "!" then become NegAhead
      else None
  | Bracket items =>
      if Ascii.eqb c "]" then
        match rev items with
        | [] => None
        | k :: ks => Some (wait st (ASet (union k ks)))
        end
      else if Ascii.eqb c "\" then Some (turn st (BracketEscaped items))
      else if Ascii.eqb c "^" || Ascii.eqb c "-" || Ascii.eqb c "[" then None
      else Some (turn st (Bracket (CChar c :: items)))
  | BracketEscaped items =>
      match bracket_escape c with
      | Some k => Some (turn st (Bracket (k :: items)))
      | None => None
      end
  end.

Fixpoint steps (st : state) (pattern : string) : option state :=
  match pattern with
  | EmptyString => Some st
  | String c rest =>
      match step st c with
      | Some st' => steps st' rest
      | None => None
      end
  end.

Definition start : state :=
  {| current := {| kind := Capture; alternatives := []; parts := [] |};
     enclosing := []; pending := None; mode := Plain |}.

(** The pattern once its last character is read: no group, bracket or
    escape may be left open. *)
Definition finish (st : state) : option regex :=
  match mode st, enclosing st with
  | Plain, [] =>
      let st := flush st in
      Some (of_alternatives
              (rev (rev (parts (current st)) :: alternatives (current st))))
  | _, _ => None
  end.

End Reader.

(** [re.compile(pattern)] *)
Definition compile (pattern : string) : re_error + regex :=
  match Reader.steps Reader.start pattern with
  | Some st =>
      match Reader.finish st with
      | Some r => inr r
      | None => inl (BadPattern pattern)
      end
  | None => inl (BadPattern pattern)
  end.

(** [re.search(pattern, text)] as a truth value; the pattern is read when
    the call is made. *)
Definition re_search (pattern text : string) : re_error + bool :=
  match compile pattern with
  | inl e => inl e
  | inr r => inr (search r text)
  end.

End Re.

Import Re.

(** ** [app/mode.py] *)

Inductive Mode : Type := CHAT | CREATE | RETRIEVE.

(** The bracket [[\s!?.]] *)
Definition trailing_marks : cset :=
  CUnion CSpace (CUnion (CChar "!") (CUnion (CChar "?") (CChar "."))).

Definition chat_patterns : list regex :=
  [ (* ^(hi|hello|hey|greetings)[\s!?.]*$ *)
    seqs [Bol; any_of "hi" ["hello"; "hey"; "greetings"];
          Many trailing_marks; Eol];
    (* ^(good morning|good afternoon|good evening)[\s!?.]*$ *)
    seqs [Bol; any_of "good morning" ["good afternoon"; "good evening"];
          Many trailing_marks; Eol];
    (* \b(what can you do|how do you work|help me|show me how)\b *)
    seqs [WordB;
          any_of "what can you do" ["how do you work"; "help me"; "show me how"];
          WordB];
    (* \b(who are you|what are you)\b *)
    seqs [WordB; any_of "who are you" ["what are you"]; WordB] ].

Definition create_patterns : list regex :=
  [ (* ^(add|create|new|make|remind me to|i need to|todo:) *)
    seqs [Bol;
          any_of "add" ["create"; "new"; "make"; "remind me to"; "i need to";
                        "todo:"]];
    (* \b(add|create|remind me)\b.*\b(task|todo|to-do|list)\b *)
    seqs [WordB; any_of "add" ["create"; "remind me"]; WordB; Many CDot;
          WordB; any_of "task" ["todo"; "to-do"; "list"]; WordB] ].

(** \bmy (tasks|todo|to-do|to do|list)\b *)
Definition possessive_pattern : regex :=
  seqs [WordB; Lit "my ";
        any_of "tasks" ["todo"; "to-do"; "to do"; "list"]; WordB].

(** \bmy task\b(?! is) *)
Definition my_task_pattern : regex :=
  seqs [WordB; Lit "my task"; WordB; NotAhead (Lit " is")].

Definition retrieve_patterns : list regex :=
  [ (* ^what'?s? on my *)
    seqs [Bol; Lit "what"; Opt (Lit "'"); Opt (Lit "s"); Lit " on my"];
    (* ^do i have (any )?task *)
    seqs [Bol; Lit "do i have "; Opt (Lit "any "); Lit "task"];
    possessive_pattern;
    my_task_pattern;
    (* \b(what|show|list|display|get|find|see|view|check)\b.*\b(task|todo|to-do|to do) *)
    seqs [WordB;
          any_of "what" ["show"; "list"; "display"; "get"; "find"; "see";
                         "view"; "check"];
          WordB; Many CDot; WordB;
          any_of "task" ["todo"; "to-do"; "to do"]];
    (* \b(task|todo|to-do|to do).*\b(what|show|list|display|do i have) *)
    seqs [WordB; any_of "task" ["todo"; "to-do"; "to do"]; Many CDot; WordB;
          any_of "what" ["show"; "list"; "display"; "do i have"]];
    (* \b(what|show|list|display|get|view|check)\b.*\b(list|todo list|to-do list) *)
    seqs [WordB;
          any_of "what" ["show"; "list"; "display"; "get"; "view"; "check"];
          WordB; Many CDot; WordB;
          any_of "list" ["todo list"; "to-do list"]];
    (* \bon my (list|todo|to-do|tasks?) *)
    seqs [WordB; Lit "on my ";
          alts (Lit "list")
               [Lit "todo"; Lit "to-do"; Seq (Lit "task") (Opt (Lit "s"))]];
    (* ^(my tasks|show tasks|list tasks|check tasks|view tasks) *)
    seqs [Bol;
          any_of "my tasks" ["show tasks"; "list tasks"; "check tasks";
                             "view tasks"]];
    (* ^(show|check|view) (my )?(task|todo|to-do|list) *)
    seqs [Bol; any_of "show" ["check"; "view"]; Lit " "; Opt (Lit "my ");
          any_of "task" ["todo"; "to-do"; "list"]];
    (* \b(due today|due tomorrow|overdue)\b *)
    seqs [WordB; any_of "due today" ["due tomorrow"; "overdue"]; WordB];
    (* \b(tasks? (with|labeled|tagged))\b *)
    seqs [WordB; Lit "task"; Opt (Lit "s"); Lit " ";
          any_of "with" ["labeled"; "tagged"]; WordB] ].

(** [for pattern in patterns: if re.search(pattern, text): return ...] *)
Definition any_match (patterns : list regex) (text : string) : bool :=
  existsb (fun r => search r text) patterns.

Definition detect_mode (user_message : string) : Mode :=
  if is_empty user_message || is_empty (strip user_message) then CHAT
  else
    let message_lower := lower (strip user_message) in
    if any_match chat_patterns message_lower then CHAT
    else if any_match create_patterns message_lower then CREATE
    else if any_match retrieve_patterns message_lower then RETRIEVE
    else CREATE.

(** *** [detect_mode] with its patterns as the source writes them

    Each pattern is read by [re.search] when the loop reaches it, and a
    pattern that cannot be read makes the call raise. *)

Definition chat_pattern_texts : list string :=
  [ "^(hi|hello|hey|greetings)[\s!?.]*$";
    "^(good morning|good afternoon|good evening)[\s!?.]*$";
    "\b(what can you do|how do you work|help me|show me how)\b";
    "\b(who are you|what are you)\b" ].

Definition create_pattern_texts : list string :=
  [ "^(add|create|new|make|remind me to|i need to|todo:)";
    "\b(add|create|remind me)\b.*\b(task|todo|to-do|list)\b" ].

Definition retrieve_pattern_texts : list string :=
  [ "^what'?s? on my";
    "^do i have (any )?task";
    "\bmy (tasks|todo|to-do|to do|list)\b";
    "\bmy task\b(?! is)";
    "\b(what|show|list|display|get|find|see|view|check)\b.*\b(task|todo|to-do|to do)";
    "\b(task|todo|to-do|to do).*\b(what|show|list|display|do i have)";
    "\b(what|show|list|display|get|view|check)\b.*\b(list|todo list|to-do list)";
    "\bon my (list|todo|to-do|tasks?)";
    "^(my tasks|show tasks|list tasks|check tasks|view tasks)";
    "^(show|check|view) (my )?(task|todo|to-do|list)";
    "\b(due today|due tomorrow|overdue)\b";
    "\b(tasks? (with|labeled|tagged))\b" ].

(** [for pattern in patterns: if re.search(pattern, text): return ...]:
    whether the loop returns, or the exception of the first pattern that
    cannot be read among those it reaches. *)
Fixpoint any_search (patterns : list string) (text : string)
  : re_error + bool :=
  match patterns with
  | [] => inr false
  | pattern :: rest =>
      match re_search pattern text with
      | inl e => inl e
      | inr true => inr true
      | inr false => any_search rest text
      end
  end.

(** [detect_mode]: the mode it returns or the exception it raises. *)
Definition detect_mode_raising (user_message : string) : re_error + Mode :=
  if is_empty user_message || is_empty (strip user_message) then inr CHAT
  else
    let message_lower := lower (strip user_message) in
    match any_search chat_pattern_texts message_lower with
    | inl e => inl e
    | inr true => inr CHAT
    | inr false =>
        match any_search create_pattern_texts message_lower with
        | inl e => inl e
        | inr true => inr CREATE
        | inr false =>
            match any_search retrieve_pattern_texts message_lower with
            | inl e => inl e
            | inr true => inr RETRIEVE
            | inr false => inr CREATE
            end
        end
    end.

(** ** Values decoded from JSON

    What [json.loads] yields: the reply of the text-generation service once
    decoded, and the task dictionaries of the Todoist REST API. *)

Module Json.

#[warnings="-register-all"]
Inductive json : Type :=
| JNull
| JBool (b : bool)
| JInt (z : Z)
| JFloat (f : PrimFloat.float)
| JStr (s : string)
| JArr (items : list json)
| JObj (fields : list (string * json)).

(** A Python [dict] with string keys; keys are distinct, [lookup] reads the
    binding of a key. *)
Definition dict : Type := list (string * json).

Fixpoint lookup (k : string) (d : dict) : option json :=
  match d with
  | [] => None
  | (k', v) :: d' => if String.eqb k k' then Some v else lookup k d'
  end.

(** Python truthiness, [bool(v)]. *)
Definition truthy (v : json) : bool :=
  match v with
  | JNull => false
  | JBool b => b
  | JInt z => negb (Z.eqb z 0)
  | JFloat f => negb (PrimFloat.eqb f PrimFloat.zero)
  | JStr s => negb (is_empty s)
  | JArr items => match items with [] => false | _ :: _ => true end
  | JObj fields => match fields with [] => false | _ :: _ => true end
  end.

End Json.

Import Json.

(** ** [app/llm_service.py] *)

Module Extraction.

(** The [TodoistTask] model. *)
Record TodoistTask : Type := {
  content : string;
  description : option string;
  priority : Z;
  due_string : option string;
  labels : list string;
  project_id : option string
}.

(** One entry of a pydantic [ValidationError]. *)
Inductive field_error : Type :=
| FieldRequired (field : string)
| InvalidValue (field : string) (input : json).

Definition validated (A : Type) : Type := (list field_error + A)%type.

Definition errors_of {A : Type} (r : validated A) : list field_error :=
  match r with inl es => es | inr _ => [] end.

(** A field of type [str]. *)
Definition validate_str (field : string) (v : json) : validated string :=
  match v with
  | JStr s => inr s
  | _ => inl [InvalidValue field v]
  end.

(** A field of type [str | None]. *)
Definition validate_opt_str (field : string) (v : json)
  : validated (option string) :=
  match v with
  | JNull => inr None
  | JStr s => inr (Some s)
  | _ => inl [InvalidValue field v]
  end.

Fixpoint all_strings (items : list json) : option (list string) :=
  match items with
  | [] => Some []
  | JStr s :: items' =>
      match all_strings items' with
      | Some ss => Some (s :: ss)
      | None => None
      end
  | _ :: _ => None
  end.

(** A field of type [list[str]]. *)
Definition validate_str_list (field : string) (v : json)
  : validated (list string) :=
  match v with
  | JArr items =>
      match all_strings items with
      | Some ss => inr ss
      | None => inl [InvalidValue field v]
      end
  | _ => inl [InvalidValue field v]
  end.

Section Validation.

(** The conversion pydantic applies, outside strict mode, to an input for an
    [int] field that is not an integer (a bool, a float without fraction, a
    string of digits).  It belongs to the library and is a parameter here. *)
Variable lax_int : json -> option Z.

(** The integer an input for an [int] field stands for, if any. *)
Definition read_int (v : json) : option Z :=
  match v with
  | JInt z => Some z
  | _ => lax_int v
  end.

(** A field of type [int] with [ge=lo] and [le=hi]. *)
Definition validate_int (lo hi : Z) (field : string) (v : json) : validated Z :=
  match read_int v with
  | Some z =>
      if (Z.leb lo z && Z.leb z hi)%bool then inr z
      else inl [InvalidValue field v]
  | None => inl [InvalidValue field v]
  end.

(** A field that is absent takes its default, or is reported when it has
    none. *)
Definition field {A : Type} (name : string) (check : string -> json -> validated A)
           (default : option A) (d : dict) : validated A :=
  match lookup name d with
  | Some v => check name v
  | None =>
      match default with
      | Some a => inr a
      | None => inl [FieldRequired name]
      end
  end.

(** [TodoistTask.model_validate(obj)]: every field is checked and the
    failures are gathered; keys that are not fields are ignored. *)
Definition model_validate (obj : json) : validated TodoistTask :=
  match obj with
  | JObj d =>
      let r_content := field "content" validate_str None d in
      let r_description :=
        field "description" validate_opt_str (Some (Some EmptyString)) d in
      let r_priority := field "priority" (validate_int 1 4) (Some 3%Z) d in
      let r_due_string := field "due_string" validate_opt_str (Some None) d in
      let r_labels := field "labels" validate_str_list (Some []) d in
      let r_project_id := field "project_id" validate_opt_str (Some None) d in
      match r_content, r_description, r_priority,
            r_due_string, r_labels, r_project_id with
      | inr c, inr ds, inr p, inr du, inr ls, inr pj =>
          inr {| content := c; description := ds; priority := p;
                 due_string := du; labels := ls; project_id := pj |}
      | _, _, _, _, _, _ =>
          inl (errors_of r_content ++ errors_of r_description ++
               errors_of r_priority ++ errors_of r_due_string ++
               errors_of r_labels ++ errors_of r_project_id)%list
      end
  | _ => inl [InvalidValue EmptyString obj]
  end.

(** A reply of the service: its text, and the value the parser's JSON reader
    finds in it ([None] when the text is not JSON). *)
Record completion : Type := {
  text : string;
  decoded : option json
}.

(** What one call of [self.model.invoke] does. *)
Inductive invocation : Type :=
| Raised (what : string)
| Returned (reply : completion).

(** The exceptions that reach the handler of [parse_task]. *)
Inductive failure : Type :=
| InvokeFailed (what : string)
| InvalidJson (llm_output : string)
| ValidationFailed (obj : json) (errors : list field_error).

(** [self.parser.parse(response.content)] *)
Definition parser_parse (reply : completion) : failure + TodoistTask :=
  match decoded reply with
  | None => inl (InvalidJson (text reply))
  | Some obj =>
      match model_validate obj with
      | inl es => inl (ValidationFailed obj es)
      | inr task => inr task
      end
  end.

(** [str(e)] of a caught exception, worded by the libraries. *)
Variable exc_str : failure -> string.

(** The [ValueError] raised [from e]. *)
Record ValueError : Type := {
  message : string;
  cause : failure
}.

Definition value_error (e : failure) : ValueError :=
  {| message :=
       "Failed to parse task from input: " ++ exc_str e ++ nl ++
       "Please try rephrasing your request or provide more specific details.";
     cause := e |}.

(** The service as the sequence of its calls: [service n input] is what the
    call number [n] does when given [input]. *)
Definition service : Type := nat -> string -> invocation.

(** [LLMService.parse_task]; the state is the number of calls made to the
    service so far. *)
Definition parse_task (svc : service) (user_input : string) (calls : nat)
  : (ValueError + TodoistTask) * nat :=
  let response := svc calls user_input in
  let calls' := S calls in
  match response with
  | Raised what => (inl (value_error (InvokeFailed what)), calls')
  | Returned reply =>
      match parser_parse reply with
      | inl e => (inl (value_error e), calls')
      | inr task => (inr task, calls')
      end
  end.

End Validation.

End Extraction.

(** ** [app/main.py]: the filter parameters of [handle_retrieve_mode] *)

Module Retrieval.

(** The text between two positions on the same subject. *)
Definition consumed (from to : string) : string :=
  substring 0 (String.length from - String.length to) from.

(** The first way, in the matcher's order, to match [pre], then the group,
    then [suf], from one start position; the text of the group. *)
Definition group_at (pre grp suf : regex) (p : option ascii) (s : string)
  : option string :=
  let after_group (c1 : cursor) : option string :=
    match find (fun c2 => matches_at suf (fst c2) (snd c2))
               (run grp (fst c1) (snd c1)) with
    | Some c2 => Some (consumed (snd c1) (snd c2))
    | None => None
    end in
  let fix first (cs : list cursor) : option string :=
    match cs with
    | [] => None
    | c1 :: cs' =>
        match after_group c1 with
        | Some g => Some g
        | None => first cs'
        end
    end in
  first (run pre p s).

Fixpoint group_from (pre grp suf : regex) (p : option ascii) (s : string)
  : option string :=
  match group_at pre grp suf p s with
  | Some g => Some g
  | None =>
      match s with
      | EmptyString => None
      | String x s' => group_from pre grp suf (Some x) s'
      end
  end.

(** [m = re.search(pre(grp)suf, text)] followed by [m.group(1)]. *)
Definition search_group (pre grp suf : regex) (text : string) : option string :=
  group_from pre grp suf None text.

(** \b(due\s+)?today\b *)
Definition due_today_pattern : regex :=
  seqs [WordB; Opt (Seq (Lit "due") (Many1 CSpace)); Lit "today"; WordB].

Definition quote_mark : cset := CUnion (CChar dquote) (CChar "'").

(** \b(?:labeled?|tagged?|with\s+label)\s+["\']?(\w+)["\']?
    split at the parentheses of its one capturing group. *)
Definition label_prefix : regex :=
  seqs [WordB;
        alts (Seq (Lit "labele") (Opt (Lit "d")))
             [Seq (Lit "tagge") (Opt (Lit "d"));
              seqs [Lit "with"; Many1 CSpace; Lit "label"]];
        Many1 CSpace; Opt (One quote_mark)].

Definition label_group : regex := Many1 CWord.

Definition label_suffix : regex := Opt (One quote_mark).

Record filter_params : Type := {
  due_date : option string;
  label : option string;
  filter_desc : option string
}.

(** The part of [handle_retrieve_mode] between the lowering of the message
    and the call of [get_tasks]: the values of [due_date], [label] and
    [filter_desc] at that call. *)
Definition handle_retrieve_mode_filter (user_message : string) : filter_params :=
  let message_lower := lower user_message in
  let today := search due_today_pattern message_lower in
  let label_match :=
    search_group label_prefix label_group label_suffix message_lower in
  {| due_date := if today then Some "today" else None;
     label := label_match;
     filter_desc :=
       match label_match with
       | Some l => Some ("labeled '" ++ l ++ "'")
       | None => if today then Some "due today" else None
       end |}.

End Retrieval.

(** ** [app/todoist_links.py] and [app/task_formatter.py] *)

Module Render.

(** The failures of the dynamic operations used on task fields. *)
Inductive exn : Type := AttributeError | TypeError.

Definition result (A : Type) : Type := (exn + A)%type.

Definition bind {A B : Type} (m : result A) (k : A -> result B) : result B :=
  match m with
  | inl e => inl e
  | inr a => k a
  end.

Notation "x <- m ;; k" := (bind m (fun x => k))
  (at level 61, m at next level, right associativity).

Fixpoint map_result {A B : Type} (f : A -> result B) (xs : list A)
  : result (list B) :=
  match xs with
  | [] => inr []
  | x :: xs' =>
      y <- f x ;;
      ys <- map_result f xs' ;;
      inr (y :: ys)
  end.

(** [v.get(key, default)]: only a dict has the method. *)
Definition py_get (v : json) (key : string) (default : json) : result json :=
  match v with
  | JObj d => inr (match lookup key d with Some x => x | None => default end)
  | _ => inl AttributeError
  end.

Definition is_T (v : json) : bool :=
  match v with JStr s => String.eqb s "T" | _ => false end.

(** ["T" in v] *)
Definition py_has_T (v : json) : result bool :=
  match v with
  | JStr s => inr (contains "T" s)
  | JArr items => inr (existsb is_T items)
  | JObj d => inr (match lookup "T" d with Some _ => true | None => false end)
  | _ => inl TypeError
  end.

(** The text before the first letter T. *)
Fixpoint before_T (s : string) : string :=
  match s with
  | EmptyString => EmptyString
  | String c s' => if Ascii.eqb c "T" then EmptyString else String c (before_T s')
  end.

(** [v.split("T")[0]]: only a string has the method. *)
Definition py_split_T (v : json) : result json :=
  match v with
  | JStr s => inr (JStr (before_T s))
  | _ => inl AttributeError
  end.

Fixpoint chars (s : string) : list json :=
  match s with
  | EmptyString => []
  | String c s' => JStr (String c EmptyString) :: chars s'
  end.

(** [for x in v]: the items of a list, the characters of a string, the keys
    of a dict. *)
Definition py_iter (v : json) : result (list json) :=
  match v with
  | JArr items => inr items
  | JStr s => inr (chars s)
  | JObj d => inr (map (fun kv => JStr (fst kv)) d)
  | _ => inl TypeError
  end.

Definition link_template : string := "https://app.todoist.com/app/task/".

Section Rendering.

(** [str(v)] of a value that is not a string (None, a number, a list, a
    dict), as Python words it. *)
Variable py_repr : json -> string.

(** [str(v)], also what an f-string field writes. *)
Definition py_str (v : json) : string :=
  match v with
  | JStr s => s
  | _ => py_repr v
  end.

(** [build_task_url] *)
Definition build_task_url (task : option dict) : option string :=
  match task with
  | None => None
  | Some t =>
      let url_given :=
        match lookup "url" t with
        | Some u => if truthy u then Some u else None
        | None => None
        end in
      match url_given with
      | Some u => Some (py_str u)
      | None =>
          let task_id :=
            match lookup "id" t with Some i => i | None => JNull end in
          if negb (truthy task_id) then None
          else Some (link_template ++ py_str task_id)
      end
  end.

(** The due-date entry of [line_parts], if any. *)
Definition due_parts (task : dict) : result (list string) :=
  match lookup "due" task with
  | None => inr []
  | Some due =>
      if truthy due then
        first <- py_get due "date" JNull ;;
        due_date <-
          (if truthy first then inr first
           else py_get due "datetime" (JStr EmptyString)) ;;
        if truthy due_date then
          has_T <- py_has_T due_date ;;
          date_str <- (if has_T then py_split_T due_date else inr due_date) ;;
          inr ["📅 " ++ py_str date_str]
        else inr []
      else inr []
  end.

(** The labels entry of [line_parts], if any. *)
Definition label_parts (task : dict) : result (list string) :=
  let labels :=
    match lookup "labels" task with Some l => l | None => JArr [] end in
  if truthy labels then
    items <- py_iter labels ;;
    inr [join ", " (map (fun l => "_" ++ py_str l ++ "_") items)]
  else inr [].

(** [line_parts] at the end of one turn of the loop. *)
Definition line_parts (task : dict) : result (list string) :=
  let content :=
    match lookup "content" task with
    | Some c => c
    | None => JStr "Untitled task"
    end in
  due <- due_parts task ;;
  lbl <- label_parts task ;;
  inr (("**" ++ py_str content ++ "**") :: (due ++ lbl)%list).

(** What the loop appends to [task_line] after the joined parts. *)
Definition link_segment (task : dict) : string :=
  match build_task_url (Some task) with
  | Some task_url =>
      if is_empty task_url then EmptyString
      else " · [View in Todoist](" ++ task_url ++ ")"
  | None => EmptyString
  end.

(** One turn of the loop: the entry appended to [task_lines]. *)
Definition format_task_line (task : dict) : result string :=
  parts <- line_parts task ;;
  inr ("- " ++ join " · " parts ++ link_segment task).

Definition given (filter_description : option string) : bool :=
  match filter_description with
  | Some d => negb (is_empty d)
  | None => false
  end.

Definition described (filter_description : option string) : string :=
  match filter_description with Some d => d | None => EmptyString end.

Definition empty_state (filter_description : option string) : string :=
  "You don't have any active tasks right now. ✨" ++ nl ++ nl ++
  (if given filter_description
   then "No tasks found " ++ described filter_description ++ "." ++ nl ++ nl
   else EmptyString) ++
  "Try creating a task like:" ++ nl ++
  "- " ++ dq ++ "Buy groceries tomorrow" ++ dq ++ nl ++
  "- " ++ dq ++ "Call dentist at 2pm" ++ dq ++ nl ++
  "- " ++ dq ++ "Review project proposal" ++ dq.

Definition header (count : nat) (filter_description : option string) : string :=
  let item_word := if Nat.eqb count 1 then "item" else "items" in
  if given filter_description
  then "### Tasks " ++ described filter_description ++
       " (" ++ decimal count ++ " " ++ item_word ++ ")" ++ nl ++ nl
  else "### Your Tasks (" ++ decimal count ++ " " ++ item_word ++ ")" ++ nl ++ nl.

(** [format_task_list] *)
Definition format_task_list (tasks : list dict)
           (filter_description : option string) : result string :=
  match tasks with
  | [] => inr (empty_state filter_description)
  | _ :: _ =>
      task_lines <- map_result format_task_line tasks ;;
      inr (header (List.length tasks) filter_description ++ join nl task_lines)
  end.

End Rendering.

(** A wording for the values that are not strings, for the examples: exact
    on None, the booleans and the integers; lists, dicts and floats, which
    the examples do not print, are left blank. *)
Definition repr_scalar (v : json) : string :=
  match v with
  | JNull => "None"
  | JBool true => "True"
  | JBool false => "False"
  | JInt z => NilZero.string_of_int (Z.to_int z)
  | _ => EmptyString
  end.

End Render.

Import Extraction Retrieval Render.

(** ** [app/main.py]: [generate_chat_response] *)

Module Chat.

(** The five canned replies. *)
Inductive reply : Type := Greeting | GoodDay | Capabilities | Identity | Fallback.

(** ^(hi|hello|hey|greetings)[\s!?.]*$ *)
Definition greeting_pattern : regex :=
  seqs [Bol; any_of "hi" ["hello"; "hey"; "greetings"];
        Many trailing_marks; Eol].

(** ^(good morning|good afternoon|good evening)[\s!?.]*$ *)
Definition daytime_pattern : regex :=
  seqs [Bol; any_of "good morning" ["good afternoon"; "good evening"];
        Many trailing_marks; Eol].

(** \b(what can you do|how do you work|help)\b *)
Definition capability_pattern : regex :=
  seqs [WordB; any_of "what can you do" ["how do you work"; "help"]; WordB].

(** \b(who are you|what are you)\b *)
Definition identity_pattern : regex :=
  seqs [WordB; any_of "who are you" ["what are you"]; WordB].

(** Which of the [return] statements of [generate_chat_response] is
    reached. *)
Definition chat_reply (user_message : string) : reply :=
  let message_lower := strip (lower user_message) in
  if search greeting_pattern message_lower then Greeting
  else if search daytime_pattern message_lower then GoodDay
  else if search capability_pattern message_lower then Capabilities
  else if search identity_pattern message_lower then Identity
  else Fallback.

(** The text each [return] statement gives. *)
Definition reply_text (r : reply) : string :=
  match r with
  | Greeting =>
      "👋 Hello! I'm your DarkWave Task Manager assistant." ++ nl ++ nl ++
      "I can help you:" ++ nl ++
      "- **Create tasks**: Just describe what you need to do" ++ nl ++
      "- **View tasks**: Ask " ++ dq ++ "what tasks do I have?" ++ dq ++
      " or " ++ dq ++ "show tasks due today" ++ dq ++ nl ++
      "- **Organize**: I'll auto-label tasks and set priorities" ++ nl ++ nl ++
      "What would you like to do?"
  | GoodDay =>
      "Good day! 🌟 Ready to tackle your tasks?" ++ nl ++ nl ++
      "Tell me what you need to get done, or ask to see your current tasks."
  | Capabilities =>
      "**I'm here to make task management effortless!** ✨" ++ nl ++ nl ++
      "**Create Tasks**" ++ nl ++
      "Just tell me what you need to do:" ++ nl ++
      "- " ++ dq ++ "Buy groceries tomorrow" ++ dq ++ nl ++
      "- " ++ dq ++ "Call dentist at 2pm" ++ dq ++ nl ++
      "- " ++ dq ++ "Review project proposal" ++ dq ++ nl ++ nl ++
      "**View Tasks**" ++ nl ++
      "Ask me to show your tasks:" ++ nl ++
      "- " ++ dq ++ "What tasks do I have?" ++ dq ++ nl ++
      "- " ++ dq ++ "Show tasks due today" ++ dq ++ nl ++
      "- " ++ dq ++ "List tasks labeled work" ++ dq ++ nl ++ nl ++
      "I'll automatically infer priorities, due dates, and labels to keep you organized!"
  | Identity =>
      "I'm **DarkWave Task Manager** 🌙, your AI-powered task assistant!" ++
      nl ++ nl ++
      "I use Google's Gemini AI to understand your natural language and " ++
      "create perfectly organized tasks in Todoist." ++ nl ++ nl ++
      "Just tell me what you need to do, and I'll handle the rest."
  | Fallback =>
      "I'm not sure I understand. 🤔" ++ nl ++ nl ++
      "I can help you **create tasks** or **view your existing tasks**." ++
      nl ++ nl ++
      "Try:" ++ nl ++
      "- Describing a task: " ++ dq ++ "Finish report by Friday" ++ dq ++ nl ++
      "- Asking about tasks: " ++ dq ++ "What tasks do I have?" ++ dq
  end.

(** [generate_chat_response] *)
Definition generate_chat_response (user_message : string) : string :=
  reply_text (chat_reply user_message).

End Chat.

(** ** [app/llm_service.py] and [app/main.py]: what is done with a task *)

Module Task.

(** [task.model_dump(exclude_none=True)]: the fields in the order of their
    declaration, those that hold None left out. *)
Definition model_dump (task : TodoistTask) : dict :=
  let optional (name : string) (v : option string) : dict :=
    match v with
    | Some s => [(name, JStr s)]
    | None => []
    end in
  ([("content", JStr (content task))] ++
   optional "description" (description task) ++
   [("priority", JInt (priority task))] ++
   optional "due_string" (due_string task) ++
   [("labels", JArr (map JStr (labels task)))] ++
   optional "project_id" (project_id task))%list.

(** The table [priority_labels] read with [.get(priority, ("Unknown", "gray"))]:
    the first component. *)
Definition priority_label (p : Z) : string :=
  if Z.eqb p 4 then "🔴 Urgent"
  else if Z.eqb p 2 then "🟡 High"
  else if Z.eqb p 3 then "🟢 Medium"
  else if Z.eqb p 1 then "⚪ Low"
  else "Unknown".

Definition truthy_text (v : option string) : bool :=
  match v with
  | Some s => negb (is_empty s)
  | None => false
  end.

(** [display_task_preview]: the texts handed to [st.markdown], in order. *)
Definition display_task_preview (task : TodoistTask) : list string :=
  let shown (caption : string) (v : option string) : list string :=
    match v with
    | Some s => if is_empty s then [] else [caption ++ s]
    | None => []
    end in
  let title := "**Title:** " ++ content task in
  let badge := "**Priority:** " ++ priority_label (priority task) in
  let tags :=
    match labels task with
    | [] => []
    | _ :: _ => ["**Labels:** " ++ join ", " (labels task)]
    end in
  (["### 📋 Task Preview"; title] ++
   shown "**Description:** " (description task) ++
   [badge] ++
   shown "**Due:** " (due_string task) ++
   tags)%list.

End Task.

(** ** [app/todoist_client.py] *)

Module Client.

(** [TodoistError] and its three subclasses. *)
Inductive error_class : Type :=
| TodoistError
| AuthenticationError
| RateLimitError
| ValidationError.

(** The exceptions that are not of the client's own classes. *)
Inductive escaped : Type :=
| Dynamic (e : exn)                (* AttributeError, TypeError *)
| KeyError (key : string)
| JSONDecodeError                  (* a ValueError: [response.json()] failed *)
| RequestException (what : string) (value_error : bool).
    (* any other failure of the HTTP library; some of its classes
       (InvalidURL, InvalidHeader, ...) are ValueErrors as well *)

(** [isinstance(e, ValueError)] *)
Definition is_value_error (e : escaped) : bool :=
  match e with
  | JSONDecodeError => true
  | RequestException _ value_error => value_error
  | Dynamic _ | KeyError _ => false
  end.

Inductive raised : Type :=
| Todoist (c : error_class) (msg : string)
| Escaped (e : escaped).

(** What [self.session.get] or [.post] followed by [raise_for_status] did:
    a response was accepted ([body] is what [response.json()] gives, None
    when it raises), [raise_for_status] raised for a status, or the library
    raised an exception that is a Timeout, one that is a ConnectionError and
    no Timeout, or one of another class. *)
Inductive exchange : Type :=
| Answered (body : option json)
| HTTPError (status_code : Z) (body : option json)
| Timeout
| ConnectionError
| RequestFailed (what : string) (value_error : bool).

Inductive request : Type :=
| PostTask (task_data : dict)
| GetTasks (params : list (string * string))
| GetProjects.

Definition status_text (status_code : Z) : string :=
  NilZero.string_of_int (Z.to_int status_code).

Definition timed_out : raised :=
  Todoist TodoistError "Request to Todoist API timed out. Please try again.".

Definition unreachable : raised :=
  Todoist TodoistError
    "Unable to connect to Todoist API. Check your internet connection.".

Section Errors.

Variable py_repr : json -> string.

(** [_handle_http_error]: the exception it raises. *)
Definition _handle_http_error (status_code : Z) (body : option json)
           (operation : string) : raised :=
  if Z.eqb status_code 400 then
    match body with
    | None => Todoist ValidationError ("Invalid data provided to " ++ operation)
    | Some (JObj error_details) =>
        Todoist ValidationError
          ("Invalid task data: " ++
           py_str py_repr
             (match lookup "error" error_details with
              | Some e => e
              | None => JStr "Unknown validation error"
              end))
    | Some _ => Escaped (Dynamic Render.AttributeError)
    end
  else if Z.eqb status_code 401 then
    Todoist AuthenticationError
      "Invalid Todoist API token. Please check your TODOIST_API_TOKEN in .env file."
  else if Z.eqb status_code 403 then
    Todoist AuthenticationError
      "Insufficient permissions. Your API token may not have access to this resource."
  else if Z.eqb status_code 404 then
    Todoist TodoistError
      "Resource not found. The requested item may have been deleted."
  else if Z.eqb status_code 429 then
    Todoist RateLimitError
      "Todoist API rate limit exceeded. Please wait a moment before trying again."
  else
    Todoist TodoistError
      ("Todoist API error (" ++ status_text status_code ++ "): Unable to " ++
       operation ++ ". Please try again later.").

(** What the three methods have in common: the request, [raise_for_status],
    [response.json()], and the three [except] clauses; [accept] is what the
    method does with the decoded body before it returns it. *)
Definition call (operation : string) (accept : json -> raised + json)
           (x : exchange) : raised + json :=
  match x with
  | Answered None => inl (Escaped JSONDecodeError)
  | Answered (Some v) => accept v
  | HTTPError status_code body =>
      inl (_handle_http_error status_code body operation)
  | Timeout => inl timed_out
  | ConnectionError => inl unreachable
  | RequestFailed what value_error =>
      inl (Escaped (RequestException what value_error))
  end.

(** [create_task], given what the exchange with the server did; the
    logging call reads [task.get], which only a dict has. *)
Definition create_task : exchange -> raised + json :=
  call "create task"
       (fun task =>
          match task with
          | JObj _ => inr task
          | _ => inl (Escaped (Dynamic Render.AttributeError))
          end).

(** [len(v)] is defined. *)
Definition has_len (v : json) : bool :=
  match v with
  | JStr _ | JArr _ | JObj _ => true
  | _ => false
  end.

(** [get_tasks], given what the exchange did; the logging call reads
    [len(tasks)]. *)
Definition get_tasks : exchange -> raised + json :=
  call "retrieve tasks"
       (fun tasks =>
          if has_len tasks then inr tasks
          else inl (Escaped (Dynamic Render.TypeError))).

(** [get_projects] *)
Definition get_projects : exchange -> raised + json :=
  call "retrieve projects" (fun projects => inr projects).

End Errors.

Definition entry (name : string) (v : option string) : list (string * string) :=
  match v with
  | Some s => if is_empty s then [] else [(name, s)]
  | None => []
  end.

(** The [filter_query] of [get_tasks] once the [due_date] convenience
    parameter has been looked at. *)
Definition effective_filter (filter_query due_date : option string)
  : option string :=
  match due_date with
  | Some d =>
      if negb (is_empty d) && negb (Task.truthy_text filter_query) then
        if String.eqb (lower d) "today" then Some "today"
        else if String.eqb (lower d) "tomorrow" then Some "tomorrow"
        else Some d
      else filter_query
  | None => filter_query
  end.

(** The [params] that [get_tasks] sends. *)
Definition get_tasks_params (project_id label filter_query due_date : option string)
  : list (string * string) :=
  (entry "project_id" project_id ++ entry "label" label ++
   entry "filter" (effective_filter filter_query due_date))%list.

End Client.

(** ** [config/settings.py] *)

Module Settings.

(** The environment [os.getenv] reads. *)
Definition environ : Type := string -> option string.

Inductive settings_error : Type :=
| ConfigurationError (msg : string)
| FloatError (given : string).   (* the ValueError of [float(given)] *)

Record Settings : Type := {
  todoist_api_token : string;
  google_api_key : string;
  gemini_model : string;
  gemini_temperature : PrimFloat.float;
  log_level : string
}.

Definition missing (key : string) : settings_error :=
  ConfigurationError
    ("Missing required environment variable: " ++ key ++ nl ++
     "Please set " ++ key ++ " in your .env file or environment." ++ nl ++
     "See .env.example for reference.").

(** [_get_required_env] *)
Definition _get_required_env (env : environ) (key : string)
  : settings_error + string :=
  match env key with
  | Some value => if is_empty value then inl (missing key) else inr value
  | None => inl (missing key)
  end.

(** [os.getenv(key, default)] *)
Definition getenv (env : environ) (key default : string) : string :=
  match env key with
  | Some value => value
  | None => default
  end.

Section Floats.

(** [float(s)]: the number a text stands for, None when it raises. *)
Variable to_float : string -> option PrimFloat.float.

(** How an f-string writes a float. *)
Variable float_text : PrimFloat.float -> string.

(** [Settings.__init__] *)
Definition __init__ (env : environ) : settings_error + Settings :=
  match _get_required_env env "TODOIST_API_TOKEN" with
  | inl e => inl e
  | inr token =>
      match _get_required_env env "GOOGLE_API_KEY" with
      | inl e => inl e
      | inr key =>
          let model := getenv env "GEMINI_MODEL" "gemini-2.5-flash" in
          let given := getenv env "GEMINI_TEMPERATURE" "0.3" in
          match to_float given with
          | None => inl (FloatError given)
          | Some temperature =>
              inr {| todoist_api_token := token;
                     google_api_key := key;
                     gemini_model := model;
                     gemini_temperature := temperature;
                     log_level := getenv env "LOG_LEVEL" "INFO" |}
          end
      end
  end.

(** [Settings.validate] *)
Definition validate (self : Settings) : settings_error + bool :=
  if Nat.ltb (String.length (todoist_api_token self)) 20 then
    inl (ConfigurationError "TODOIST_API_TOKEN appears to be invalid (too short)")
  else if Nat.ltb (String.length (google_api_key self)) 20 then
    inl (ConfigurationError "GOOGLE_API_KEY appears to be invalid (too short)")
  else if negb (PrimFloat.leb PrimFloat.zero (gemini_temperature self) &&
                PrimFloat.leb (gemini_temperature self) PrimFloat.one) then
    inl (ConfigurationError
           ("GEMINI_TEMPERATURE must be between 0.0 and 1.0, got " ++
            float_text (gemini_temperature self)))
  else inr true.

(** [get_settings] *)
Definition get_settings (env : environ) : settings_error + Settings :=
  __init__ env.

(** [settings]: the state is the module variable [_settings]. *)
Definition settings (env : environ) (_settings : option Settings)
  : (settings_error + Settings) * option Settings :=
  match _settings with
  | Some s => (inr s, _settings)
  | None =>
      match __init__ env with
      | inr s => (inr s, Some s)
      | inl e => (inl e, None)
      end
  end.

End Floats.

End Settings.

(** ** [app/main.py]: the two handlers *)

Module Orchestrator.

Import Client.

(** What a request leaves behind: the chat history
    ([st.session_state.messages], as role and content), the number of calls
    made to the text-generation service, and the requests sent to the task
    store.  What is drawn on the page is not part of it. *)
Record session : Type := {
  messages : list (string * string);
  llm_calls : nat;
  sent : list request
}.

Definition say (role content : string) (st : session) : session :=
  {| messages := (messages st ++ [(role, content)])%list;
     llm_calls := llm_calls st;
     sent := sent st |}.

Definition send (r : request) (st : session) : session :=
  {| messages := messages st;
     llm_calls := llm_calls st;
     sent := (sent st ++ [r])%list |}.

Definition called (n : nat) (st : session) : session :=
  {| messages := messages st; llm_calls := n; sent := sent st |}.

(** An exception raised inside the [try] of the creation branch. *)
Inductive thrown : Type :=
| FromParse (e : ValueError)
| FromClient (r : raised).

(** [v[key]] *)
Definition subscript (v : json) (key : string) : raised + json :=
  match v with
  | JObj d =>
      match lookup key d with
      | Some x => inr x
      | None => inl (Escaped (KeyError key))
      end
  | _ => inl (Escaped (Dynamic Render.TypeError))
  end.

(** [task.get(...)], the first thing the loop of [format_task_list] asks of
    an item. *)
Definition as_task (v : json) : result dict :=
  match v with
  | JObj d => inr d
  | _ => inl Render.AttributeError
  end.

Section Handlers.

Variable py_repr : json -> string.
Variable lax_int : json -> option Z.

(** [str(e)] for the exceptions of the parser and for those that are not the
    client's own. *)
Variable exc_str : failure -> string.
Variable exc_text : escaped -> string.

(** The text-generation service and the task store: what the call number
    [n] of each does. *)
Variable svc : service.
Variable store : nat -> request -> exchange.

(** [format_task_list] on whatever [get_tasks] returned. *)
Definition format_tasks (tasks : json) (filter_description : option string)
  : result string :=
  if negb (truthy tasks) then inr (empty_state filter_description)
  else
    items <- py_iter tasks ;;
    task_lines <-
      map_result (fun v => task <- as_task v ;; format_task_line py_repr task)
                 items ;;
    inr (header (List.length items) filter_description ++ join nl task_lines).

(** The [except] clauses of [handle_retrieve_mode]. *)
Definition report_retrieve (r : raised) : string :=
  match r with
  | Todoist AuthenticationError msg =>
      "🔑 **Authentication Error**" ++ nl ++ nl ++ msg
  | Todoist _ msg => "⚠️ **Todoist Error**" ++ nl ++ nl ++ msg
  | Escaped e => "❌ **Unexpected Error**" ++ nl ++ nl ++ exc_text e
  end.

(** [handle_retrieve_mode] *)
Definition handle_retrieve_mode (user_message : string) (st : session)
  : session :=
  let f := handle_retrieve_mode_filter user_message in
  let r := GetTasks (get_tasks_params None (label f) None (due_date f)) in
  let x := store (List.length (sent st)) r in
  let st := send r st in
  match get_tasks py_repr x with
  | inl e => say "assistant" (report_retrieve e) st
  | inr tasks =>
      match format_tasks tasks (filter_desc f) with
      | inl e => say "assistant" (report_retrieve (Escaped (Dynamic e))) st
      | inr formatted_tasks => say "assistant" formatted_tasks st
      end
  end.

(** The [except] clauses of the creation branch of [handle_user_input]. *)
Definition report_create (t : thrown) : string :=
  match t with
  | FromParse e =>
      "❌ **Unable to understand your request**" ++ nl ++ nl ++ message e
  | FromClient (Todoist AuthenticationError msg) =>
      "🔑 **Authentication Error**" ++ nl ++ nl ++ msg
  | FromClient (Todoist _ msg) => "⚠️ **Todoist Error**" ++ nl ++ nl ++ msg
  | FromClient (Escaped e) =>
      if is_value_error e
      then "❌ **Unable to understand your request**" ++ nl ++ nl ++ exc_text e
      else "💥 **Unexpected Error**" ++ nl ++ nl ++ exc_text e ++ nl ++ nl ++
           "Please try again or check the logs."
  end.

Definition link_note (created_task : json) : string :=
  let task_url :=
    match created_task with
    | JObj d => build_task_url py_repr (Some d)
    | _ => None
    end in
  match task_url with
  | Some u =>
      if is_empty u
      then "_Note: Unable to generate Todoist link (see logs)_"
      else "[View in Todoist](" ++ u ++ ")"
  | None => "_Note: Unable to generate Todoist link (see logs)_"
  end.

(** The creation branch of [handle_user_input], from the call of
    [parse_task] on. *)
Definition create_branch (user_message : string) (st : session) : session :=
  let (parsed, calls) := parse_task lax_int exc_str svc user_message (llm_calls st) in
  let st := called calls st in
  match parsed with
  | inl e => say "assistant" (report_create (FromParse e)) st
  | inr task =>
      let r := PostTask (Task.model_dump task) in
      let x := store (List.length (sent st)) r in
      let st := send r st in
      match create_task py_repr x with
      | inl e => say "assistant" (report_create (FromClient e)) st
      | inr created_task =>
          match subscript created_task "id" with
          | inl e => say "assistant" (report_create (FromClient e)) st
          | inr task_id =>
              let success_msg :=
                "✅ **Task created successfully!**" ++ nl ++ nl ++
                "Task ID: `" ++ py_str py_repr task_id ++ "`" ++ nl ++ nl ++
                link_note created_task in
              let st := say "assistant" success_msg st in
              match subscript created_task "content" with
              | inl e => say "assistant" (report_create (FromClient e)) st
              | inr _ => st
              end
          end
      end
  end.

(** [handle_user_input] *)
Definition handle_user_input (user_message : string) (st : session)
  : session :=
  let st := say "user" user_message st in
  match detect_mode user_message with
  | RETRIEVE => handle_retrieve_mode user_message st
  | CHAT => say "assistant" (Chat.generate_chat_response user_message) st
  | CREATE => create_branch user_message st
  end.

End Handlers.

End Orchestrator.

(** ** Vocabulary of the properties *)

(** The message mentions one of the creation imperatives somewhere. *)
Definition mentions_imperative (user_message : string) : bool :=
  contains "add" user_message || contains "remind me to" user_message ||
  contains "todo:" user_message.

(** The text begins with one of the creation imperatives. *)
Definition leads_with_imperative (message : string) : bool :=
  prefix "add" message || prefix "remind me to" message ||
  prefix "todo:" message.

(** Every character of [s] is in the set. *)
Fixpoint all_in (k : cset) (s : string) : bool :=
  match s with
  | EmptyString => true
  | String c s' => in_cset k c && all_in k s'
  end.

Definition absent (k : string) (d : dict) : bool :=
  match lookup k d with None => true | Some _ => false end.

(** A priority that does not stand for an integer of 1..4: an integer
    outside the range, or no integer at all. *)
Definition out_of_range (lax_int : json -> option Z) (v : json) : bool :=
  match read_int lax_int v with
  | Some z => (z <? 1)%Z || (4 <? z)%Z
  | None => true
  end.

Definition is_str (v : json) : bool :=
  match v with JStr _ => true | _ => false end.

(** A field that is missing, or holds something else than a string. *)
Definition no_string (v : option json) : bool :=
  match v with Some (JStr _) => false | _ => true end.

(** An optional text: the field is left out, null or a string. *)
Definition optional_text (v : option json) : bool :=
  match v with
  | None | Some JNull | Some (JStr _) => true
  | Some _ => false
  end.

(** An optional list of strings. *)
Definition optional_texts (v : option json) : bool :=
  match v with
  | None => true
  | Some (JArr items) => forallb is_str items
  | Some _ => false
  end.

(** A reply from which no task can be read: it is not JSON, is not an
    object, has no [content] or one that is no string, has a [priority]
    that does not stand for an integer of 1..4, or has another field of the
    wrong type. *)
Definition unusable (lax_int : json -> option Z) (reply : completion) : bool :=
  match decoded reply with
  | None => true
  | Some (JObj d) =>
      no_string (lookup "content" d) ||
      match lookup "priority" d with
      | Some v => out_of_range lax_int v
      | None => false
      end ||
      negb (optional_text (lookup "description" d)) ||
      negb (optional_text (lookup "due_string" d)) ||
      negb (optional_texts (lookup "labels" d)) ||
      negb (optional_text (lookup "project_id" d))
  | Some _ => true
  end.

(** The caught exception tells what was wrong with the reply: the raw text
    that is not JSON, or the decoded value with the failures found in it,
    among them the missing [content], the [content] that is no string and
    the [priority] out of range. *)
Definition pinpoints (lax_int : json -> option Z) (e : failure)
           (reply : completion) : Prop :=
  match e with
  | InvokeFailed _ => False
  | InvalidJson raw => decoded reply = None /\ raw = text reply
  | ValidationFailed obj es =>
      decoded reply = Some obj /\ es <> [] /\
      (forall d, obj = JObj d -> absent "content" d = true ->
                 In (FieldRequired "content") es) /\
      (forall d v, obj = JObj d -> lookup "content" d = Some v ->
                   is_str v = false ->
                   In (InvalidValue "content" v) es) /\
      (forall d v, obj = JObj d -> lookup "priority" d = Some v ->
                   out_of_range lax_int v = true ->
                   In (InvalidValue "priority" v) es)
  end.

(** A validator that never fails without saying why. *)
Definition reports (A : Type) (check : string -> json -> validated A) : Prop :=
  forall f v es, check f v = inl es -> es <> [].

(** None of the optional fields is supplied. *)
Definition only_content (d : dict) : bool :=
  absent "description" d && absent "priority" d && absent "due_string" d &&
  absent "labels" d && absent "project_id" d.

(** The shape the Todoist API gives the fields the renderer walks into:
    [due] is null or an object whose [date] and [datetime] are strings or
    null, and [labels] is a list. *)
Definition str_or_null (v : option json) : bool :=
  match v with
  | None | Some JNull | Some (JStr _) => true
  | Some _ => false
  end.

Definition api_shaped (task : dict) : bool :=
  match lookup "due" task with
  | None | Some JNull => true
  | Some (JObj d) =>
      str_or_null (lookup "date" d) && str_or_null (lookup "datetime" d)
  | Some _ => false
  end &&
  match lookup "labels" task with
  | None | Some (JArr _) => true
  | Some _ => false
  end.

(** A field that is present and truthy. *)
Definition usable (v : option json) : bool :=
  match v with Some x => truthy x | None => false end.

(** The count as the header words it. *)
Definition count_phrase (n : nat) : string :=
  "(" ++ decimal n ++ " " ++ (if Nat.eqb n 1 then "item" else "items") ++ ")".

Definition heading (filter_description : option string) : string :=
  match filter_description with
  | None | Some EmptyString => "Your Tasks"
  | Some d => "Tasks " ++ d
  end.

Definition is_ok {A : Type} (r : result A) : bool :=
  match r with inr _ => true | inl _ => false end.

Definition is_ok_task (r : validated TodoistTask) : bool :=
  match r with inr _ => true | inl _ => false end.

(** The character before the position reached after reading [s]. *)
Fixpoint last_char (p : option ascii) (s : string) : option ascii :=
  match s with
  | EmptyString => p
  | String c s' => last_char (Some c) s'
  end.

(** [w] occurs in [message] with no word character on either side. *)
Definition whole_word_in (w message : string) : Prop :=
  exists pre post,
    message = pre ++ w ++ post /\
    word_before (last_char None pre) = false /\
    word_after post = false.

(** One of the creation verbs stands in the message as a whole word and,
    later on the same line, the word task or list does. *)
Definition verb_then_noun (message : string) : Prop :=
  exists pre verb mid noun post,
    message = pre ++ verb ++ mid ++ noun ++ post /\
    In verb ["add"; "remind me"] /\
    In noun ["task"; "list"] /\
    word_before (last_char None pre) = false /\
    word_after (mid ++ noun ++ post) = false /\
    all_in CDot mid = true /\
    word_before (last_char None (pre ++ verb ++ mid)) = false /\
    word_after post = false.

(** today\b *)
Definition today_word : regex := Seq (Lit "today") WordB.

(** The whole label pattern, its group included. *)
Definition label_pattern : regex :=
  Seq label_prefix (Seq label_group label_suffix).

Definition is_some {A : Type} (o : option A) : bool :=
  match o with Some _ => true | None => false end.

(** One of the three key phrases of the label rule as the design document
    names them. *)
Definition label_keyword (kw : string) : Prop :=
  kw = "labeled" \/ kw = "tagged" \/ kw = "with label".

(** Nothing, or one quotation mark. *)
Definition opening_quote (q : string) : Prop :=
  q = EmptyString \/ q = "'" \/ q = dq.

(** *** Vocabulary of the properties of the handlers *)

(** \bshow me how\b: the capability phrase that [detect_mode] knows and
    [generate_chat_response] does not. *)
Definition show_me_how : regex := seqs [WordB; Lit "show me how"; WordB].

(** The text that remains does not begin with a character of the set. *)
Definition stops (k : cset) (t : string) : bool :=
  match t with
  | EmptyString => true
  | String c _ => negb (in_cset k c)
  end.

(** [t] with a null description read as the empty one. *)
Definition with_description_default (t : TodoistTask) : TodoistTask :=
  {| content := content t;
     description :=
       match description t with
       | Some d => Some d
       | None => Some EmptyString
       end;
     priority := priority t;
     due_string := due_string t;
     labels := labels t;
     project_id := project_id t |}.

Definition in_range_1_4 (p : Z) : bool := (Z.leb 1 p && Z.leb p 4)%bool.

(** The four badges of the preview. *)
Definition known_badges : list string :=
  ["🔴 Urgent"; "🟡 High"; "🟢 Medium"; "⚪ Low"].

Definition not_object (v : json) : bool :=
  match v with JObj _ => false | _ => true end.

Definition is_object (v : json) : bool := negb (not_object v).

(** The exchanges on which a method of the client raises an exception that
    is not of the client's classes: a body that is not JSON, a body the
    method cannot read, a status 400 whose body is JSON but no object, or a
    failure of the HTTP library other than a time-out or a lost connection. *)
Definition slips_through (readable : json -> bool) (x : Client.exchange) : Prop :=
  x = Client.Answered None \/
  (exists v, x = Client.Answered (Some v) /\ readable v = false) \/
  (exists v, x = Client.HTTPError 400 (Some v) /\ not_object v = true) \/
  (exists what value_error, x = Client.RequestFailed what value_error).

Definition is_escaped {A : Type} (r : Client.raised + A) : Prop :=
  exists e, r = inl (Client.Escaped e).

Definition unset_or_empty (v : option string) : bool :=
  match v with
  | Some s => is_empty s
  | None => true
  end.

(** The heading under which an exception of the client is reported. *)
Definition headline (c : Client.error_class) : string :=
  match c with
  | Client.AuthenticationError => "🔑 **Authentication Error**"
  | _ => "⚠️ **Todoist Error**"
  end.

(** The report of an exception the creation branch does not expect. *)
Definition unexpected (wording : string) : string :=
  "💥 **Unexpected Error**" ++ nl ++ nl ++ wording ++ nl ++ nl ++
  "Please try again or check the logs.".

(** The confirmation of a created task, up to the link or the note. *)
Definition confirmation (id_text : string) : string :=
  "✅ **Task created successfully!**" ++ nl ++ nl ++
  "Task ID: `" ++ id_text ++ "`" ++ nl ++ nl.

Section Requests.

Variable py_repr : json -> string.
Variable lax_int : json -> option Z.
Variable exc_str : failure -> string.
Variable svc : service.
Variable store : nat -> Client.request -> Client.exchange.

(** The request a message leads to, if any. *)
Definition request_of (user_message : string) (st : Orchestrator.session)
  : option Client.request :=
  match detect_mode user_message with
  | CHAT => None
  | RETRIEVE =>
      let f := handle_retrieve_mode_filter user_message in
      Some (Client.GetTasks
              (Client.get_tasks_params None (label f) None (due_date f)))
  | CREATE =>
      match fst (parse_task lax_int exc_str svc user_message
                   (Orchestrator.llm_calls st)) with
      | inr task => Some (Client.PostTask (Task.model_dump task))
      | inl _ => None
      end
  end.

(** The method of the client that sends a request, on what the exchange
    did. *)
Definition perform (r : Client.request) (x : Client.exchange)
  : Client.raised + json :=
  match r with
  | Client.PostTask _ => Client.create_task py_repr x
  | Client.GetTasks _ => Client.get_tasks py_repr x
  | Client.GetProjects => Client.get_projects py_repr x
  end.

(** What the store does with the request of a message. *)
Definition outcome (user_message : string) (st : Orchestrator.session)
  : option (Client.raised + json) :=
  match request_of user_message st with
  | Some r => Some (perform r (store (List.length (Orchestrator.sent st)) r))
  | None => None
  end.

(** The store created the task and answered with an object that has an
    [id] and no [content]. *)
Definition created_without_content (user_message : string)
           (st : Orchestrator.session) : bool :=
  match detect_mode user_message, outcome user_message st with
  | CREATE, Some (inr (JObj d)) => negb (absent "id" d) && absent "content" d
  | _, _ => false
  end.

End Requests.

Section Startup.

Variable to_float : string -> option PrimFloat.float.
Variable float_text : PrimFloat.float -> string.

(** [settings().validate()], the first statement of [initialize_services],
    with the module variable [_settings] as the state. *)
Definition checked_settings (env : Settings.environ)
           (_settings : option Settings.Settings)
  : (Settings.settings_error + bool) * option Settings.Settings :=
  let (loaded, cache) := Settings.settings to_float env _settings in
  (match loaded with
   | inl e => inl e
   | inr s => Settings.validate float_text s
   end, cache).

End Startup.

(** A text of at least twenty characters. *)
Definition long_enough (v : option string) : bool :=
  match v with
  | Some s => Nat.leb 20 (String.length s)
  | None => false
  end.

(** A temperature between 0.0 and 1.0. *)
Definition in_unit_interval (t : option PrimFloat.float) : bool :=
  match t with
  | Some x => PrimFloat.leb PrimFloat.zero x && PrimFloat.leb x PrimFloat.one
  | None => false
  end.

(** ** Sample data *)

(** An [int] validator that converts nothing. *)
Definition no_lax : json -> option Z := fun _ => None.

(** A wording of the caught exceptions. *)
Definition describe (e : failure) : string :=
  match e with
  | InvokeFailed what => what
  | InvalidJson raw => "Invalid json output: " ++ raw
  | ValidationFailed _ _ => "Failed to parse TodoistTask from completion"
  end.

Definition always (reply : completion) : service := fun _ _ => Returned reply.

Definition blank_title_reply : completion :=
  {| text := "{" ++ dq ++ "content" ++ dq ++ ": " ++ dq ++ dq ++ "}";
     decoded := Some (JObj [("content", JStr EmptyString)]) |}.

Definition ten_priority_reply : completion :=
  {| text := "{" ++ dq ++ "content" ++ dq ++ ": " ++ dq ++ "Test task" ++ dq ++
             ", " ++ dq ++ "priority" ++ dq ++ ": 10}";
     decoded :=
       Some (JObj [("content", JStr "Test task"); ("priority", JInt 10)]) |}.

(** A reply whose [content] is null. *)
Definition null_title_reply : completion :=
  {| text := "{" ++ dq ++ "content" ++ dq ++ ": null}";
     decoded := Some (JObj [("content", JNull)]) |}.

Definition title_only_reply : completion :=
  {| text := "{" ++ dq ++ "content" ++ dq ++ ": " ++ dq ++ "Buy milk" ++ dq ++ "}";
     decoded := Some (JObj [("content", JStr "Buy milk")]) |}.

Definition title_only_task : TodoistTask :=
  {| content := "Buy milk"; description := Some EmptyString; priority := 3%Z;
     due_string := None; labels := []; project_id := None |}.

Definition sample_task : dict :=
  [("id", JStr "12345"); ("content", JStr "Complete task");
   ("due", JObj [("datetime", JStr "2024-01-15T14:30:00")]);
   ("labels", JArr [JStr "work"])].

Definition untitled_task : dict := [("id", JInt 7); ("due", JNull)].

Definition linked_task : dict :=
  [("id", JStr "12345");
   ("url", JStr "https://app.todoist.com/app/task/custom-url-format");
   ("content", JStr "Test task")].

(** A store that rejects the token. *)
Definition unauthorized : nat -> Client.request -> Client.exchange :=
  fun _ _ => Client.HTTPError 401 None.

(** A store that holds one task. *)
Definition one_task_store : nat -> Client.request -> Client.exchange :=
  fun _ _ => Client.Answered (Some (JArr [JObj sample_task])).

(** A store that answers every creation with the same task. *)
Definition creating_store : nat -> Client.request -> Client.exchange :=
  fun _ _ => Client.Answered (Some (JObj linked_task)).

Definition new_session : Orchestrator.session :=
  {| Orchestrator.messages := [];
     Orchestrator.llm_calls := 0;
     Orchestrator.sent := [] |}.

(** A wording of the exceptions that are not the client's own. *)
Definition describe_escaped (e : Client.escaped) : string :=
  match e with
  | Client.Dynamic AttributeError => "AttributeError"
  | Client.Dynamic TypeError => "TypeError"
  | Client.KeyError key => "'" ++ key ++ "'"
  | Client.JSONDecodeError => "Expecting value: line 1 column 1 (char 0)"
  | Client.RequestException what _ => what
  end.

(** The environment of the configuration tests. *)
Definition test_environ : Settings.environ :=
  fun key =>
    if String.eqb key "TODOIST_API_TOKEN" then Some "test_todoist_token_12345"
    else if String.eqb key "GOOGLE_API_KEY" then Some "test_google_key_12345"
    else None.

(** [float("0.3")], the binary64 number nearest to three tenths. *)
Definition three_tenths : PrimFloat.float := 0x1.3333333333333p-2%float.

(** [float] on the texts the examples use. *)
Definition sample_float (s : string) : option PrimFloat.float :=
  if String.eqb s "0.3" then Some three_tenths
  else if String.eqb s "0.7" then Some 0x1.6666666666666p-1%float
  else if String.eqb s "1.5" then Some 0x1.8p+0%float
  else None.

(** A store that creates the task and answers with its id alone. *)
Definition terse_store : nat -> Client.request -> Client.exchange :=
  fun _ _ => Client.Answered (Some (JObj [("id", JStr "123")])).

(** ** Tactics *)

(** Splits the conditionals of a goal and closes the branches that hold by
    computation. *)
Ltac split_ifs :=
  repeat match goal with
         | |- context [if ?b then _ else _] => destruct b; simpl
         end;
  try (eexists; reflexivity).


(** Closes a goal on the chat history once the handler has been run down one
    of its branches. *)
Ltac settle_history :=
  eexists;
  cbn [Orchestrator.messages Orchestrator.say Orchestrator.send
       Orchestrator.called negb andb app];
  rewrite <- ?app_assoc; cbn [app]; reflexivity.

(** ** Facts about text *)

Lemma append_assoc (a b c : string) : (a ++ b) ++ c = a ++ (b ++ c).
Proof.
  induction a as [|x a IH]; simpl; [reflexivity|]. rewrite IH. reflexivity.
Qed.

Lemma append_nil_r (a : string) : a ++ EmptyString = a.
Proof.
  induction a as [|x a IH]; simpl; [reflexivity|]. rewrite IH. reflexivity.
Qed.

Lemma prefix_append (a b : string) : prefix a (a ++ b) = true.
Proof.
  induction a as [|x a IH]; simpl.
  - destruct b; reflexivity.
  - destruct (ascii_dec x x); [exact IH|congruence].
Qed.

Lemma last_char_app a :
  forall p b, last_char p (a ++ b) = last_char (last_char p a) b.
Proof. induction a as [|x a IH]; intros p b; simpl; [reflexivity|apply IH]. Qed.

Lemma space_is_not_word c : is_space c = true -> is_word c = false.
Proof. destruct c as [[] [] [] [] [] [] [] []]; vm_compute; congruence. Qed.

Lemma lstrip_all_space s : all_space s = true -> lstrip s = EmptyString.
Proof.
  induction s as [|c s IH]; simpl; [reflexivity|].
  intros H. apply andb_true_iff in H. destruct H as [Hc Hs].
  rewrite Hc. auto.
Qed.

Lemma strip_all_space s : all_space s = true -> strip s = EmptyString.
Proof.
  intros H. unfold strip. rewrite (lstrip_all_space s H). reflexivity.
Qed.

Lemma lower_is_empty s : is_empty (lower s) = is_empty s.
Proof. destruct s; reflexivity. Qed.

Lemma strip_of_empty s : is_empty s = true -> is_empty (strip s) = true.
Proof. destruct s; simpl; [reflexivity|discriminate]. Qed.

Lemma join_cons sep x rest : exists tail, join sep (x :: rest) = x ++ tail.
Proof.
  unfold join. destruct rest as [|y rest]; simpl.
  - exists EmptyString. symmetry. apply append_nil_r.
  - eexists. reflexivity.
Qed.

(** ** Facts about the matcher *)

Lemma nonempty_app {A : Type} (a b : list A) :
  match (a ++ b)%list with [] => false | _ :: _ => true end =
  match a with [] => false | _ :: _ => true end ||
  match b with [] => false | _ :: _ => true end.
Proof. destruct a; reflexivity. Qed.

Lemma matches_at_lit w : forall p s, matches_at (Lit w) p s = prefix w s.
Proof.
  unfold matches_at. simpl.
  induction w as [|a w IH]; intros p s; simpl.
  - destruct s; reflexivity.
  - destruct s as [|x s]; [reflexivity|]. simpl.
    destruct (Ascii.eqb_spec a x) as [->|Hne].
    + destruct (ascii_dec x x) as [_|Hn]; [apply IH|congruence].
    + destruct (ascii_dec a x) as [He|_]; [congruence|reflexivity].
Qed.

Lemma matches_at_alt r1 r2 p s :
  matches_at (Alt r1 r2) p s = matches_at r1 p s || matches_at r2 p s.
Proof. unfold matches_at. simpl. apply nonempty_app. Qed.

Lemma matches_at_seq r1 r2 p s :
  matches_at (Seq r1 r2) p s =
  existsb (fun c => matches_at r2 (fst c) (snd c)) (run r1 p s).
Proof.
  unfold matches_at. simpl.
  induction (run r1 p s) as [|c cs IH]; simpl; [reflexivity|].
  rewrite nonempty_app, IH. reflexivity.
Qed.

Lemma matches_at_bol r s :
  matches_at (Seq Bol r) None s = matches_at r None s.
Proof. rewrite matches_at_seq. simpl. apply orb_false_r. Qed.

Lemma search_at_start r s : matches_at r None s = true -> search r s = true.
Proof. unfold search. intros H. destruct s; simpl; rewrite H; reflexivity. Qed.

(** A search succeeds exactly when the pattern matches at some position. *)
Lemma search_from_iff r : forall s p,
  search_from r p s = true <->
  exists pre post, s = pre ++ post /\ matches_at r (last_char p pre) post = true.
Proof.
  induction s as [|x s IH]; intros p; simpl.
  - rewrite orb_false_r. split.
    + intros H. exists EmptyString, EmptyString. auto.
    + intros (pre & post & E & H). destruct pre; [|discriminate].
      simpl in E. subst post. exact H.
  - rewrite orb_true_iff, IH. split.
    + intros [H|(pre & post & E & H)].
      * exists EmptyString, (String x s). auto.
      * exists (String x pre), post. simpl. subst s. auto.
    + intros (pre & post & E & H). destruct pre as [|c pre]; simpl in *.
      * subst post. left. exact H.
      * right. inversion E; subst. exists pre, post. auto.
Qed.

Lemma run_lit_spec w : forall p s c,
  In c (run_lit w p s) -> exists t, s = w ++ t /\ c = (last_char p w, t).
Proof.
  induction w as [|a w IH]; intros p s c; simpl.
  - intros [<-|[]]. exists s. auto.
  - destruct s as [|x s]; [intros []|].
    destruct (Ascii.eqb_spec a x) as [->|_]; [|intros []].
    intros H. destruct (IH _ _ _ H) as (t & -> & ->). exists t. auto.
Qed.

Lemma run_lit_here w : forall p t, run_lit w p (w ++ t) = [(last_char p w, t)].
Proof.
  induction w as [|a w IH]; intros p t; simpl; [reflexivity|].
  rewrite Ascii.eqb_refl. apply IH.
Qed.

Lemma run_many_spec k : forall s p c,
  In c (run_many k p s) ->
  exists mid, s = mid ++ snd c /\ fst c = last_char p mid /\
              (mid = EmptyString \/ exists x, fst c = Some x /\ in_cset k x = true).
Proof.
  induction s as [|x s IH]; intros p c; simpl.
  - intros [<-|[]]. exists EmptyString. auto.
  - destruct (in_cset k x) eqn:K.
    + intros H. apply in_app_or in H. destruct H as [H|[<-|[]]].
      * destruct (IH _ _ H) as (mid & E & L & T).
        exists (String x mid). simpl. rewrite <- E. repeat split; auto.
        right. destruct T as [->|T]; [|exact T].
        simpl in L. exists x. auto.
      * exists EmptyString. auto.
    + intros [<-|[]]. exists EmptyString. auto.
Qed.

Lemma run_many1_spec k s p c :
  In c (run (Many1 k) p s) ->
  exists mid, s = mid ++ snd c /\ fst c = last_char p mid /\
              exists x, fst c = Some x /\ in_cset k x = true.
Proof.
  simpl. destruct s as [|x s]; [intros []|].
  destruct (in_cset k x) eqn:K; [|intros []].
  intros H. destruct (run_many_spec _ _ _ _ H) as (mid & E & L & T).
  exists (String x mid). simpl. rewrite <- E. repeat split; auto.
  destruct T as [->|T]; [|exact T]. simpl in L. exists x. auto.
Qed.

(** Every end position of a match lies further on in the same text. *)
Lemma run_consumes r : forall p s c,
  In c (run r p s) -> exists mid, s = mid ++ snd c /\ fst c = last_char p mid.
Proof.
  assert (Hstay : forall p s c, In c [(p, s)] ->
            exists mid, s = mid ++ snd c /\ fst c = last_char p mid).
  { intros p s c [<-|[]]. exists EmptyString. auto. }
  induction r as [w|k|k|k|r1 IH1 r2 IH2|r1 IH1 r2 IH2|r1 IH1| | | |r1 IH1];
    intros p s c; simpl.
  - intros H. destruct (run_lit_spec _ _ _ _ H) as (t & -> & ->).
    exists w. auto.
  - destruct s as [|x s]; [intros []|].
    destruct (in_cset k x); [|intros []]. intros [<-|[]].
    exists (String x EmptyString). auto.
  - intros H. destruct (run_many_spec _ _ _ _ H) as (mid & E & L & _).
    exists mid. auto.
  - intros H. destruct (run_many1_spec k s p c H) as (mid & E & L & _).
    exists mid. auto.
  - intros H. apply in_flat_map in H. destruct H as (c1 & H1 & H2).
    destruct (IH1 _ _ _ H1) as (m1 & E1 & L1).
    destruct (IH2 _ _ _ H2) as (m2 & E2 & L2).
    exists (m1 ++ m2). rewrite append_assoc, <- E2, <- E1.
    rewrite last_char_app, <- L1. auto.
  - intros H. apply in_app_or in H. destruct H; eauto.
  - intros H. apply in_app_or in H. destruct H; eauto.
  - destruct p; [intros []|apply Hstay].
  - destruct (at_end s); [apply Hstay|intros []].
  - destruct (at_boundary p s); [apply Hstay|intros []].
  - destruct (run r1 p s); [apply Hstay|intros []].
Qed.

Lemma word_is_not_space c : is_word c = true -> is_space c = false.
Proof.
  intros H. destruct (is_space c) eqn:S; [|reflexivity].
  rewrite (space_is_not_word c S) in H. discriminate.
Qed.

Lemma run_many_nonempty k : forall s p, run_many k p s <> [].
Proof.
  induction s as [|x s IH]; intros p; simpl; [discriminate|].
  destruct (in_cset k x); [|discriminate].
  intros H. apply app_eq_nil in H. destruct H as [_ H]. discriminate.
Qed.

Lemma matches_at_seq_intro r1 r2 p s c :
  In c (run r1 p s) -> matches_at r2 (fst c) (snd c) = true ->
  matches_at (Seq r1 r2) p s = true.
Proof.
  intros Hin Hm. rewrite matches_at_seq. apply existsb_exists. exists c. auto.
Qed.

Lemma run_seq_intro r1 r2 p s c1 c2 :
  In c1 (run r1 p s) -> In c2 (run r2 (fst c1) (snd c1)) ->
  In c2 (run (Seq r1 r2) p s).
Proof.
  intros H1 H2. cbn [run]. apply in_flat_map. exists c1. auto.
Qed.

Lemma run_lit_intro w p t : In (last_char p w, t) (run (Lit w) p (w ++ t)).
Proof. cbn [run]. rewrite run_lit_here. left. reflexivity. Qed.

Lemma run_many_self k s p : In (p, s) (run_many k p s).
Proof.
  destruct s as [|x s]; simpl; [auto|].
  destruct (in_cset k x); [apply in_or_app; right|]; left; reflexivity.
Qed.

(** One character of the set, then as few more as possible. *)
Lemma run_many1_one k x s p :
  in_cset k x = true -> In (Some x, s) (run (Many1 k) p (String x s)).
Proof. intros K. cbn [run]. rewrite K. apply run_many_self. Qed.

Lemma run_opt_skip r p s : In (p, s) (run (Opt r) p s).
Proof. cbn [run]. apply in_or_app. right. left. reflexivity. Qed.

Lemma run_opt_take r p s c : In c (run r p s) -> In c (run (Opt r) p s).
Proof. intros H. cbn [run]. apply in_or_app. left. exact H. Qed.

Lemma run_many_prefix k mid : forall p t,
  all_in k mid = true -> In (last_char p mid, t) (run_many k p (mid ++ t)).
Proof.
  induction mid as [|x mid IH]; intros p t H.
  - apply run_many_self.
  - simpl in H. apply andb_true_iff in H. destruct H as [Hx Hm].
    cbn [append run_many last_char]. rewrite Hx.
    apply in_or_app. left. apply IH. exact Hm.
Qed.

(** ** Mode detection *)

Lemma detect_mode_nonblank s :
  is_empty (lower (strip s)) = false ->
  detect_mode s =
    let m := lower (strip s) in
    if any_match chat_patterns m then CHAT
    else if any_match create_patterns m then CREATE
    else if any_match retrieve_patterns m then RETRIEVE
    else CREATE.
Proof.
  intros H. rewrite lower_is_empty in H. unfold detect_mode.
  destruct (is_empty s) eqn:Es.
  - rewrite (strip_of_empty s Es) in H. discriminate.
  - rewrite H. reflexivity.
Qed.

(** The first creation pattern matches a text that begins with one of its
    words. *)
Lemma leading_word_matches (message : string) :
  leads_with_imperative message = true ->
  any_match create_patterns message = true.
Proof.
  intros Hlead. unfold any_match, create_patterns. cbn [existsb].
  apply orb_true_iff. left. apply search_at_start.
  cbn [seqs any_of alts map].
  rewrite matches_at_bol, !matches_at_alt, !matches_at_lit.
  unfold leads_with_imperative in Hlead.
  apply orb_true_iff in Hlead. destruct Hlead as [Hlead|Ht].
  - apply orb_true_iff in Hlead. destruct Hlead as [Ha|Hr].
    + rewrite Ha. reflexivity.
    + rewrite Hr, !orb_true_r. reflexivity.
  - rewrite Ht, !orb_true_r. reflexivity.
Qed.

(** The second creation pattern matches a text in which a creation verb is
    followed, on the same line, by a task noun. *)
Lemma verb_then_noun_matches (message : string) :
  verb_then_noun message -> any_match create_patterns message = true.
Proof.
  intros (pre & verb & mid & noun & post & E & Hv & Hn & Hpre & Hmid & Hdot
          & Hq & Hpost).
  unfold any_match, create_patterns. cbn [existsb].
  apply orb_true_iff. right. apply orb_true_iff. left.
  unfold search. apply search_from_iff.
  exists pre, (verb ++ mid ++ noun ++ post). split; [exact E|].
  rewrite !last_char_app in Hq.
  set (p := last_char None pre) in *.
  set (q := last_char (last_char p verb) mid) in *.
  cbn [seqs any_of alts map].
  apply (matches_at_seq_intro _ _ _ _ (p, verb ++ mid ++ noun ++ post)).
  { cbn [run]. unfold at_boundary. rewrite Hpre.
    destruct Hv as [<-|[<-|[]]]; left; reflexivity. }
  cbn [fst snd].
  apply (matches_at_seq_intro _ _ _ _ (last_char p verb, mid ++ noun ++ post)).
  { cbn [run]. destruct Hv as [<-|[<-|[]]].
    - apply in_or_app. left. apply (run_lit_intro "add").
    - apply in_or_app. right. apply in_or_app. right.
      apply (run_lit_intro "remind me"). }
  cbn [fst snd].
  apply (matches_at_seq_intro _ _ _ _ (last_char p verb, mid ++ noun ++ post)).
  { cbn [run]. unfold at_boundary. rewrite Hmid.
    destruct Hv as [<-|[<-|[]]]; left; reflexivity. }
  cbn [fst snd].
  apply (matches_at_seq_intro _ _ _ _ (q, noun ++ post)).
  { cbn [run]. apply run_many_prefix. exact Hdot. }
  cbn [fst snd].
  apply (matches_at_seq_intro _ _ _ _ (q, noun ++ post)).
  { cbn [run]. unfold at_boundary. rewrite Hq.
    destruct Hn as [<-|[<-|[]]]; left; reflexivity. }
  cbn [fst snd].
  apply (matches_at_seq_intro _ _ _ _ (last_char q noun, post)).
  { cbn [run]. destruct Hn as [<-|[<-|[]]].
    - apply in_or_app. left. apply (run_lit_intro "task").
    - apply in_or_app. right. apply in_or_app. right. apply in_or_app. right.
      apply (run_lit_intro "list"). }
  cbn [fst snd]. unfold matches_at. cbn [run]. unfold at_boundary.
  rewrite Hpost. destruct Hn as [<-|[<-|[]]]; reflexivity.
Qed.

(** C1, as amended: when the trimmed, lower-cased message begins with
    add, remind me to or todo:, or holds the whole word add or remind me
    followed later on the same line by the whole word task or list, and no
    conversation pattern matches it, [detect_mode] answers CREATE, whatever
    else the message contains. *)
Theorem leading_imperative_is_create (user_message : string) :
  leads_with_imperative (lower (strip user_message)) = true \/
  verb_then_noun (lower (strip user_message)) ->
  any_match chat_patterns (lower (strip user_message)) = false ->
  detect_mode user_message = CREATE.
Proof.
  intros Himp Hchat.
  assert (Hcreate : any_match create_patterns (lower (strip user_message)) = true).
  { destruct Himp as [Hlead|Hverb].
    - exact (leading_word_matches _ Hlead).
    - exact (verb_then_noun_matches _ Hverb). }
  assert (Hne : is_empty (lower (strip user_message)) = false).
  { destruct (lower (strip user_message)); [discriminate Hcreate|reflexivity]. }
  rewrite (detect_mode_nonblank _ Hne). cbv zeta.
  rewrite Hchat, Hcreate. reflexivity.
Qed.

Lemma leading_imperative_is_create_witness :
  detect_mode "  Add task: buy a list of snacks" = CREATE /\
  detect_mode "Please add milk to my list" = CREATE.
Proof.
  split.
  - apply (leading_imperative_is_create "  Add task: buy a list of snacks").
    + left. vm_compute. reflexivity.
    + vm_compute. reflexivity.
  - apply (leading_imperative_is_create "Please add milk to my list").
    + right. exists "please ", "add", " milk to my ", "list", EmptyString.
      vm_compute. intuition.
    + vm_compute. reflexivity.
Defined.

(** C1, as first stated, fails: a message that mentions add after a query
    for the task list is RETRIEVE, and one that begins with add but asks for
    help is CHAT. *)
Lemma imperative_inside_is_retrieve :
  mentions_imperative "show my tasks and add milk" = true /\
  contains "task" "show my tasks and add milk" = true /\
  detect_mode "show my tasks and add milk" = RETRIEVE /\
  mentions_imperative "add help me with my task list" = true /\
  detect_mode "add help me with my task list" = CHAT.
Proof. vm_compute. repeat split. Qed.

(** Wherever the words my task is stand, the look-ahead pattern does not
    match there. *)
Lemma my_task_is_never_a_query (p : option ascii) (rest : string) :
  matches_at my_task_pattern p ("my task is" ++ rest) = false.
Proof.
  unfold my_task_pattern. cbn [seqs]. rewrite matches_at_seq. cbn [run].
  destruct (at_boundary p ("my task is" ++ rest)); [|reflexivity].
  cbn [existsb fst snd]. rewrite orb_false_r, matches_at_seq. cbn [run].
  change ("my task is" ++ rest) with ("my task" ++ (" is" ++ rest)).
  rewrite run_lit_here. cbn [existsb fst snd]. rewrite orb_false_r.
  rewrite matches_at_seq. cbn [run].
  destruct (at_boundary (last_char p "my task") (" is" ++ rest));
    [|reflexivity].
  cbn [existsb fst snd]. rewrite orb_false_r.
  unfold matches_at. cbn [run].
  rewrite run_lit_here. reflexivity.
Qed.

(** C2: the statement My task is to finish the report is CREATE and the
    query my tasks is RETRIEVE; the possessive pattern matches the query, the
    look-ahead pattern and every other retrieval pattern reject the
    statement, which the look-ahead pattern would accept without its
    look-ahead. *)
Theorem my_task_boundary_case :
  detect_mode "My task is to finish the report" = CREATE /\
  detect_mode "my tasks" = RETRIEVE /\
  search possessive_pattern "my tasks" = true /\
  search my_task_pattern "my task is to finish the report" = false /\
  search (seqs [WordB; Lit "my task"; WordB])
         "my task is to finish the report" = true /\
  any_match chat_patterns "my task is to finish the report" = false /\
  any_match create_patterns "my task is to finish the report" = false /\
  any_match retrieve_patterns "my task is to finish the report" = false /\
  search my_task_pattern "my task" = true.
Proof. vm_compute. repeat split. Qed.

(** The patterns of the source, read as [re.search] reads them, are the
    patterns of the model. *)
Lemma pattern_texts_read :
  map compile chat_pattern_texts = map inr chat_patterns /\
  map compile create_pattern_texts = map inr create_patterns /\
  map compile retrieve_pattern_texts = map inr retrieve_patterns.
Proof. vm_compute. repeat split. Qed.

(** So are the patterns of [app/main.py]: those of [generate_chat_response],
    the pattern of the due date, and the pattern of the label in its three
    parts, before the group, the group and after it. *)
Lemma main_pattern_texts_read :
  map compile
      [ "^(hi|hello|hey|greetings)[\s!?.]*$";
        "^(good morning|good afternoon|good evening)[\s!?.]*$";
        "\b(what can you do|how do you work|help)\b";
        "\b(who are you|what are you)\b";
        "\b(due\s+)?today\b";
        "\b(?:labeled?|tagged?|with\s+label)\s+[" ++ dq ++ "\']?";
        "(\w+)";
        "[" ++ dq ++ "\']?" ] =
  map inr
      [ Chat.greeting_pattern; Chat.daytime_pattern; Chat.capability_pattern;
        Chat.identity_pattern; due_today_pattern;
        label_prefix; label_group; label_suffix ].
Proof. vm_compute. reflexivity. Qed.

Lemma any_search_read (texts : list string) : forall patterns text,
  map compile texts = map inr patterns ->
  any_search texts text = inr (any_match patterns text).
Proof.
  induction texts as [|t ts IH]; intros [|r rs] text H;
    try discriminate H; [reflexivity|].
  cbn [map] in H. inversion H as [[Ht Hts]].
  cbn [any_search]. unfold re_search. rewrite Ht.
  unfold any_match. cbn [existsb].
  destruct (search r text); [reflexivity|]. exact (IH rs text Hts).
Qed.

(** C3: [detect_mode] is total.  With every pattern read from its text at
    the call of [re.search] that uses it, the one operation of the body
    that can raise, the function raises on no message: each of its eighteen
    patterns can be read, and it returns the mode that mode detection
    assigns.  A message that is empty or only white space gets CHAT.  The
    body uses methods of the text and [re.search] and nothing else, so the
    function takes no service to call. *)
Theorem detect_mode_total (user_message : string) :
  detect_mode_raising user_message = inr (detect_mode user_message) /\
  (all_space user_message = true ->
   detect_mode_raising user_message = inr CHAT).
Proof.
  destruct pattern_texts_read as (Hchat & Hcreate & Hretrieve).
  assert (E : detect_mode_raising user_message =
              inr (detect_mode user_message)).
  { unfold detect_mode_raising, detect_mode.
    destruct (is_empty user_message || is_empty (strip user_message));
      [reflexivity|]. cbv zeta.
    rewrite (any_search_read _ _ _ Hchat).
    destruct (any_match chat_patterns (lower (strip user_message)));
      [reflexivity|].
    rewrite (any_search_read _ _ _ Hcreate).
    destruct (any_match create_patterns (lower (strip user_message)));
      [reflexivity|].
    rewrite (any_search_read _ _ _ Hretrieve).
    destruct (any_match retrieve_patterns (lower (strip user_message)));
      reflexivity. }
  split; [exact E|].
  intros H. rewrite E. f_equal.
  unfold detect_mode. rewrite (strip_all_space _ H).
  simpl. rewrite orb_true_r. reflexivity.
Qed.

Lemma detect_mode_total_witness :
  all_space (nl ++ " " ++ chr 160) = true /\
  detect_mode_raising (nl ++ " " ++ chr 160) = inr CHAT /\
  detect_mode_raising "Buy groceries tomorrow" = inr CREATE /\
  re_search "(add" "add milk" = inl (BadPattern "(add").
Proof.
  split; [reflexivity|]. split; [|split].
  - apply (proj2 (detect_mode_total (nl ++ " " ++ chr 160))). reflexivity.
  - exact (proj1 (detect_mode_total "Buy groceries tomorrow")).
  - reflexivity.
Defined.

(** Beyond ASCII the characters are classed as Python classes them: the
    no-break space (160) and the next-line character (133) are white space,
    the accented letters are word characters, so that no word begins
    between the letter 233 and add, and the capital letter 201 is
    lower-cased to 233. *)
Example beyond_ascii :
  detect_mode (chr 160) = CHAT /\
  detect_mode (chr 133 ++ " " ++ chr 160) = CHAT /\
  detect_mode (chr 160 ++ "show my tasks" ++ chr 160) = RETRIEVE /\
  detect_mode (chr 233 ++ "add my list") = RETRIEVE /\
  detect_mode (chr 215 ++ "add my list") = CREATE /\
  lower (chr 201 ++ "COLE") = chr 233 ++ "cole" /\
  Chat.chat_reply (chr 160) = Chat.Fallback /\
  label (handle_retrieve_mode_filter ("show tasks labeled Caf" ++ chr 201)) =
    Some ("caf" ++ chr 233).
Proof. vm_compute. repeat split. Qed.

(** ** Extraction *)

Section ExtractionFacts.

Variable lax_int : json -> option Z.
Variable exc_str : failure -> string.

Lemma validate_int_range lo hi f v z :
  validate_int lax_int lo hi f v = inr z -> (lo <= z <= hi)%Z.
Proof.
  unfold validate_int.
  destruct (read_int lax_int v) as [z0|]; [|discriminate].
  destruct (Z.leb lo z0 && Z.leb z0 hi)%bool eqn:E; [|discriminate].
  intros H. inversion H; subst. apply andb_true_iff in E. lia.
Qed.

Lemma validate_int_exact lo hi f v z :
  validate_int lax_int lo hi f v = inr z -> read_int lax_int v = Some z.
Proof.
  unfold validate_int.
  destruct (read_int lax_int v) as [z0|]; [|discriminate].
  destruct (Z.leb lo z0 && Z.leb z0 hi)%bool; [|discriminate].
  intros H. inversion H. reflexivity.
Qed.

Lemma validate_int_out_of_range f v :
  out_of_range lax_int v = true ->
  validate_int lax_int 1 4 f v = inl [InvalidValue f v].
Proof.
  unfold out_of_range, validate_int.
  destruct (read_int lax_int v) as [z|]; [|reflexivity]. intros H.
  destruct (Z.leb 1 z && Z.leb z 4)%bool eqn:E; [|reflexivity].
  apply andb_true_iff in E. apply orb_true_iff in H. lia.
Qed.

Lemma model_validate_ok obj task :
  model_validate lax_int obj = inr task ->
  exists d, obj = JObj d /\
    field "content" validate_str None d = inr (content task) /\
    field "priority" (validate_int lax_int 1 4) (Some 3%Z) d = inr (priority task).
Proof.
  destruct obj; simpl; try discriminate. intros H. exists fields.
  split; [reflexivity|].
  destruct (field "content" validate_str None fields) as [e1|c]; [discriminate|].
  destruct (field "description" validate_opt_str (Some (Some EmptyString)) fields)
    as [e2|ds]; [discriminate|].
  destruct (field "priority" (validate_int lax_int 1 4) (Some 3%Z) fields)
    as [e3|p]; [discriminate|].
  destruct (field "due_string" validate_opt_str (Some None) fields)
    as [e4|du]; [discriminate|].
  destruct (field "labels" validate_str_list (Some []) fields)
    as [e5|ls]; [discriminate|].
  destruct (field "project_id" validate_opt_str (Some None) fields)
    as [e6|pj]; [discriminate|].
  inversion H; subst. simpl. auto.
Qed.

Lemma validate_str_reports : reports string validate_str.
Proof. intros f v es. destruct v; simpl; intros H; inversion H; discriminate. Qed.

Lemma validate_opt_str_reports : reports (option string) validate_opt_str.
Proof. intros f v es. destruct v; simpl; intros H; inversion H; discriminate. Qed.

Lemma validate_str_list_reports : reports (list string) validate_str_list.
Proof.
  intros f v es. destruct v; simpl; try (intros H; inversion H; discriminate).
  destruct (all_strings items); intros H; inversion H; discriminate.
Qed.

Lemma validate_int_reports lo hi : reports Z (validate_int lax_int lo hi).
Proof.
  intros f v es. unfold validate_int.
  destruct (read_int lax_int v) as [z0|].
  - destruct (Z.leb lo z0 && Z.leb z0 hi)%bool; intros H; inversion H; discriminate.
  - intros H; inversion H; discriminate.
Qed.

Lemma field_reports A name check (default : option A) d es :
  reports A check -> field name check default d = inl es -> es <> [].
Proof.
  intros Hc. unfold field. destruct (lookup name d).
  - apply Hc.
  - destruct default; intros H; inversion H; discriminate.
Qed.

Lemma app_not_nil_l {A} (x y : list A) : x <> [] -> (x ++ y)%list <> [].
Proof. destruct x; [congruence|discriminate]. Qed.

Lemma app_not_nil_r {A} (x y : list A) : y <> [] -> (x ++ y)%list <> [].
Proof. destruct x; [auto|discriminate]. Qed.

Lemma model_validate_errors d es :
  model_validate lax_int (JObj d) = inl es ->
  es = (errors_of (field "content" validate_str None d) ++
        errors_of (field "description" validate_opt_str (Some (Some EmptyString)) d) ++
        errors_of (field "priority" (validate_int lax_int 1 4) (Some 3%Z) d) ++
        errors_of (field "due_string" validate_opt_str (Some None) d) ++
        errors_of (field "labels" validate_str_list (Some []) d) ++
        errors_of (field "project_id" validate_opt_str (Some None) d))%list /\
  es <> [].
Proof.
  simpl.
  pose proof (fun es => field_reports _ "content" _ None d es
                          validate_str_reports) as R1.
  pose proof (fun es => field_reports _ "description" _ (Some (Some EmptyString))
                          d es validate_opt_str_reports) as R2.
  pose proof (fun es => field_reports _ "priority" _ (Some 3%Z) d es
                          (validate_int_reports 1 4)) as R3.
  pose proof (fun es => field_reports _ "due_string" _ (Some None) d es
                          validate_opt_str_reports) as R4.
  pose proof (fun es => field_reports _ "labels" _ (Some []) d es
                          validate_str_list_reports) as R5.
  pose proof (fun es => field_reports _ "project_id" _ (Some None) d es
                          validate_opt_str_reports) as R6.
  destruct (field "content" validate_str None d) as [e1|c];
  destruct (field "description" validate_opt_str (Some (Some EmptyString)) d)
    as [e2|ds];
  destruct (field "priority" (validate_int lax_int 1 4) (Some 3%Z) d) as [e3|p];
  destruct (field "due_string" validate_opt_str (Some None) d) as [e4|du];
  destruct (field "labels" validate_str_list (Some []) d) as [e5|ls];
  destruct (field "project_id" validate_opt_str (Some None) d) as [e6|pj];
  intros H; inversion H; subst; clear H; (split; [reflexivity|]); simpl;
  first [apply app_not_nil_l | idtac];
  first [ apply (R1 _ eq_refl) | apply (R2 _ eq_refl) | apply (R3 _ eq_refl)
        | apply (R4 _ eq_refl) | apply (R5 _ eq_refl) | apply (R6 _ eq_refl) ].
Qed.

Lemma field_absent A name check (default : option A) d :
  absent name d = true ->
  field name check default d =
    match default with Some a => inr a | None => inl [FieldRequired name] end.
Proof.
  unfold absent, field. destruct (lookup name d); [discriminate|reflexivity].
Qed.

Lemma model_validate_fields obj task :
  model_validate lax_int obj = inr task ->
  exists d, obj = JObj d /\
    field "content" validate_str None d = inr (content task) /\
    field "description" validate_opt_str (Some (Some EmptyString)) d =
      inr (description task) /\
    field "priority" (validate_int lax_int 1 4) (Some 3%Z) d =
      inr (priority task) /\
    field "due_string" validate_opt_str (Some None) d = inr (due_string task) /\
    field "labels" validate_str_list (Some []) d = inr (labels task) /\
    field "project_id" validate_opt_str (Some None) d = inr (project_id task).
Proof.
  destruct obj; simpl; try discriminate. intros H. exists fields.
  split; [reflexivity|].
  destruct (field "content" validate_str None fields) as [e1|c]; [discriminate|].
  destruct (field "description" validate_opt_str (Some (Some EmptyString)) fields)
    as [e2|ds]; [discriminate|].
  destruct (field "priority" (validate_int lax_int 1 4) (Some 3%Z) fields)
    as [e3|p]; [discriminate|].
  destruct (field "due_string" validate_opt_str (Some None) fields)
    as [e4|du]; [discriminate|].
  destruct (field "labels" validate_str_list (Some []) fields)
    as [e5|ls]; [discriminate|].
  destruct (field "project_id" validate_opt_str (Some None) fields)
    as [e6|pj]; [discriminate|].
  inversion H; subst. simpl. repeat split.
Qed.

Lemma optional_text_checked name (default : option (option string)) d x :
  field name validate_opt_str default d = inr x ->
  optional_text (lookup name d) = true.
Proof.
  unfold field. destruct (lookup name d) as [v|]; [|reflexivity].
  destruct v; simpl; try discriminate; reflexivity.
Qed.

Lemma all_strings_checked items ss :
  all_strings items = Some ss -> forallb is_str items = true.
Proof.
  revert ss. induction items as [|v items IH]; intros ss; [reflexivity|].
  destruct v; simpl; try discriminate.
  destruct (all_strings items) as [ss'|]; [|discriminate].
  intros _. exact (IH ss' eq_refl).
Qed.

Lemma optional_texts_checked name (default : option (list string)) d x :
  field name validate_str_list default d = inr x ->
  optional_texts (lookup name d) = true.
Proof.
  unfold field. destruct (lookup name d) as [v|]; [|reflexivity].
  destruct v; simpl; try discriminate.
  destruct (all_strings items) as [ss|] eqn:A; [|discriminate].
  intros _. exact (all_strings_checked items ss A).
Qed.

Lemma content_checked d c :
  field "content" validate_str None d = inr c ->
  lookup "content" d = Some (JStr c).
Proof.
  unfold field. destruct (lookup "content" d) as [v|]; [|discriminate].
  destruct v; simpl; try discriminate. intros H. inversion H. reflexivity.
Qed.

(** A task is only read from a reply that is usable, and its content is
    the string the reply gives. *)
Lemma parser_parse_usable reply task :
  parser_parse lax_int reply = inr task ->
  unusable lax_int reply = false /\
  exists d,
    decoded reply = Some (JObj d) /\
    lookup "content" d = Some (JStr (content task)).
Proof.
  unfold parser_parse, unusable.
  destruct (decoded reply) as [obj|]; [|discriminate].
  destruct (model_validate lax_int obj) as [es|t] eqn:V; [discriminate|].
  intros H. inversion H; subst t. clear H.
  destruct (model_validate_fields obj task V)
    as (d & -> & Hc & Hds & Hp & Hdu & Hls & Hpj).
  pose proof (content_checked d _ Hc) as C.
  split; [|exists d; split; [reflexivity|exact C]].
  rewrite C, (optional_text_checked _ _ _ _ Hds),
    (optional_text_checked _ _ _ _ Hdu), (optional_text_checked _ _ _ _ Hpj),
    (optional_texts_checked _ _ _ _ Hls).
  cbn [no_string negb orb]. rewrite !orb_false_r.
  unfold field in Hp. destruct (lookup "priority" d) as [v|]; [|reflexivity].
  destruct (out_of_range lax_int v) eqn:O; [|reflexivity].
  rewrite (validate_int_out_of_range "priority" v O) in Hp. discriminate Hp.
Qed.

Lemma parser_parse_unusable reply :
  unusable lax_int reply = true ->
  exists e, parser_parse lax_int reply = inl e /\ pinpoints lax_int e reply.
Proof.
  intros U.
  destruct (parser_parse lax_int reply) as [e|task] eqn:P.
  2:{ destruct (parser_parse_usable reply task P) as [N _]. congruence. }
  exists e. split; [reflexivity|].
  revert P. unfold parser_parse.
  destruct (decoded reply) as [obj|] eqn:D.
  2:{ intros H. inversion H. simpl. auto. }
  destruct (model_validate lax_int obj) as [es|task] eqn:V; [|discriminate].
  intros H. inversion H; subst e. clear H. simpl.
  split; [exact D|].
  destruct obj as [| | | | |items|d];
    try (simpl in V; inversion V; subst; clear V;
         split; [discriminate|repeat split; intros; discriminate]).
  destruct (model_validate_errors d es V) as [Hes Hne].
  split; [exact Hne|]. split; [|split].
  - intros d' Hd Habs. inversion Hd; subst d'. rewrite Hes.
    rewrite (field_absent _ "content" validate_str None d Habs).
    simpl. left. reflexivity.
  - intros d' v Hd Hv Hs. inversion Hd; subst d'. rewrite Hes.
    unfold field at 1. rewrite Hv.
    destruct v; try discriminate Hs; simpl; left; reflexivity.
  - intros d' v Hd Hv Hout. inversion Hd; subst d'. rewrite Hes.
    apply in_or_app. right. apply in_or_app. right. apply in_or_app. left.
    unfold field at 1. rewrite Hv.
    rewrite (validate_int_out_of_range "priority" v Hout).
    simpl. left. reflexivity.
Qed.

(** C4: extraction fails closed.  When the reply of the service is not JSON,
    is not an object, has no [content] or one that is no string, carries a
    [priority] that does not stand for an integer of 1..4, or has another
    field of the wrong type, [parse_task] raises the [ValueError] whose
    message embeds the wording of the caught exception and whose cause is
    that exception, which tells what was wrong with the reply; the service
    has been called once, and what it would answer to any other call plays
    no part in the outcome.  No content is ever made up: whenever a task is
    returned, the reply was usable and the content of the task is the very
    string of the [content] field of the reply. *)
Theorem extraction_fails_closed (svc : service) (user_input : string)
        (calls : nat) (reply : completion) :
  svc calls user_input = Returned reply ->
  (unusable lax_int reply = true ->
   exists e,
     parse_task lax_int exc_str svc user_input calls =
       (inl {| message :=
                 "Failed to parse task from input: " ++ exc_str e ++ nl ++
                 "Please try rephrasing your request or provide more specific details.";
               cause := e |},
        S calls) /\
     pinpoints lax_int e reply /\
     (forall svc' : service,
         svc' calls user_input = svc calls user_input ->
         parse_task lax_int exc_str svc' user_input calls =
         parse_task lax_int exc_str svc user_input calls)) /\
  (forall task calls',
      parse_task lax_int exc_str svc user_input calls = (inr task, calls') ->
      unusable lax_int reply = false /\
      calls' = S calls /\
      exists d,
        decoded reply = Some (JObj d) /\
        lookup "content" d = Some (JStr (content task))).
Proof.
  intros Hsvc. split.
  - intros U.
    destruct (parser_parse_unusable reply U) as (e & He & Hp).
    exists e. split; [|split].
    + unfold parse_task. rewrite Hsvc, He. reflexivity.
    + exact Hp.
    + intros svc' Heq. unfold parse_task. rewrite Heq. reflexivity.
  - intros task calls'. unfold parse_task. rewrite Hsvc.
    destruct (parser_parse lax_int reply) as [e|t] eqn:P; [discriminate|].
    intros H. inversion H; subst t calls'. clear H.
    destruct (parser_parse_usable reply task P) as [N C].
    split; [exact N|]. split; [reflexivity|exact C].
Qed.

(** C5, as amended: a task returned by [parse_task] has a priority among
    1, 2, 3, 4 and has for content the very string of the [content] field of
    the reply, which may be the empty string; the priority is the integer
    the [priority] field of the reply stands for, and 3 when the field is
    absent. *)
Theorem extracted_record_is_checked (svc : service) (user_input : string)
        (calls calls' : nat) (task : TodoistTask) :
  parse_task lax_int exc_str svc user_input calls = (inr task, calls') ->
  (1 <= priority task <= 4)%Z /\
  exists reply d,
    svc calls user_input = Returned reply /\
    decoded reply = Some (JObj d) /\
    lookup "content" d = Some (JStr (content task)) /\
    (forall v, lookup "priority" d = Some v ->
               read_int lax_int v = Some (priority task)) /\
    (lookup "priority" d = None -> priority task = 3%Z).
Proof.
  unfold parse_task.
  destruct (svc calls user_input) as [what|reply] eqn:Hsvc; [discriminate|].
  unfold parser_parse.
  destruct (decoded reply) as [obj|] eqn:D; [|discriminate].
  destruct (model_validate lax_int obj) as [es|t] eqn:V; [discriminate|].
  intros H. inversion H; subst t calls'. clear H.
  destruct (model_validate_ok obj task V) as (d & -> & Hc & Hp).
  assert (Hrange : (1 <= priority task <= 4)%Z).
  { unfold field in Hp. destruct (lookup "priority" d) as [v|].
    - exact (validate_int_range 1 4 _ _ _ Hp).
    - inversion Hp. lia. }
  split; [exact Hrange|].
  exists reply, d. repeat split; try assumption; try reflexivity.
  - unfold field in Hc. destruct (lookup "content" d) as [v|]; [|discriminate].
    destruct v; simpl in Hc; try discriminate. inversion Hc. reflexivity.
  - intros v Hv. unfold field in Hp. rewrite Hv in Hp.
    exact (validate_int_exact 1 4 _ _ _ Hp).
  - intros Hz. unfold field in Hp. rewrite Hz in Hp. inversion Hp. reflexivity.
Qed.

(** C6: when the reply is an object with a string [content] and none of the
    optional fields, the task has that content, the empty description,
    priority 3, no due string, no labels and no project. *)
Theorem content_only_defaults (svc : service) (user_input : string)
        (calls : nat) (reply : completion) (d : dict) (title : string) :
  svc calls user_input = Returned reply ->
  decoded reply = Some (JObj d) ->
  lookup "content" d = Some (JStr title) ->
  only_content d = true ->
  parse_task lax_int exc_str svc user_input calls =
    (inr {| content := title; description := Some EmptyString;
            priority := 3%Z; due_string := None; labels := [];
            project_id := None |},
     S calls).
Proof.
  intros Hsvc D Hc Honly.
  unfold only_content in Honly.
  apply andb_true_iff in Honly. destruct Honly as [Honly Hpj].
  apply andb_true_iff in Honly. destruct Honly as [Honly Hls].
  apply andb_true_iff in Honly. destruct Honly as [Honly Hdu].
  apply andb_true_iff in Honly. destruct Honly as [Hds Hpr].
  unfold parse_task, parser_parse. rewrite Hsvc, D. unfold model_validate.
  rewrite (field_absent _ "description" _ _ d Hds).
  rewrite (field_absent _ "priority" _ _ d Hpr).
  rewrite (field_absent _ "due_string" _ _ d Hdu).
  rewrite (field_absent _ "labels" _ _ d Hls).
  rewrite (field_absent _ "project_id" _ _ d Hpj).
  unfold field. rewrite Hc. reflexivity.
Qed.

End ExtractionFacts.

Lemma extraction_fails_closed_witness :
  unusable no_lax ten_priority_reply = true /\
  unusable no_lax null_title_reply = true /\
  (exists e,
     parse_task no_lax describe (always ten_priority_reply) "Test task" 0 =
       (inl {| message :=
                 "Failed to parse task from input: " ++ describe e ++ nl ++
                 "Please try rephrasing your request or provide more specific details.";
               cause := e |}, 1) /\
     pinpoints no_lax e ten_priority_reply) /\
  (exists e,
     parse_task no_lax describe (always null_title_reply) "Something" 0 =
       (inl {| message :=
                 "Failed to parse task from input: " ++ describe e ++ nl ++
                 "Please try rephrasing your request or provide more specific details.";
               cause := e |}, 1) /\
     cause (value_error describe e) =
       ValidationFailed (JObj [("content", JNull)])
                        [InvalidValue "content" JNull]).
Proof.
  split; [reflexivity|]. split; [reflexivity|]. split.
  - destruct (proj1 (extraction_fails_closed no_lax describe
                       (always ten_priority_reply) "Test task" 0
                       ten_priority_reply eq_refl) eq_refl)
      as (e & H1 & H2 & _).
    exists e. split; assumption.
  - destruct (proj1 (extraction_fails_closed no_lax describe
                       (always null_title_reply) "Something" 0
                       null_title_reply eq_refl) eq_refl)
      as (e & H1 & _ & _).
    exists e. split; [exact H1|].
    vm_compute in H1. inversion H1. reflexivity.
Defined.

(** C5, as first stated, fails: a reply whose [content] is the empty string
    passes validation and yields a task with an empty content. *)
Lemma blank_title_is_accepted :
  unusable no_lax blank_title_reply = false /\
  parse_task no_lax describe (always blank_title_reply) "note" 0 =
    (inr {| content := EmptyString; description := Some EmptyString;
            priority := 3%Z; due_string := None; labels := [];
            project_id := None |}, 1).
Proof. split; reflexivity. Qed.

Lemma extracted_record_is_checked_witness :
  parse_task no_lax describe (always title_only_reply) "Buy milk" 0 =
    (inr title_only_task, 1) /\
  (1 <= priority title_only_task <= 4)%Z.
Proof.
  split; [reflexivity|].
  exact (proj1 (extracted_record_is_checked no_lax describe
                  (always title_only_reply) "Buy milk" 0 1 title_only_task
                  eq_refl)).
Defined.

Lemma content_only_defaults_witness :
  only_content [("content", JStr "Buy milk")] = true /\
  parse_task no_lax describe (always title_only_reply) "Buy milk" 0 =
    (inr {| content := "Buy milk"; description := Some EmptyString;
            priority := 3%Z; due_string := None; labels := [];
            project_id := None |}, 1).
Proof.
  split; [reflexivity|].
  exact (content_only_defaults no_lax describe (always title_only_reply)
           "Buy milk" 0 title_only_reply _ "Buy milk"
           eq_refl eq_refl eq_refl eq_refl).
Defined.

(** ** Rendering *)

Section RenderingFacts.

Variable py_repr : json -> string.

Lemma due_parts_shaped task :
  api_shaped task = true -> exists ps, due_parts py_repr task = inr ps.
Proof.
  unfold api_shaped, due_parts. intros H. apply andb_true_iff in H.
  destruct H as [H _].
  destruct (lookup "due" task) as [due|]; [|eexists; reflexivity].
  destruct due as [| | | | | |d]; try discriminate; try (eexists; reflexivity).
  destruct (truthy (JObj d)); [|eexists; reflexivity].
  apply andb_true_iff in H. destruct H as [H1 H2]. simpl.
  destruct (lookup "date" d) as [[| | | |s| |]|]; try discriminate;
    destruct (lookup "datetime" d) as [[| | | |s'| |]|]; try discriminate;
    simpl; split_ifs.
Qed.

Lemma label_parts_shaped task :
  api_shaped task = true -> exists ps, label_parts py_repr task = inr ps.
Proof.
  unfold api_shaped, label_parts. intros H. apply andb_true_iff in H.
  destruct H as [_ H].
  destruct (lookup "labels" task) as [[| | | | |items|]|]; try discriminate;
    simpl; try (eexists; reflexivity).
  destruct items; simpl; eexists; reflexivity.
Qed.

Lemma format_task_line_shaped task :
  api_shaped task = true -> exists line, format_task_line py_repr task = inr line.
Proof.
  intros H. unfold format_task_line, line_parts.
  destruct (due_parts_shaped task H) as [ps1 ->].
  destruct (label_parts_shaped task H) as [ps2 ->].
  simpl. eexists; reflexivity.
Qed.

Lemma format_task_line_untitled task line :
  absent "content" task = true ->
  format_task_line py_repr task = inr line ->
  prefix "- **Untitled task**" line = true.
Proof.
  unfold absent, format_task_line, line_parts.
  destruct (lookup "content" task); [discriminate|]. intros _.
  destruct (due_parts py_repr task) as [e|ps1]; [discriminate|].
  destruct (label_parts py_repr task) as [e|ps2]; [discriminate|].
  unfold bind. intros H.
  apply (f_equal (fun r => match r with inr x => x | inl _ => line end)) in H.
  cbv beta iota in H. rewrite <- H. clear H.
  change ("**" ++ py_str py_repr (JStr "Untitled task") ++ "**")
    with "**Untitled task**".
  destruct (join_cons " · " "**Untitled task**" (ps1 ++ ps2)%list) as [tail ->].
  change ("- " ++ ("**Untitled task**" ++ tail) ++ link_segment py_repr task)
    with ("- **Untitled task**" ++ (tail ++ link_segment py_repr task)).
  apply prefix_append.
Qed.

Lemma map_result_shaped tasks :
  forallb api_shaped tasks = true ->
  exists lines,
    map_result (format_task_line py_repr) tasks = inr lines /\
    Forall2 (fun task line => format_task_line py_repr task = inr line)
            tasks lines.
Proof.
  induction tasks as [|t ts IH]; simpl; intros H.
  - exists []. split; [reflexivity|constructor].
  - apply andb_true_iff in H. destruct H as [Ht Hts].
    destruct (format_task_line_shaped t Ht) as [l Hl].
    destruct (IH Hts) as (ls & Hls & Hall).
    exists (l :: ls). rewrite Hl. simpl. rewrite Hls. simpl.
    split; [reflexivity|constructor; assumption].
Qed.

(** Whether a line can be rendered does not depend on the title: a failure
    comes from a [due] or [labels] field of a type the operations on it do
    not accept. *)
Lemma content_never_decides_failure (task : dict) (title : json) :
  is_ok (format_task_line py_repr (("content", title) :: task)) =
  is_ok (format_task_line py_repr task).
Proof.
  unfold format_task_line, line_parts.
  change (due_parts py_repr (("content", title) :: task))
    with (due_parts py_repr task).
  change (label_parts py_repr (("content", title) :: task))
    with (label_parts py_repr task).
  destruct (due_parts py_repr task); [reflexivity|].
  destruct (label_parts py_repr task); reflexivity.
Qed.

Lemma map_result_is_ok_titled (title : json) (tasks : list dict) :
  is_ok (map_result (format_task_line py_repr)
                    (map (fun t => ("content", title) :: t) tasks)) =
  is_ok (map_result (format_task_line py_repr) tasks).
Proof.
  induction tasks as [|t ts IH]; [reflexivity|]. cbn [map map_result].
  pose proof (content_never_decides_failure t title) as Ht.
  destruct (format_task_line py_repr (("content", title) :: t));
    destruct (format_task_line py_repr t); try discriminate Ht;
    cbn [bind]; [reflexivity|].
  destruct (map_result (format_task_line py_repr)
              (map (fun t0 => ("content", title) :: t0) ts));
    destruct (map_result (format_task_line py_repr) ts);
    try discriminate IH; reflexivity.
Qed.

(** C10, as amended: a task dictionary without [content] does not make the
    rendering fail.  Whether [format_task_list] fails is the same when every task is
    given a title, so a failure never comes from a missing [content]; and
    for tasks shaped as the API gives them, the listing is returned, made
    of one line per task, and the line of every task that lacks [content]
    begins with the bold placeholder Untitled task. *)
Theorem missing_content_is_untitled (tasks : list dict)
        (filter_description : option string) :
  (forall title,
      is_ok (format_task_list py_repr
               (map (fun t => ("content", title) :: t) tasks)
               filter_description) =
      is_ok (format_task_list py_repr tasks filter_description)) /\
  (forallb api_shaped tasks = true ->
   exists lines,
     format_task_list py_repr tasks filter_description =
       inr (match tasks with
            | [] => empty_state filter_description
            | _ :: _ => header (List.length tasks) filter_description ++
                        join nl lines
            end) /\
     Forall2 (fun task line =>
                format_task_line py_repr task = inr line /\
                (absent "content" task = true ->
                 prefix "- **Untitled task**" line = true))
             tasks lines).
Proof.
  split.
  - intros title. unfold format_task_list.
    pose proof (map_result_is_ok_titled title tasks) as Hm.
    destruct tasks as [|t ts]; [reflexivity|].
    cbn [map] in *.
    destruct (map_result (format_task_line py_repr)
                ((("content", title) :: t)
                 :: map (fun t0 => ("content", title) :: t0) ts));
      destruct (map_result (format_task_line py_repr) (t :: ts));
      try discriminate Hm; reflexivity.
  - intros H. destruct (map_result_shaped tasks H) as (lines & Hm & Hall).
    exists lines. split.
    + unfold format_task_list. destruct tasks; [reflexivity|].
      rewrite Hm. reflexivity.
    + clear Hm H. induction Hall as [|t l ts ls Hl _ IH]; constructor.
      * split; [exact Hl|]. intros Ha.
        exact (format_task_line_untitled t l Ha Hl).
      * exact IH.
Qed.

Lemma header_spelled n fd :
  header n fd =
  "### " ++ heading fd ++ " " ++ count_phrase n ++ nl ++ nl.
Proof.
  unfold header, heading, count_phrase, given, described.
  destruct fd as [[|c d]|]; destruct (Nat.eqb n 1); cbv iota;
    rewrite ?append_assoc; reflexivity.
Qed.

(** C7: with no task and the filter description due today, the
    empty-state message is returned and contains No tasks found due today;
    with N tasks, N at least 1, whatever is returned begins with the header
    that carries the count N followed by item when N is 1 and by items
    otherwise, and a listing is returned for tasks shaped as the API gives
    them. *)
Theorem task_list_rendering :
  (exists msg,
      format_task_list py_repr [] (Some "due today") = inr msg /\
      contains "No tasks found due today" msg = true) /\
  (forall (tasks : list dict) (filter_description : option string),
      tasks <> [] ->
      (forall out,
          format_task_list py_repr tasks filter_description = inr out ->
          exists body,
            out = "### " ++ heading filter_description ++ " " ++
                  count_phrase (List.length tasks) ++ nl ++ nl ++ body) /\
      (forallb api_shaped tasks = true ->
       exists out, format_task_list py_repr tasks filter_description = inr out)).
Proof.
  split.
  - eexists. split; [reflexivity|]. vm_compute. reflexivity.
  - intros tasks fd Hne. split.
    + intros out. unfold format_task_list.
      destruct tasks as [|t ts]; [congruence|].
      destruct (map_result (format_task_line py_repr) (t :: ts)) as [e|ls];
        [discriminate|].
      unfold bind. intros H. exists (join nl ls).
      apply (f_equal (fun r => match r with inr x => x | inl _ => out end)) in H.
      cbv beta iota in H. rewrite <- H, header_spelled.
      rewrite !append_assoc. reflexivity.
    + intros Hs. destruct (map_result_shaped tasks Hs) as (ls & Hm & _).
      unfold format_task_list. destruct tasks as [|t ts]; [congruence|].
      rewrite Hm. eexists. reflexivity.
Qed.

(** C8: the link of a rendered line.  A task shaped as the API gives it is
    rendered as a line, and every line that is rendered is the dash, the
    parts joined by the middle dot and the link segment: for a task with a
    non-empty string [url] the line ends with the link to that very text;
    without a usable [url], for a truthy [id] it ends with the link to
    https://app.todoist.com/app/task/ followed by the id; with neither, the
    line is the joined parts and nothing more. *)
Theorem link_rendering (task : dict) :
  (api_shaped task = true ->
   exists line, format_task_line py_repr task = inr line) /\
  (forall line,
      format_task_line py_repr task = inr line ->
      exists parts,
        line_parts py_repr task = inr parts /\
        line = "- " ++ join " · " parts ++ link_segment py_repr task /\
        (forall u,
            lookup "url" task = Some (JStr u) -> u <> EmptyString ->
            line = "- " ++ join " · " parts ++
                   " · [View in Todoist](" ++ u ++ ")") /\
        (forall i,
            usable (lookup "url" task) = false ->
            lookup "id" task = Some i -> truthy i = true ->
            line = "- " ++ join " · " parts ++
                   " · [View in Todoist](https://app.todoist.com/app/task/" ++
                   py_str py_repr i ++ ")") /\
        (usable (lookup "url" task) = false ->
         usable (lookup "id" task) = false ->
         line = "- " ++ join " · " parts)) /\
  (forall u,
      lookup "url" task = Some (JStr u) -> u <> EmptyString ->
      build_task_url py_repr (Some task) = Some u /\
      link_segment py_repr task = " · [View in Todoist](" ++ u ++ ")") /\
  (forall i,
      usable (lookup "url" task) = false ->
      lookup "id" task = Some i -> truthy i = true ->
      build_task_url py_repr (Some task) =
        Some ("https://app.todoist.com/app/task/" ++ py_str py_repr i) /\
      link_segment py_repr task =
        " · [View in Todoist](https://app.todoist.com/app/task/" ++
        py_str py_repr i ++ ")") /\
  (usable (lookup "url" task) = false ->
   usable (lookup "id" task) = false ->
   build_task_url py_repr (Some task) = None /\
   link_segment py_repr task = EmptyString).
Proof.
  assert (Hurl : forall u,
             lookup "url" task = Some (JStr u) -> u <> EmptyString ->
             build_task_url py_repr (Some task) = Some u /\
             link_segment py_repr task = " · [View in Todoist](" ++ u ++ ")").
  { intros u Hu Hne.
    assert (B : build_task_url py_repr (Some task) = Some u).
    { unfold build_task_url. rewrite Hu. simpl.
      destruct u; [congruence|reflexivity]. }
    split; [exact B|]. unfold link_segment. rewrite B.
    destruct u; [congruence|reflexivity]. }
  assert (Hid : forall i,
             usable (lookup "url" task) = false ->
             lookup "id" task = Some i -> truthy i = true ->
             build_task_url py_repr (Some task) =
               Some ("https://app.todoist.com/app/task/" ++ py_str py_repr i) /\
             link_segment py_repr task =
               " · [View in Todoist](https://app.todoist.com/app/task/" ++
               py_str py_repr i ++ ")").
  { intros i Hu Hi Ht.
    assert (B : build_task_url py_repr (Some task) =
                Some (link_template ++ py_str py_repr i)).
    { unfold build_task_url. unfold usable in Hu.
      destruct (lookup "url" task) as [u|]; [rewrite Hu|];
        rewrite Hi, Ht; reflexivity. }
    split; [exact B|]. unfold link_segment. rewrite B. reflexivity. }
  assert (Hnone : usable (lookup "url" task) = false ->
                  usable (lookup "id" task) = false ->
                  build_task_url py_repr (Some task) = None /\
                  link_segment py_repr task = EmptyString).
  { intros Hu Hi.
    assert (B : build_task_url py_repr (Some task) = None).
    { unfold build_task_url. unfold usable in Hu, Hi.
      destruct (lookup "url" task) as [u|]; [rewrite Hu|];
        (destruct (lookup "id" task) as [i|]; [rewrite Hi|]); reflexivity. }
    split; [exact B|]. unfold link_segment. rewrite B. reflexivity. }
  split; [exact (format_task_line_shaped task)|].
  split; [|split; [exact Hurl|split; [exact Hid|exact Hnone]]].
  intros line. unfold format_task_line.
  destruct (line_parts py_repr task) as [e|parts]; [discriminate|].
  unfold bind. intros H. exists parts. split; [reflexivity|].
  assert (L : line = "- " ++ join " · " parts ++ link_segment py_repr task)
    by congruence.
  split; [exact L|]. split; [|split].
  - intros u Hu Hne. rewrite L, (proj2 (Hurl u Hu Hne)). reflexivity.
  - intros i Hu Hi Ht. rewrite L, (proj2 (Hid i Hu Hi Ht)). reflexivity.
  - intros Hu Hi. rewrite L, (proj2 (Hnone Hu Hi)), append_nil_r. reflexivity.
Qed.

End RenderingFacts.

Lemma missing_content_is_untitled_witness :
  forallb api_shaped [untitled_task; sample_task] = true /\
  exists lines,
    format_task_list repr_scalar [untitled_task; sample_task] None =
      inr (header 2 None ++ join nl lines) /\
    Forall2 (fun task line =>
               format_task_line repr_scalar task = inr line /\
               (absent "content" task = true ->
                prefix "- **Untitled task**" line = true))
            [untitled_task; sample_task] lines.
Proof.
  split; [reflexivity|].
  exact (proj2 (missing_content_is_untitled repr_scalar
                  [untitled_task; sample_task] None) eq_refl).
Defined.

(** C10, as first stated, fails: a task that lacks [content] and whose
    [due] is a text, not the object the API gives, makes the rendering
    fail, alone or beside a task that can be rendered. *)
Lemma untitled_task_with_text_due_fails :
  absent "content" [("id", JStr "9"); ("due", JStr "tomorrow")] = true /\
  api_shaped [("id", JStr "9"); ("due", JStr "tomorrow")] = false /\
  format_task_list repr_scalar
    [[("id", JStr "9"); ("due", JStr "tomorrow")]] None =
    inl AttributeError /\
  format_task_list repr_scalar
    [sample_task; [("id", JStr "9"); ("due", JStr "tomorrow")]] None =
    inl AttributeError.
Proof. vm_compute. repeat split. Qed.

Lemma task_list_rendering_witness :
  exists body,
    format_task_list repr_scalar [sample_task] (Some "labeled 'work'") =
      inr ("### Tasks labeled 'work' (1 item)" ++ nl ++ nl ++ body).
Proof.
  destruct (task_list_rendering repr_scalar) as [_ H].
  destruct (H [sample_task] (Some "labeled 'work'")) as [H1 H2];
    [discriminate|].
  destruct (H2 eq_refl) as [out Hout].
  destruct (H1 out Hout) as [body Hb].
  exists body. rewrite Hout, Hb. reflexivity.
Defined.

Lemma link_rendering_witness :
  format_task_line repr_scalar linked_task =
    inr ("- **Test task** · " ++
         "[View in Todoist](https://app.todoist.com/app/task/custom-url-format)") /\
  format_task_line repr_scalar untitled_task =
    inr ("- **Untitled task** · " ++
         "[View in Todoist](https://app.todoist.com/app/task/7)") /\
  format_task_line repr_scalar [("content", JStr "Task without id")] =
    inr "- **Task without id**".
Proof.
  assert (R : forall task,
             api_shaped task = true ->
             exists line parts,
               format_task_line repr_scalar task = inr line /\
               line_parts repr_scalar task = inr parts /\
               line = "- " ++ join " · " parts ++ link_segment repr_scalar task).
  { intros task A.
    destruct (link_rendering repr_scalar task) as (E & L & _).
    destruct (E A) as (line & Hl).
    destruct (L line Hl) as (parts & Hp & Hline & _).
    exists line, parts. auto. }
  split; [|split].
  - destruct (R linked_task eq_refl) as (line & parts & Hl & Hp & ->).
    rewrite Hl. vm_compute in Hp. inversion Hp. reflexivity.
  - destruct (R untitled_task eq_refl) as (line & parts & Hl & Hp & ->).
    rewrite Hl. vm_compute in Hp. inversion Hp. reflexivity.
  - destruct (R [("content", JStr "Task without id")] eq_refl)
      as (line & parts & Hl & Hp & ->).
    rewrite Hl. vm_compute in Hp. inversion Hp. reflexivity.
Defined.

(** ** Retrieval filter *)

Lemma today_word_iff p s :
  matches_at today_word p s = true <->
  exists post, s = "today" ++ post /\ word_after post = false.
Proof.
  unfold today_word. rewrite matches_at_seq. split.
  - intros H. apply existsb_exists in H. destruct H as (c & Hin & Hm).
    cbn [run] in Hin. destruct (run_lit_spec _ _ _ _ Hin) as (t & -> & ->).
    exists t. split; [reflexivity|].
    unfold matches_at in Hm. cbn [run fst snd last_char] in Hm.
    unfold at_boundary in Hm. cbn [word_before] in Hm.
    destruct (word_after t); [discriminate|reflexivity].
  - intros (post & -> & Hw). cbn [run]. rewrite run_lit_here.
    cbn [existsb fst snd last_char].
    unfold matches_at. cbn [run]. unfold at_boundary. cbn [word_before].
    rewrite Hw. reflexivity.
Qed.

Lemma due_today_pattern_at p s :
  matches_at due_today_pattern p s =
  at_boundary p s &&
  (existsb (fun c => matches_at today_word (fst c) (snd c))
           (run (Seq (Lit "due") (Many1 CSpace)) p s)
   || matches_at today_word p s).
Proof.
  unfold due_today_pattern. cbn [seqs]. rewrite matches_at_seq.
  cbn [run]. destruct (at_boundary p s); [|reflexivity].
  cbn [existsb fst snd]. rewrite orb_false_r, andb_true_l.
  rewrite matches_at_seq. cbn [run]. rewrite existsb_app. cbn [existsb fst snd].
  rewrite orb_false_r. reflexivity.
Qed.

(** The due-today rule: the filter is set exactly when today stands in the
    lower-cased message as a whole word. *)
Lemma due_today_rule (user_message : string) :
  due_date (handle_retrieve_mode_filter user_message) = Some "today" <->
  whole_word_in "today" (lower user_message).
Proof.
  unfold handle_retrieve_mode_filter. cbn [due_date].
  assert (S : search due_today_pattern (lower user_message) = true <->
              whole_word_in "today" (lower user_message)).
  2:{ destruct (search due_today_pattern (lower user_message)).
      - split; [intros _; apply S; reflexivity|reflexivity].
      - split; [discriminate|]. intros H. apply S in H. discriminate. }
  unfold search. rewrite search_from_iff. unfold whole_word_in. split.
  - intros (pre & post & E & H). rewrite due_today_pattern_at in H.
    apply andb_true_iff in H. destruct H as [Hb H].
    apply orb_true_iff in H. destruct H as [H|H].
    + apply existsb_exists in H. destruct H as (c & Hin & Hm).
      destruct (run_consumes _ _ _ _ Hin) as (mid & E1 & L1).
      cbn [run] in Hin. apply in_flat_map in Hin.
      destruct Hin as (c1 & _ & Hin).
      destruct (run_many1_spec CSpace (snd c1) (fst c1) c Hin)
        as (_ & _ & _ & x & Hx & Kx).
      apply today_word_iff in Hm. destruct Hm as (post' & E2 & Hw).
      exists (pre ++ mid), post'. split; [|split].
      * rewrite E, E1, E2, append_assoc. reflexivity.
      * rewrite last_char_app, <- L1, Hx. simpl.
        apply space_is_not_word. exact Kx.
      * exact Hw.
    + apply today_word_iff in H. destruct H as (post' & -> & Hw).
      exists pre, post'. split; [exact E|split; [|exact Hw]].
      unfold at_boundary in Hb. simpl in Hb.
      destruct (word_before (last_char None pre)); [discriminate|reflexivity].
  - intros (pre & post & E & Hp & Hw).
    exists pre, ("today" ++ post). split; [exact E|].
    rewrite due_today_pattern_at. apply andb_true_iff. split.
    + unfold at_boundary. rewrite Hp. reflexivity.
    + apply orb_true_iff. right. apply today_word_iff. exists post. auto.
Qed.

Lemma due_today_unset (user_message : string) :
  due_date (handle_retrieve_mode_filter user_message) = None <->
  ~ whole_word_in "today" (lower user_message).
Proof.
  rewrite <- due_today_rule. unfold handle_retrieve_mode_filter. cbn [due_date].
  destruct (search due_today_pattern (lower user_message)); split;
    congruence.
Qed.

(** The group is found exactly where the whole pattern matches. *)
Lemma group_at_is_some pre grp suf p s :
  is_some (group_at pre grp suf p s) =
  matches_at (Seq pre (Seq grp suf)) p s.
Proof.
  rewrite matches_at_seq. unfold group_at.
  induction (run pre p s) as [|c1 cs IH]; [reflexivity|].
  cbn [existsb]. rewrite matches_at_seq, <- IH.
  destruct (find (fun c2 => matches_at suf (fst c2) (snd c2))
                 (run grp (fst c1) (snd c1))) as [c2|] eqn:F.
  - apply find_some in F. destruct F as [Hin Hm].
    assert (E : existsb (fun c => matches_at suf (fst c) (snd c))
                        (run grp (fst c1) (snd c1)) = true).
    { apply existsb_exists. exists c2. auto. }
    rewrite E. reflexivity.
  - assert (E : existsb (fun c => matches_at suf (fst c) (snd c))
                        (run grp (fst c1) (snd c1)) = false).
    { apply not_true_is_false. intros H. apply existsb_exists in H.
      destruct H as (c & Hin & Hm).
      pose proof (find_none _ _ F c Hin) as N. cbv beta in N. congruence. }
    rewrite E. reflexivity.
Qed.

Lemma group_from_is_some pre grp suf : forall s p,
  is_some (group_from pre grp suf p s) =
  search_from (Seq pre (Seq grp suf)) p s.
Proof.
  induction s as [|x s IH]; intros p; cbn [group_from search_from];
    rewrite <- group_at_is_some.
  - destruct (group_at pre grp suf p EmptyString); reflexivity.
  - destruct (group_at pre grp suf p (String x s)); [reflexivity|].
    cbn [is_some orb]. apply IH.
Qed.

(** The label filter is set exactly when the label pattern matches
    somewhere in the lower-cased message. *)
Lemma label_set_iff_pattern (user_message : string) :
  is_some (label (handle_retrieve_mode_filter user_message)) =
  search label_pattern (lower user_message).
Proof. apply group_from_is_some. Qed.

(** The key phrases are among the ways the first part of the label pattern
    can be read. *)
Lemma keyword_is_read kw p t :
  label_keyword kw ->
  In (last_char p kw, t)
     (run (alts (Seq (Lit "labele") (Opt (Lit "d")))
                [Seq (Lit "tagge") (Opt (Lit "d"));
                 seqs [Lit "with"; Many1 CSpace; Lit "label"]])
          p (kw ++ t)).
Proof.
  intros [ -> | [ -> | -> ] ]; cbn [alts seqs]; cbn [run].
  - apply in_or_app. left.
    apply (run_seq_intro (Lit "labele") (Opt (Lit "d")) p ("labeled" ++ t)
             (last_char p "labele", "d" ++ t)).
    + apply (run_lit_intro "labele" p ("d" ++ t)).
    + apply run_opt_take. apply (run_lit_intro "d" _ t).
  - apply in_or_app. right. apply in_or_app. left.
    apply (run_seq_intro (Lit "tagge") (Opt (Lit "d")) p ("tagged" ++ t)
             (last_char p "tagge", "d" ++ t)).
    + apply (run_lit_intro "tagge" p ("d" ++ t)).
    + apply run_opt_take. apply (run_lit_intro "d" _ t).
  - apply in_or_app. right. apply in_or_app. right.
    apply (run_seq_intro (Lit "with") (Seq (Many1 CSpace) (Lit "label")) p
             ("with label" ++ t) (last_char p "with", " label" ++ t)).
    + apply (run_lit_intro "with" p (" label" ++ t)).
    + apply (run_seq_intro (Many1 CSpace) (Lit "label") _ _
               (Some " "%char, "label" ++ t)).
      * apply run_many1_one. reflexivity.
      * apply (run_lit_intro "label" _ t).
Qed.

(** The label rule, as far as the design document describes it: when one of
    the key phrases stands in the lower-cased message with no word
    character before it, followed by a blank and a word, quoted or bare, the
    label filter is set. *)
Lemma label_is_set_after_keyword (user_message : string)
      (pre kw q : string) (c : ascii) (rest : string) :
  lower user_message = pre ++ kw ++ " " ++ q ++ String c rest ->
  label_keyword kw -> opening_quote q ->
  word_before (last_char None pre) = false ->
  is_word c = true ->
  is_some (label (handle_retrieve_mode_filter user_message)) = true.
Proof.
  intros E Hkw Hq Hpre Hc.
  rewrite label_set_iff_pattern. unfold search.
  apply search_from_iff. exists pre, (kw ++ " " ++ q ++ String c rest).
  split; [exact E|].
  set (p := last_char None pre) in *.
  set (t := " " ++ q ++ String c rest).
  assert (Hkw1 : exists k kw', kw = String k kw' /\ is_word k = true).
  { destruct Hkw as [ -> | [ -> | -> ] ]; eexists; eexists; split;
      reflexivity. }
  destruct Hkw1 as (k & kw' & Ek & Hk).
  unfold label_pattern.
  apply (matches_at_seq_intro _ _ _ _ (last_char (Some " "%char) q, String c rest)).
  - unfold label_prefix. cbn [seqs].
    apply (run_seq_intro WordB _ _ _ (p, kw ++ t)).
    { cbn [run]. unfold at_boundary. rewrite Hpre, Ek. cbn [append word_after].
      rewrite Hk. left. reflexivity. }
    cbn [fst snd].
    apply (run_seq_intro _ _ _ _ (last_char p kw, t)).
    { apply keyword_is_read. exact Hkw. }
    cbn [fst snd].
    apply (run_seq_intro (Many1 CSpace) _ _ _ (Some " "%char, q ++ String c rest)).
    { apply run_many1_one. reflexivity. }
    cbn [fst snd].
    destruct Hq as [ -> | [ -> | -> ] ].
    + apply run_opt_skip.
    + apply run_opt_take. cbn. left. reflexivity.
    + apply run_opt_take. cbn. left. reflexivity.
  - cbn [fst snd]. unfold label_group, label_suffix.
    rewrite matches_at_seq. cbn [run in_cset]. rewrite Hc.
    destruct (run_many CWord (Some c) rest) as [|c2 cs] eqn:R.
    { exfalso. exact (run_many_nonempty _ _ _ R). }
    cbn [existsb]. apply orb_true_iff. left.
    unfold matches_at. cbn [run]. rewrite nonempty_app.
    apply orb_true_r.
Qed.

(** C9: the retrieval filter on the message show tasks labele work.  The
    design document has the label set exactly when a word follows labeled,
    tagged or with label; the pattern of the source makes only the last
    letter of labeled and of tagged optional, so this message, which
    [detect_mode] routes to retrieval and which holds none of the three key
    phrases, gets the label work, and tagge does the same; on a message that
    holds both a key phrase and today the two rules fire together. *)
Theorem label_rule_accepts_labele :
  detect_mode "show tasks labele work" = RETRIEVE /\
  contains "labeled" (lower "show tasks labele work") = false /\
  contains "tagged" (lower "show tasks labele work") = false /\
  contains "with label" (lower "show tasks labele work") = false /\
  handle_retrieve_mode_filter "show tasks labele work" =
    {| due_date := None; label := Some "work";
       filter_desc := Some "labeled 'work'" |} /\
  label (handle_retrieve_mode_filter "list tasks tagge home") = Some "home" /\
  handle_retrieve_mode_filter "Show tasks labeled 'Work' due today" =
    {| due_date := Some "today"; label := Some "work";
       filter_desc := Some "labeled 'work'" |}.
Proof. vm_compute. repeat split. Qed.

(** ** The cases of the repository's test suite, replayed on the model *)

Example test_detect_chat :
  map detect_mode
      ["hello"; "hi"; "hey"; "Hi!"; "HELLO"; "good morning"; "Good afternoon!";
       "good evening"; "what can you do?"; "how do you work"; "help me";
       "show me how to use this"; "who are you?"; "what are you";
       "  hello  "; "hello!!!"; EmptyString; "   "]
  = repeat CHAT 18.
Proof. vm_compute. reflexivity. Qed.

Example test_detect_retrieve :
  map detect_mode
      ["what tasks do I have?"; "what are my tasks";
       "What tasks are on my list?"; "show my tasks"; "list all tasks";
       "display tasks"; "my tasks"; "what tasks are due today?";
       "show me tasks due tomorrow"; "what's overdue"; "tasks due today";
       "show tasks labeled work"; "tasks with label personal";
       "find tasks tagged urgent"; "tasks what do I have"; "tasks show me";
       "WHAT TASKS DO I HAVE"; "   what tasks   "; "what tasks???";
       "Show me what's on my todo list."; "whats on my todo";
       "show my to-do list"; "check my to-do"; "view my todo"; "see my list";
       "what's on my list?"; "check tasks"; "what's my todo"; "check todo";
       "Do I have any tasks?"; "Do I have tasks due today?";
       "What do I have on my list?"]
  = repeat RETRIEVE 32.
Proof. vm_compute. reflexivity. Qed.

Example test_detect_create :
  map detect_mode
      ["buy groceries tomorrow"; "Schedule dentist appointment next week";
       "Call mom at 3pm"; "Finish the project report by Friday";
       "Remind me to pay bills"; "Add buy milk to my list";
       "Create task: review code"; "random text"; "meeting"; "urgent";
       "create task for project review"; "add task: buy snacks";
       "new task needed"; "BUY GROCERIES"; "  buy milk  "; "buy groceries.";
       "Add task to review document"; "Task: call the client";
       "My task is to finish the report"; "Create a task for meeting prep"]
  = repeat CREATE 20.
Proof. vm_compute. reflexivity. Qed.

Example test_priority_validation :
  map (fun p => is_ok_task
                  (model_validate no_lax
                     (JObj [("content", JStr "Test"); ("priority", JInt p)])))
      [0; 1; 2; 3; 4; 5]%Z
  = [false; true; true; true; true; false].
Proof. vm_compute. reflexivity. Qed.

Example test_parse_task_invalid_json :
  exists e,
    fst (parse_task no_lax describe
           (always {| text := "This is not valid JSON"; decoded := None |})
           "Test task" 0) = inl e /\
    prefix "Failed to parse task" (message e) = true /\
    cause e = InvalidJson "This is not valid JSON".
Proof. eexists. vm_compute. repeat split. Qed.

Example test_format_task_with_full_fields_and_link :
  format_task_list repr_scalar
    [[("id", JStr "12345"); ("content", JStr "Complete task");
      ("due", JObj [("date", JStr "2024-01-15")]);
      ("labels", JArr [JStr "work"])]] None
  = inr ("### Your Tasks (1 item)" ++ nl ++ nl ++
         "- **Complete task** · 📅 2024-01-15 · _work_ · " ++
         "[View in Todoist](https://app.todoist.com/app/task/12345)").
Proof. vm_compute. reflexivity. Qed.

Example test_format_due_datetime_extracts_date :
  format_task_line repr_scalar
    [("id", JStr "1"); ("content", JStr "Meeting");
     ("due", JObj [("datetime", JStr "2024-01-15T14:30:00")])]
  = inr ("- **Meeting** · 📅 2024-01-15 · " ++
         "[View in Todoist](https://app.todoist.com/app/task/1)").
Proof. vm_compute. reflexivity. Qed.

Example test_format_multiple_tasks :
  format_task_list repr_scalar
    [[("content", JStr "Task one"); ("labels", JArr [JStr "work"; JStr "urgent"])];
     [("content", JStr "Task two")]]
    (Some "labeled 'work'")
  = inr ("### Tasks labeled 'work' (2 items)" ++ nl ++ nl ++
         "- **Task one** · _work_, _urgent_" ++ nl ++
         "- **Task two**").
Proof. vm_compute. reflexivity. Qed.

Example test_build_url :
  build_task_url repr_scalar (Some linked_task) =
    Some "https://app.todoist.com/app/task/custom-url-format" /\
  build_task_url repr_scalar
    (Some [("id", JStr "12345"); ("content", JStr "Test task")]) =
    Some "https://app.todoist.com/app/task/12345" /\
  build_task_url repr_scalar (Some [("content", JStr "Test task")]) = None /\
  build_task_url repr_scalar None = None /\
  build_task_url repr_scalar (Some []) = None /\
  build_task_url repr_scalar
    (Some [("id", JStr EmptyString); ("content", JStr "Test task")]) = None.
Proof. vm_compute. repeat split. Qed.

(** A field of a type the renderer does not expect makes it fail. *)
Example due_as_text_fails :
  format_task_list repr_scalar
    [[("content", JStr "Pay rent"); ("due", JStr "tomorrow")]] None
  = inl AttributeError.
Proof. vm_compute. reflexivity. Qed.

(** ** Mode detection and conversation *)

Import Client Orchestrator.


Lemma lower_char_space c : is_space (lower_char c) = is_space c.
Proof. destruct c as [[] [] [] [] [] [] [] []]; vm_compute; reflexivity. Qed.

Lemma lower_char_idem c : lower_char (lower_char c) = lower_char c.
Proof. destruct c as [[] [] [] [] [] [] [] []]; vm_compute; reflexivity. Qed.

Lemma lower_idem s : lower (lower s) = lower s.
Proof.
  induction s as [|c s IH]; simpl; [reflexivity|].
  rewrite lower_char_idem, IH. reflexivity.
Qed.

Lemma lower_lstrip s : lstrip (lower s) = lower (lstrip s).
Proof.
  induction s as [|c s IH]; simpl; [reflexivity|].
  rewrite lower_char_space. destruct (is_space c); [exact IH|reflexivity].
Qed.

Lemma lower_rstrip s : rstrip (lower s) = lower (rstrip s).
Proof.
  induction s as [|c s IH]; simpl; [reflexivity|].
  rewrite IH, lower_is_empty, lower_char_space.
  destruct (is_empty (rstrip s) && is_space c); reflexivity.
Qed.

(** Trimming and lower-casing can be done in either order. *)
Lemma lower_strip s : strip (lower s) = lower (strip s).
Proof. unfold strip. rewrite lower_lstrip, lower_rstrip. reflexivity. Qed.

Lemma rstrip_idem s : rstrip (rstrip s) = rstrip s.
Proof.
  induction s as [|c s IH]; simpl; [reflexivity|].
  destruct (is_empty (rstrip s) && is_space c) eqn:E; [reflexivity|].
  simpl. rewrite IH, E. reflexivity.
Qed.

Lemma lstrip_head s :
  match lstrip s with
  | EmptyString => True
  | String c _ => is_space c = false
  end.
Proof.
  induction s as [|c s IH]; simpl; [exact I|].
  destruct (is_space c) eqn:E; [exact IH|exact E].
Qed.

Lemma lstrip_fixed c s : is_space c = false -> lstrip (String c s) = String c s.
Proof. intros H. simpl. rewrite H. reflexivity. Qed.

Lemma rstrip_keeps_head c s :
  is_space c = false -> rstrip (String c s) = String c (rstrip s).
Proof. intros H. simpl. rewrite H, andb_false_r. reflexivity. Qed.

Lemma strip_idem s : strip (strip s) = strip s.
Proof.
  unfold strip. pose proof (lstrip_head s) as H.
  destruct (lstrip s) as [|c r]; [reflexivity|].
  rewrite (rstrip_keeps_head c r H), (lstrip_fixed c _ H).
  rewrite <- (rstrip_keeps_head c r H). apply rstrip_idem.
Qed.

Lemma rstrip_empty s : is_empty (rstrip s) = all_space s.
Proof.
  induction s as [|c s IH]; simpl; [reflexivity|].
  rewrite <- IH.
  destruct (is_empty (rstrip s)); destruct (is_space c); reflexivity.
Qed.

Lemma all_space_lstrip s : all_space (lstrip s) = all_space s.
Proof.
  induction s as [|c s IH]; simpl; [reflexivity|].
  destruct (is_space c) eqn:E; simpl; [exact IH|]. rewrite E. reflexivity.
Qed.

(** A message is blank exactly when trimming leaves nothing. *)
Lemma strip_empty s : is_empty (strip s) = all_space s.
Proof. unfold strip. rewrite rstrip_empty. apply all_space_lstrip. Qed.

(** What [detect_mode] computes, in terms of the trimmed, lower-cased
    message. *)
Lemma detect_mode_normal s :
  detect_mode s =
    if all_space s then CHAT
    else
      let m := lower (strip s) in
      if any_match chat_patterns m then CHAT
      else if any_match create_patterns m then CREATE
      else if any_match retrieve_patterns m then RETRIEVE
      else CREATE.
Proof.
  unfold detect_mode. rewrite strip_empty.
  destruct s as [|c s]; [reflexivity|]. reflexivity.
Qed.

(** X1: [detect_mode] looks at the message only up to letter case and
    surrounding white space: lower-casing it, trimming it, or both, never
    changes the mode. *)
Theorem detect_mode_ignores_case_and_margins (user_message : string) :
  detect_mode (lower user_message) = detect_mode user_message /\
  detect_mode (strip user_message) = detect_mode user_message /\
  detect_mode (lower (strip user_message)) = detect_mode user_message.
Proof.
  assert (A : forall s, all_space (lower s) = all_space s).
  { intros s. rewrite <- !strip_empty, lower_strip. apply lower_is_empty. }
  assert (B : forall s, all_space (strip s) = all_space s).
  { intros s. rewrite <- (strip_empty (strip s)), strip_idem. apply strip_empty. }
  rewrite !detect_mode_normal. cbv zeta.
  repeat (progress rewrite ?A, ?B, ?lower_strip, ?lower_idem, ?strip_idem).
  repeat split; reflexivity.
Qed.


Lemma matches_at_wordb r p s :
  matches_at (Seq WordB r) p s = at_boundary p s && matches_at r p s.
Proof.
  rewrite matches_at_seq. cbn [run].
  destruct (at_boundary p s); [|reflexivity].
  cbn [existsb fst snd]. apply orb_false_r.
Qed.

Lemma matches_at_alt_seq a b r p s :
  matches_at (Seq (Alt a b) r) p s =
  matches_at (Seq a r) p s || matches_at (Seq b r) p s.
Proof. rewrite !matches_at_seq. cbn [run]. apply existsb_app. Qed.

Lemma help_me_is_help p s :
  matches_at (Seq (Lit "help me") WordB) p s = true ->
  matches_at (Seq (Lit "help") WordB) p s = true.
Proof.
  rewrite !matches_at_seq. intros H. apply existsb_exists in H.
  destruct H as (c & Hin & _). cbn [run] in Hin.
  destruct (run_lit_spec _ _ _ _ Hin) as (t & -> & _).
  change ("help me" ++ t) with ("help" ++ (" me" ++ t)).
  cbn [run]. rewrite run_lit_here. reflexivity.
Qed.

Lemma search_intro r s pre post p :
  s = pre ++ post -> p = last_char None pre ->
  matches_at r p post = true -> search r s = true.
Proof.
  intros E -> H. unfold search. apply search_from_iff. exists pre, post. auto.
Qed.

(** A text that holds one of the capability phrases of [detect_mode] holds
    one of those of [generate_chat_response], or the phrase show me how. *)
Lemma capability_or_show_me_how m :
  search (seqs [WordB;
                any_of "what can you do"
                       ["how do you work"; "help me"; "show me how"];
                WordB]) m = true ->
  search Chat.capability_pattern m = true \/ search show_me_how m = true.
Proof.
  unfold search at 1. rewrite search_from_iff.
  intros (pre & post & E & H). cbn [seqs any_of alts map] in H.
  rewrite matches_at_wordb, !matches_at_alt_seq in H.
  apply andb_true_iff in H. destruct H as [Hb H].
  assert (C : forall x, x = true ->
            at_boundary (last_char None pre) post && x = true).
  { intros x ->. rewrite Hb. reflexivity. }
  apply orb_true_iff in H. destruct H as [H|H];
    [|apply orb_true_iff in H; destruct H as [H|H];
      [|apply orb_true_iff in H; destruct H as [H|H]]].
  - left. apply (search_intro _ _ pre post _ E eq_refl).
    unfold Chat.capability_pattern. cbn [seqs any_of alts map].
    rewrite matches_at_wordb, !matches_at_alt_seq. apply C.
    rewrite H. reflexivity.
  - left. apply (search_intro _ _ pre post _ E eq_refl).
    unfold Chat.capability_pattern. cbn [seqs any_of alts map].
    rewrite matches_at_wordb, !matches_at_alt_seq. apply C.
    rewrite H. apply orb_true_r.
  - left. apply (search_intro _ _ pre post _ E eq_refl).
    unfold Chat.capability_pattern. cbn [seqs any_of alts map].
    rewrite matches_at_wordb, !matches_at_alt_seq. apply C.
    rewrite (help_me_is_help _ _ H). rewrite !orb_true_r. reflexivity.
  - right. apply (search_intro _ _ pre post _ E eq_refl).
    unfold show_me_how. cbn [seqs]. rewrite matches_at_wordb. apply C.
    exact H.
Qed.

Lemma reply_text_injective r1 r2 :
  Chat.reply_text r1 = Chat.reply_text r2 -> r1 = r2.
Proof.
  destruct r1, r2; intros H; try reflexivity; vm_compute in H; discriminate H.
Qed.

(** X2: a blank message is a conversation and is answered with the
    fallback text; and a message routed to conversation is answered with the
    fallback text only if it is blank or holds the phrase show me how, the
    one conversation phrase of [detect_mode] that [generate_chat_response]
    does not know. *)
Theorem chat_fallback_only_when_blank_or_show_me_how (user_message : string) :
  (all_space user_message = true ->
   detect_mode user_message = CHAT /\
   Chat.generate_chat_response user_message = Chat.reply_text Chat.Fallback) /\
  (detect_mode user_message = CHAT ->
   Chat.generate_chat_response user_message = Chat.reply_text Chat.Fallback ->
   all_space user_message = true \/
   search show_me_how (lower (strip user_message)) = true).
Proof.
  split.
  - intros H. split; [rewrite detect_mode_normal, H; reflexivity|].
    unfold Chat.generate_chat_response, Chat.chat_reply. cbv zeta.
    rewrite lower_strip.
    assert (E : lower (strip user_message) = EmptyString).
    { rewrite strip_all_space by exact H. reflexivity. }
    rewrite E. reflexivity.
  - intros Hm Hr. apply reply_text_injective in Hr.
    destruct (all_space user_message) eqn:Hs; [left; reflexivity|right].
    rewrite detect_mode_normal, Hs in Hm. cbv zeta in Hm.
    unfold Chat.chat_reply in Hr. cbv zeta in Hr. rewrite lower_strip in Hr.
    set (m := lower (strip user_message)) in *.
    destruct (search Chat.greeting_pattern m) eqn:G; [discriminate Hr|].
    destruct (search Chat.daytime_pattern m) eqn:D; [discriminate Hr|].
    destruct (search Chat.capability_pattern m) eqn:K; [discriminate Hr|].
    destruct (search Chat.identity_pattern m) eqn:I; [discriminate Hr|].
    destruct (any_match chat_patterns m) eqn:A.
    2:{ destruct (any_match create_patterns m); [discriminate Hm|].
        destruct (any_match retrieve_patterns m); discriminate Hm. }
    unfold any_match, chat_patterns in A. cbn [existsb] in A.
    change (search (seqs [Bol; any_of "hi" ["hello"; "hey"; "greetings"];
                          Many trailing_marks; Eol]) m)
      with (search Chat.greeting_pattern m) in A.
    change (search (seqs [Bol; any_of "good morning"
                                 ["good afternoon"; "good evening"];
                          Many trailing_marks; Eol]) m)
      with (search Chat.daytime_pattern m) in A.
    change (search (seqs [WordB; any_of "who are you" ["what are you"]; WordB]) m)
      with (search Chat.identity_pattern m) in A.
    rewrite G, D, I in A. cbn [orb] in A. rewrite orb_false_r in A.
    destruct (capability_or_show_me_how m A) as [C|S]; [congruence|exact S].
Qed.

(** ** The label of a query *)



Lemma length_append a b :
  String.length (a ++ b) = String.length a + String.length b.
Proof. induction a as [|c a IH]; simpl; [reflexivity|]. rewrite IH. reflexivity. Qed.

Lemma substring_append a b : substring 0 (String.length a) (a ++ b) = a.
Proof.
  induction a as [|c a IH]; simpl.
  - destruct b; reflexivity.
  - rewrite IH. reflexivity.
Qed.

Lemma consumed_append a b : consumed (a ++ b) b = a.
Proof.
  unfold consumed. rewrite length_append.
  replace (String.length a + String.length b - String.length b)
    with (String.length a) by lia.
  apply substring_append.
Qed.

Lemma lower_append a b : lower (a ++ b) = lower a ++ lower b.
Proof. induction a as [|c a IH]; simpl; [reflexivity|]. rewrite IH. reflexivity. Qed.

Lemma lowered_parts a : forall b,
  lower (a ++ b) = a ++ b -> lower a = a /\ lower b = b.
Proof.
  induction a as [|c a IH]; intros b H; simpl in *.
  - auto.
  - inversion H as [[Hc Hr]]. destruct (IH b Hr) as [Ha Hb].
    rewrite Hc, Ha, Hb. rewrite Hc. auto.
Qed.

(** The first end position of a greedy repetition is the furthest one. *)
Lemma run_many_head k : forall s p,
  exists mid t rest,
    run_many k p s = (last_char p mid, t) :: rest /\
    s = mid ++ t /\ all_in k mid = true /\ stops k t = true.
Proof.
  induction s as [|x s IH]; intros p.
  - exists EmptyString, EmptyString, []. auto.
  - simpl. destruct (in_cset k x) eqn:K.
    + destruct (IH (Some x)) as (mid & t & rest & R & E & A & S).
      exists (String x mid), t, (rest ++ [(p, String x s)])%list.
      rewrite R. simpl. rewrite K, A, <- E. auto.
    + exists EmptyString, (String x s), []. simpl. rewrite K. auto.
Qed.

Lemma label_suffix_matches p s : matches_at label_suffix p s = true.
Proof.
  unfold matches_at, label_suffix. cbn [run]. rewrite nonempty_app.
  apply orb_true_r.
Qed.

Lemma group_at_label p s g :
  group_at label_prefix label_group label_suffix p s = Some g ->
  exists before after,
    s = before ++ g ++ after /\ g <> EmptyString /\
    all_in CWord g = true /\ stops CWord after = true.
Proof.
  unfold group_at.
  assert (H : forall c, In c (run label_prefix p s) -> In c (run label_prefix p s))
    by auto.
  revert H. generalize (run label_prefix p s) at 1 3.
  induction l as [|c1 cs IH]; intros Hin; [discriminate|].
  destruct (find (fun c2 => matches_at label_suffix (fst c2) (snd c2))
                 (run label_group (fst c1) (snd c1))) as [c2|] eqn:F.
  - intros G. inversion G; subst g; clear G.
    destruct (run_consumes _ _ _ _ (Hin c1 (or_introl eq_refl))) as (m1 & E1 & _).
    unfold label_group in F. cbn [run] in F.
    destruct (snd c1) as [|x s'] eqn:S1; [discriminate F|].
    change (in_cset CWord x) with (is_word x) in F.
    destruct (is_word x) eqn:W; [|discriminate F].
    destruct (run_many_head CWord s' (Some x)) as (mid & t & rest & R & E & A & St).
    rewrite R in F. cbn [find fst snd] in F.
    rewrite label_suffix_matches in F. inversion F; subst c2; clear F.
    cbn [snd]. exists m1, t.
    assert (C : consumed (String x s') t = String x mid).
    { rewrite E. apply (consumed_append (String x mid) t). }
    rewrite C. repeat split.
    + rewrite E1, E. reflexivity.
    + discriminate.
    + simpl. change (in_cset CWord x) with (is_word x). rewrite W. exact A.
    + exact St.
  - apply IH. intros c Hc. apply Hin. right. exact Hc.
Qed.

Lemma group_from_some pre grp suf : forall s p g,
  group_from pre grp suf p s = Some g ->
  exists before rest,
    s = before ++ rest /\
    group_at pre grp suf (last_char p before) rest = Some g.
Proof.
  induction s as [|x s IH]; intros p g; cbn [group_from].
  - destruct (group_at pre grp suf p EmptyString) eqn:G; [|discriminate].
    intros H. inversion H; subst. exists EmptyString, EmptyString. auto.
  - destruct (group_at pre grp suf p (String x s)) eqn:G.
    + intros H. inversion H; subst. exists EmptyString, (String x s). auto.
    + intros H. destruct (IH _ _ H) as (before & rest & E & G').
      exists (String x before), rest. simpl. rewrite E. auto.
Qed.

(** X3: the label that [handle_retrieve_mode] reads from a message is a
    non-empty run of word characters of the lower-cased message, taken up to
    the first character that is no word character; lower-casing leaves it
    as it is, whatever the case of the message. *)
Theorem label_is_a_lowercase_word (user_message l : string) :
  label (handle_retrieve_mode_filter user_message) = Some l ->
  l <> EmptyString /\ all_in CWord l = true /\ lower l = l /\
  exists before after,
    lower user_message = before ++ l ++ after /\ stops CWord after = true.
Proof.
  unfold handle_retrieve_mode_filter. cbn [label]. unfold search_group.
  intros H. destruct (group_from_some _ _ _ _ _ _ H) as (b0 & rest & E & G).
  destruct (group_at_label _ _ _ G) as (b1 & after & E1 & Hne & Hw & Hs).
  assert (E2 : lower user_message = (b0 ++ b1) ++ l ++ after).
  { rewrite E, E1, append_assoc. reflexivity. }
  repeat split; try assumption.
  - pose proof (lower_idem user_message) as L. rewrite E2 in L.
    apply lowered_parts in L. destruct L as [_ L].
    apply lowered_parts in L. tauto.
  - exists (b0 ++ b1), after. auto.
Qed.

(** ** Tasks on their way to the store *)




Lemma all_strings_map ls : all_strings (map JStr ls) = Some ls.
Proof. induction ls as [|l ls IH]; simpl; [reflexivity|]. rewrite IH. reflexivity. Qed.

Section TaskFacts.

Variable lax_int : json -> option Z.

(** X4: validating what [model_dump(exclude_none=True)] writes gives the
    task back, a null description read as the empty one, when the priority
    is one of 1..4, and fails on the priority alone otherwise. *)
Theorem dump_then_validate (t : TodoistTask) :
  model_validate lax_int (JObj (Task.model_dump t)) =
    if in_range_1_4 (priority t)
    then inr (with_description_default t)
    else inl [InvalidValue "priority" (JInt (priority t))].
Proof.
  destruct t as [c ds p du ls pj]. unfold Task.model_dump, in_range_1_4.
  cbn [content description priority due_string labels project_id].
  unfold model_validate.
  destruct ds as [ds|]; destruct du as [du|]; destruct pj as [pj|];
    cbn [app]; unfold field; cbn [lookup String.eqb Ascii.eqb Bool.eqb];
    cbn [validate_str validate_opt_str validate_str_list];
    rewrite all_strings_map; unfold validate_int; cbn [read_int];
    destruct (Z.leb 1 p && Z.leb p 4)%bool; reflexivity.
Qed.

End TaskFacts.

Lemma model_dump_has_no_null (t : TodoistTask) k v :
  In (k, v) (Task.model_dump t) -> v <> JNull.
Proof.
  destruct t as [c ds p du ls pj]. unfold Task.model_dump.
  cbn [content description priority due_string labels project_id].
  destruct ds, du, pj; cbn [app In]; intros H;
    repeat (destruct H as [H|H]); try contradiction;
    inversion H; discriminate.
Qed.


Lemma priority_label_known (p : Z) :
  (1 <= p <= 4)%Z -> In (Task.priority_label p) known_badges.
Proof.
  intros H. assert (C : (p = 1 \/ p = 2 \/ p = 3 \/ p = 4)%Z) by lia.
  destruct C as [ -> | [ -> | [ -> | -> ] ] ]; vm_compute; tauto.
Qed.

Lemma priority_label_unknown (p : Z) :
  ~ (1 <= p <= 4)%Z -> Task.priority_label p = "Unknown".
Proof.
  intros H. unfold Task.priority_label.
  destruct (Z.eqb_spec p 4); [lia|]. destruct (Z.eqb_spec p 2); [lia|].
  destruct (Z.eqb_spec p 3); [lia|]. destruct (Z.eqb_spec p 1); [lia|].
  reflexivity.
Qed.

Section PreviewFacts.

Variable lax_int : json -> option Z.
Variable exc_str : failure -> string.

(** X5: the preview of a task that [parse_task] returned begins with the
    heading and the title and shows one of the four priority badges, never
    the badge Unknown. *)
Theorem preview_of_extracted_task (svc : service) (user_input : string)
        (calls calls' : nat) (task : TodoistTask) :
  parse_task lax_int exc_str svc user_input calls = (inr task, calls') ->
  exists badge rest,
    In badge known_badges /\
    Task.priority_label (priority task) = badge /\
    In ("**Priority:** " ++ badge) (Task.display_task_preview task) /\
    Task.display_task_preview task =
      "### 📋 Task Preview" :: ("**Title:** " ++ content task) :: rest.
Proof.
  unfold parse_task.
  destruct (svc calls user_input) as [what|reply]; [discriminate|].
  unfold parser_parse.
  destruct (decoded reply) as [obj|]; [|discriminate].
  destruct (model_validate lax_int obj) as [es|t] eqn:V; [discriminate|].
  intros H. inversion H; subst t calls'. clear H.
  destruct (model_validate_ok lax_int obj task V) as (d & -> & _ & Hp).
  assert (Hr : (1 <= priority task <= 4)%Z).
  { unfold field in Hp. destruct (lookup "priority" d) as [v|].
    - exact (validate_int_range lax_int 1 4 _ _ _ Hp).
    - inversion Hp. lia. }
  pose proof (priority_label_known _ Hr) as Hk.
  exists (Task.priority_label (priority task)). eexists.
  split; [exact Hk|]. split; [reflexivity|]. split.
  - unfold Task.display_task_preview. cbn [app In]. right. right.
    apply in_or_app. right. left. reflexivity.
  - unfold Task.display_task_preview. cbn [app]. reflexivity.
Qed.

End PreviewFacts.

(** ** The client of the task store *)



Section ClientFacts.

Variable py_repr : json -> string.

Lemma _handle_http_error_class status_code body operation :
  match _handle_http_error py_repr status_code body operation with
  | Todoist AuthenticationError _ => status_code = 401%Z \/ status_code = 403%Z
  | Todoist RateLimitError _ => status_code = 429%Z
  | Todoist ValidationError _ =>
      status_code = 400%Z /\
      match body with Some v => not_object v = false | None => True end
  | Todoist TodoistError _ =>
      status_code <> 400%Z /\ status_code <> 401%Z /\ status_code <> 403%Z /\
      status_code <> 429%Z
  | Escaped e =>
      status_code = 400%Z /\ e = Dynamic Render.AttributeError /\
      exists v, body = Some v /\ not_object v = true
  end.
Proof.
  unfold _handle_http_error.
  destruct (Z.eqb_spec status_code 400).
  { destruct body as [[| | | | | |d]|]; simpl; eauto 6. }
  destruct (Z.eqb_spec status_code 401); [auto|].
  destruct (Z.eqb_spec status_code 403); [auto|].
  destruct (Z.eqb_spec status_code 404); [repeat split; lia|].
  destruct (Z.eqb_spec status_code 429); [auto|].
  repeat split; assumption.
Qed.

Lemma http_error_escapes status_code body operation :
  (exists e, _handle_http_error py_repr status_code body operation = Escaped e) <->
  status_code = 400%Z /\ exists v, body = Some v /\ not_object v = true.
Proof.
  split.
  - intros [e He].
    pose proof (_handle_http_error_class status_code body operation) as C.
    rewrite He in C. tauto.
  - intros (-> & v & -> & Hv). unfold _handle_http_error. simpl.
    destruct v; try discriminate Hv; eexists; reflexivity.
Qed.

Lemma call_returns operation accept readable x :
  (forall v, (readable v = true /\ accept v = inr v) \/
             (readable v = false /\ exists e, accept v = inl (Escaped e))) ->
  (forall v, call py_repr operation accept x = inr v <->
             x = Answered (Some v) /\ readable v = true) /\
  (is_escaped (call py_repr operation accept x) <-> slips_through readable x).
Proof.
  intros A. unfold slips_through, is_escaped.
  split.
  - intros v. destruct x as [[b|]|s b| | |w ve]; simpl; split;
      try discriminate; try (intros [H _]; discriminate H).
    + intros H. destruct (A b) as [[Hr Hb]|[Hr [e Hb]]]; rewrite Hb in H.
      * inversion H; subst. auto.
      * discriminate H.
    + intros [H Hr]. inversion H; subst b.
      destruct (A v) as [[_ Hb]|[Hr' _]]; [exact Hb|congruence].
  - destruct x as [[b|]|s b| | |w ve]; simpl.
    + split.
      * intros [e He]. right. left. exists b. split; [reflexivity|].
        destruct (A b) as [[_ Hb]|[Hr _]]; [rewrite Hb in He; discriminate|exact Hr].
      * intros [H|[(v & H & Hr)|[(v & H & _)|(w & ve & H)]]]; try discriminate H.
        inversion H; subst v.
        destruct (A b) as [[Hr' _]|[_ Hb]]; [congruence|exact Hb].
    + split; [intros _; left; reflexivity|intros _; eexists; reflexivity].
    + split.
      * intros [e He]. assert (He' : exists e0,
            _handle_http_error py_repr s b operation = Escaped e0)
          by (exists e; congruence).
        apply http_error_escapes in He'. destruct He' as (-> & v & -> & Hv).
        right. right. left. exists v. auto.
      * intros [H|[(v & H & Hr)|[(v & H & Hv)|(w & ve & H)]]]; try discriminate H.
        inversion H; subst s b.
        destruct (proj2 (http_error_escapes 400 (Some v) operation)) as [e He];
          [eauto|]. exists e. rewrite He. reflexivity.
    + split; [intros [e He]; discriminate He|].
      intros [H|[(v & H & Hr)|[(v & H & _)|(w & ve & H)]]]; discriminate H.
    + split; [intros [e He]; discriminate He|].
      intros [H|[(v & H & Hr)|[(v & H & _)|(w & ve & H)]]]; discriminate H.
    + split; [intros _; right; right; right; do 2 eexists; reflexivity|].
      intros _. eexists. reflexivity.
Qed.

(** X6: [create_task] returns exactly when the server accepted the request
    and answered with a JSON object, [get_tasks] exactly when it answered
    with a value that has a length, [get_projects] whenever it answered with
    JSON, each returning the decoded body; and each raises an exception that
    is not one of the client's own exactly on a body that is not JSON or that
    its logging call cannot read, on a status 400 whose body is JSON but no
    object, and on a failure of the HTTP library that is neither a time-out
    nor a lost connection. *)
Theorem client_exceptions (x : exchange) :
  (forall v, create_task py_repr x = inr v <->
             x = Answered (Some v) /\ is_object v = true) /\
  (is_escaped (create_task py_repr x) <-> slips_through is_object x) /\
  (forall v, get_tasks py_repr x = inr v <->
             x = Answered (Some v) /\ has_len v = true) /\
  (is_escaped (get_tasks py_repr x) <-> slips_through has_len x) /\
  (forall v, get_projects py_repr x = inr v <-> x = Answered (Some v)) /\
  (is_escaped (get_projects py_repr x) <-> slips_through (fun _ => true) x).
Proof.
  assert (P := call_returns "retrieve projects" (fun projects => inr projects)
                 (fun _ => true) x).
  assert (C := call_returns "create task"
                 (fun task => match task with
                              | JObj _ => inr task
                              | _ => inl (Escaped (Dynamic Render.AttributeError))
                              end) is_object x).
  assert (G := call_returns "retrieve tasks"
                 (fun tasks => if has_len tasks then inr tasks
                               else inl (Escaped (Dynamic Render.TypeError)))
                 has_len x).
  destruct C as [C1 C2].
  { intros v. destruct v; simpl; eauto. }
  destruct G as [G1 G2].
  { intros v. destruct (has_len v); eauto. }
  destruct P as [P1 P2].
  { intros v. left. split; reflexivity. }
  split; [exact C1|]. split; [exact C2|]. split; [exact G1|].
  split; [exact G2|]. split; [|exact P2].
  intros v. rewrite (P1 v). tauto.
Qed.

End ClientFacts.





(** ** Settings *)

Import Settings.

Section SettingsFacts.

Variable to_float : string -> option PrimFloat.float.
Variable float_text : PrimFloat.float -> string.

(** X8: [Settings()] fails with the message that names TODOIST_API_TOKEN
    when that variable is unset or empty, with the one that names
    GOOGLE_API_KEY when only this one is; and the settings it returns hold
    the two variables as the environment has them, neither empty, and the
    number that the temperature text, 0.3 by default, stands for. *)
Theorem required_variables (env : environ) :
  (unset_or_empty (env "TODOIST_API_TOKEN") = true ->
   __init__ to_float env = inl (missing "TODOIST_API_TOKEN")) /\
  (unset_or_empty (env "TODOIST_API_TOKEN") = false ->
   unset_or_empty (env "GOOGLE_API_KEY") = true ->
   __init__ to_float env = inl (missing "GOOGLE_API_KEY")) /\
  (forall s,
      __init__ to_float env = inr s ->
      env "TODOIST_API_TOKEN" = Some (todoist_api_token s) /\
      env "GOOGLE_API_KEY" = Some (google_api_key s) /\
      todoist_api_token s <> EmptyString /\ google_api_key s <> EmptyString /\
      to_float (getenv env "GEMINI_TEMPERATURE" "0.3") =
        Some (gemini_temperature s)).
Proof.
  unfold __init__, _get_required_env, unset_or_empty. repeat split.
  - destruct (env "TODOIST_API_TOKEN") as [[|c t]|]; intros H;
      try discriminate H; reflexivity.
  - destruct (env "TODOIST_API_TOKEN") as [[|c t]|]; intros H;
      try discriminate H.
    destruct (env "GOOGLE_API_KEY") as [[|c' t']|]; intros H';
      try discriminate H'; reflexivity.
  - revert H. destruct (env "TODOIST_API_TOKEN") as [[|c t]|]; try discriminate.
    destruct (env "GOOGLE_API_KEY") as [[|c' t']|]; try discriminate.
    destruct (to_float _); [|discriminate]. intros H. inversion H. reflexivity.
  - revert H. destruct (env "TODOIST_API_TOKEN") as [[|c t]|]; try discriminate.
    destruct (env "GOOGLE_API_KEY") as [[|c' t']|]; try discriminate.
    destruct (to_float _); [|discriminate]. intros H. inversion H. reflexivity.
  - revert H. destruct (env "TODOIST_API_TOKEN") as [[|c t]|]; try discriminate.
    destruct (env "GOOGLE_API_KEY") as [[|c' t']|]; try discriminate.
    destruct (to_float _); [|discriminate]. intros H. inversion H. discriminate.
  - revert H. destruct (env "TODOIST_API_TOKEN") as [[|c t]|]; try discriminate.
    destruct (env "GOOGLE_API_KEY") as [[|c' t']|]; try discriminate.
    destruct (to_float _); [|discriminate]. intros H. inversion H. discriminate.
  - revert H. destruct (env "TODOIST_API_TOKEN") as [[|c t]|]; try discriminate.
    destruct (env "GOOGLE_API_KEY") as [[|c' t']|]; try discriminate.
    destruct (to_float (getenv env "GEMINI_TEMPERATURE" "0.3")) eqn:F;
      [|discriminate]. intros H. inversion H. reflexivity.
Qed.

(** X9: [settings()] reads the environment until it succeeds once: after a
    success every call returns the same settings whatever the environment
    has become, and after a failure the next call reads the environment
    anew. *)
Theorem settings_are_read_once (env env' : environ) :
  (forall s cache,
      settings to_float env None = (inr s, cache) ->
      cache = Some s /\ settings to_float env' cache = (inr s, cache)) /\
  (forall e cache,
      settings to_float env None = (inl e, cache) ->
      cache = None /\
      fst (settings to_float env' cache) = get_settings to_float env').
Proof.
  unfold settings, get_settings. split.
  - intros s cache. destruct (__init__ to_float env) as [e|s0];
      intros H; inversion H; subst. auto.
  - intros e cache. destruct (__init__ to_float env) as [e0|s0];
      intros H; inversion H; subst. split; [reflexivity|].
    destruct (__init__ to_float env'); reflexivity.
Qed.

End SettingsFacts.

Section StartupFacts.

Variable to_float : string -> option PrimFloat.float.
Variable float_text : PrimFloat.float -> string.

Lemma required_is_long_enough (env : environ) (key : string) :
  long_enough (env key) = true ->
  exists value,
    env key = Some value /\ _get_required_env env key = inr value /\
    Nat.ltb (String.length value) 20 = false.
Proof.
  unfold long_enough, _get_required_env.
  destruct (env key) as [value|]; [|discriminate].
  intros H. exists value. apply Nat.leb_le in H.
  destruct value as [|c value]; [simpl in H; lia|].
  repeat split. apply Nat.ltb_ge. exact H.
Qed.

(** X10: the check that [initialize_services] starts with passes exactly
    when both secrets are set to texts of at least twenty characters and the
    temperature text, 0.3 when the variable is unset, stands for a number
    between 0.0 and 1.0; it never returns False. *)
Theorem startup_requirements (env : environ) :
  (fst (checked_settings to_float float_text env None) = inr true <->
   long_enough (env "TODOIST_API_TOKEN") = true /\
   long_enough (env "GOOGLE_API_KEY") = true /\
   in_unit_interval (to_float (getenv env "GEMINI_TEMPERATURE" "0.3")) = true) /\
  fst (checked_settings to_float float_text env None) <> inr false.
Proof.
  unfold checked_settings, settings, __init__, validate, in_unit_interval.
  split; [split|].
  - unfold long_enough, _get_required_env.
    destruct (env "TODOIST_API_TOKEN") as [[|c t]|]; try discriminate.
    destruct (env "GOOGLE_API_KEY") as [[|c' t']|]; try discriminate.
    destruct (to_float (getenv env "GEMINI_TEMPERATURE" "0.3")) as [x|];
      [|discriminate].
    cbn [fst todoist_api_token google_api_key gemini_temperature is_empty].
    destruct (Nat.ltb_spec (String.length (String c t)) 20); [discriminate|].
    destruct (Nat.ltb_spec (String.length (String c' t')) 20); [discriminate|].
    destruct (PrimFloat.leb PrimFloat.zero x && PrimFloat.leb x PrimFloat.one);
      [|discriminate].
    intros _. repeat split; apply Nat.leb_le; assumption.
  - intros (Ht & Hk & Hx).
    destruct (required_is_long_enough env _ Ht) as (t & _ & -> & Lt).
    destruct (required_is_long_enough env _ Hk) as (k & _ & -> & Lk).
    destruct (to_float (getenv env "GEMINI_TEMPERATURE" "0.3")) as [x|];
      [|discriminate Hx].
    cbn [fst todoist_api_token google_api_key gemini_temperature].
    rewrite Lt, Lk, Hx. reflexivity.
  - destruct (_get_required_env env "TODOIST_API_TOKEN"); [discriminate|].
    destruct (_get_required_env env "GOOGLE_API_KEY"); [discriminate|].
    destruct (to_float _); [|discriminate].
    cbn [fst todoist_api_token google_api_key gemini_temperature].
    destruct (Nat.ltb _ 20); [discriminate|].
    destruct (Nat.ltb _ 20); [discriminate|].
    destruct (negb _); discriminate.
Qed.

End StartupFacts.

(** ** The handlers *)

Lemma map_result_dicts {B : Type} (f : dict -> result B) (ds : list dict) :
  map_result (fun v => task <- as_task v ;; f task) (map JObj ds) =
  map_result f ds.
Proof.
  induction ds as [|d ds IH]; [reflexivity|].
  cbn [map map_result as_task bind]. rewrite IH. reflexivity.
Qed.

Lemma confirmation_app (id_text rest : string) :
  confirmation id_text ++ rest =
  "✅ **Task created successfully!**" ++ nl ++ nl ++
  "Task ID: `" ++ id_text ++ "`" ++ nl ++ nl ++ rest.
Proof. unfold confirmation. rewrite !append_assoc. reflexivity. Qed.

Section OrchestratorFacts.

Variable py_repr : json -> string.
Variable lax_int : json -> option Z.
Variable exc_str : failure -> string.
Variable exc_text : escaped -> string.
Variable svc : service.
Variable store : nat -> request -> exchange.

Lemma parse_task_calls user_message calls :
  snd (parse_task lax_int exc_str svc user_message calls) = S calls.
Proof.
  unfold parse_task. destruct (svc calls user_message) as [w|reply];
    [reflexivity|]. destruct (parser_parse lax_int reply); reflexivity.
Qed.

Lemma parse_task_priority user_message calls task :
  fst (parse_task lax_int exc_str svc user_message calls) = inr task ->
  (1 <= priority task <= 4)%Z.
Proof.
  unfold parse_task.
  destruct (svc calls user_message) as [w|reply]; [discriminate|].
  unfold parser_parse. destruct (decoded reply) as [obj|]; [|discriminate].
  destruct (model_validate lax_int obj) as [es|t] eqn:V; [discriminate|].
  cbn [fst]. intros H. inversion H; subst t.
  destruct (model_validate_ok lax_int obj task V) as (d & -> & _ & Hp).
  unfold field in Hp. destruct (lookup "priority" d) as [v|].
  - exact (validate_int_range lax_int 1 4 _ _ _ Hp).
  - inversion Hp. lia.
Qed.

(** The listing of a list of dicts is that of [format_task_list]. *)
Lemma format_tasks_of_dicts (ds : list dict) (fd : option string) :
  format_tasks py_repr (JArr (map JObj ds)) fd = format_task_list py_repr ds fd.
Proof.
  destruct ds as [|d ds]; [reflexivity|].
  unfold format_tasks, format_task_list.
  cbn [map truthy negb py_iter bind].
  change (JObj d :: map JObj ds) with (map JObj (d :: ds)).
  rewrite map_result_dicts, length_map. reflexivity.
Qed.

(** A method of the client raises an exception of the authentication class
    exactly on the statuses 401 and 403. *)
Lemma authentication_class operation accept x c msg :
  (forall v c' m, accept v <> inl (Todoist c' m)) ->
  call py_repr operation accept x = inl (Todoist c msg) ->
  (c = AuthenticationError <->
   exists body, x = HTTPError 401 body \/ x = HTTPError 403 body).
Proof.
  intros A. destruct x as [[b|]|s b| | |w ve]; cbn [call].
  - intros H. destruct (A _ _ _ H).
  - discriminate.
  - intros H. inversion H as [E].
    pose proof (_handle_http_error_class py_repr s b operation) as C.
    rewrite E in C. split.
    + intros ->. exists b. destruct C as [ -> | -> ]; auto.
    + intros (b' & [H'|H']); inversion H'; subst s b';
        destruct c; try reflexivity; lia || (destruct C; lia).
  - intros H. inversion H. split; [discriminate|].
    intros (b & [H'|H']); discriminate H'.
  - intros H. inversion H. split; [discriminate|].
    intros (b & [H'|H']); discriminate H'.
  - discriminate.
Qed.

Lemma perform_authentication r x c msg :
  perform py_repr r x = inl (Todoist c msg) ->
  (c = AuthenticationError <->
   exists body, x = HTTPError 401 body \/ x = HTTPError 403 body).
Proof.
  destruct r; cbn [perform]; apply authentication_class; intros v c' m.
  - destruct v; discriminate.
  - destruct (has_len v); discriminate.
  - discriminate.
Qed.

(** X11: what one message makes the application do outside itself: the
    text-generation service is called once for a CREATE message and not at
    all otherwise; one request goes to the task store for a RETRIEVE message
    and for a CREATE message whose extraction succeeded, none otherwise; and
    a task is only ever posted with a string content, an integer priority of
    1..4, a list of labels and no null field. *)
Theorem outside_calls (user_message : string) (st : session) :
  llm_calls (handle_user_input py_repr lax_int exc_str exc_text svc store
       user_message st) =
    match detect_mode user_message with
    | CREATE => S (llm_calls st)
    | _ => llm_calls st
    end /\
  sent (handle_user_input py_repr lax_int exc_str exc_text svc store
       user_message st) =
    (sent st ++ match request_of lax_int exc_str svc user_message st with
                | Some r => [r]
                | None => []
                end)%list /\
  (forall task_data,
      request_of lax_int exc_str svc user_message st =
        Some (PostTask task_data) ->
      (exists title, lookup "content" task_data = Some (JStr title)) /\
      (exists p, lookup "priority" task_data = Some (JInt p) /\
                 (1 <= p <= 4)%Z) /\
      (exists ls, lookup "labels" task_data = Some (JArr (map JStr ls))) /\
      (forall k v, In (k, v) task_data -> v <> JNull)).
Proof.
  unfold handle_user_input, request_of.
  destruct (detect_mode user_message) eqn:M.
  - repeat split; try reflexivity; try discriminate.
    cbn. rewrite app_nil_r. reflexivity.
  - unfold create_branch. cbn [llm_calls say sent].
    pose proof (parse_task_calls user_message (llm_calls st)) as Hc.
    pose proof (parse_task_priority user_message (llm_calls st)) as Hr.
    destruct (parse_task lax_int exc_str svc user_message (llm_calls st))
      as [parsed calls] eqn:P.
    cbn [fst snd] in *. subst calls.
    destruct parsed as [e|task].
    + repeat split; try reflexivity; try discriminate.
      cbn. rewrite app_nil_r. reflexivity.
    + specialize (Hr task eq_refl).
      split; [|split].
      * cbn [called send say sent messages llm_calls].
        destruct (create_task py_repr _) as [r|created]; [reflexivity|].
        destruct (subscript created "id") as [r|i]; [reflexivity|].
        destruct (subscript created "content"); reflexivity.
      * cbn [called send say sent messages llm_calls].
        destruct (create_task py_repr _) as [r|created]; [reflexivity|].
        destruct (subscript created "id") as [r|i]; [reflexivity|].
        destruct (subscript created "content"); reflexivity.
      * intros task_data H. inversion H; subst task_data. clear H.
        destruct task as [c ds p du ls pj]. cbn [priority] in Hr.
        repeat split.
        -- exists c. reflexivity.
        -- exists p. split; [|lia].
           unfold Task.model_dump. cbn [content description priority].
           destruct ds; reflexivity.
        -- exists ls. unfold Task.model_dump.
           cbn [content description priority due_string labels].
           destruct ds, du; reflexivity.
        -- apply model_dump_has_no_null.
  - unfold handle_retrieve_mode. cbn zeta.
    repeat split; try discriminate.
    + destruct (get_tasks py_repr _) as [r|tasks]; [reflexivity|].
      destruct (format_tasks py_repr tasks _); reflexivity.
    + destruct (get_tasks py_repr _) as [r|tasks]; [reflexivity|].
      destruct (format_tasks py_repr tasks _); reflexivity.
Qed.

(** X12: every message adds one exchange to the chat history, the message
    of the user and then one answer of the assistant, whatever the service
    and the store do; the one exception is a task the store created and
    answered without a content, where the confirmation is followed by a
    report of an unexpected error. *)
Theorem history_grows_by_one_exchange (user_message : string) (st : session) :
  exists answer,
    messages (handle_user_input py_repr lax_int exc_str exc_text svc store
                user_message st) =
    (messages st ++
     [("user", user_message); ("assistant", answer)] ++
     if created_without_content py_repr lax_int exc_str svc store
          user_message st
     then [("assistant", unexpected (exc_text (KeyError "content")))]
     else [])%list.
Proof.
  unfold handle_user_input, created_without_content, outcome, request_of.
  destruct (detect_mode user_message) eqn:M.
  - settle_history.
  - unfold create_branch.
    destruct (parse_task lax_int exc_str svc user_message
                (llm_calls (say "user" user_message st)))
      as [parsed calls] eqn:P.
    cbn [llm_calls say] in P. rewrite P. cbn [fst].
    destruct parsed as [e|task]; [settle_history|].
    cbn [called send say sent messages llm_calls perform].
    destruct (create_task py_repr
                (store (List.length (sent st))
                       (PostTask (Task.model_dump task))))
      as [r|created] eqn:C; [settle_history|].
    assert (O : exists d, created = JObj d).
    { revert C. unfold create_task, call.
      destruct (store _ _) as [[b|]|s b| | |w ve]; try discriminate.
      destruct b; try discriminate. intros H. inversion H. eauto. }
    destruct O as [d ->]. unfold subscript, absent.
    destruct (lookup "id" d) as [i|]; [|settle_history].
    destruct (lookup "content" d) as [c|]; [settle_history|].
    eexists. cbn [messages say send called negb andb app report_create
                  is_value_error].
    rewrite <- ?app_assoc. cbn [app]. reflexivity.
  - unfold handle_retrieve_mode. cbv zeta.
    destruct (get_tasks py_repr _) as [r|tasks]; [settle_history|].
    destruct (format_tasks py_repr tasks _); settle_history.
Qed.

(** X13: when the client raises one of its own exceptions on the request of
    a message, the answer of the assistant is the heading of the class, a
    blank line and the message of the exception, in the CREATE as in the
    RETRIEVE branch; the authentication heading is used exactly when the
    store answered with the status 401 or 403. *)
Theorem store_failure_is_reported (user_message : string) (st : session)
        (c : error_class) (msg : string) :
  outcome py_repr lax_int exc_str svc store user_message st =
    Some (inl (Todoist c msg)) ->
  messages (handle_user_input py_repr lax_int exc_str exc_text svc store
              user_message st) =
    (messages st ++
     [("user", user_message);
      ("assistant", (headline c ++ nl ++ nl ++ msg)%string)])%list /\
  (forall r,
      request_of lax_int exc_str svc user_message st = Some r ->
      (headline c = "🔑 **Authentication Error**" <->
       exists body,
         store (List.length (sent st)) r = HTTPError 401 body \/
         store (List.length (sent st)) r = HTTPError 403 body)).
Proof.
  intros H. split.
  - revert H. unfold outcome, request_of, handle_user_input.
    destruct (detect_mode user_message) eqn:M; [discriminate| |].
    + unfold create_branch.
      destruct (parse_task lax_int exc_str svc user_message
                  (llm_calls (say "user" user_message st)))
        as [parsed calls] eqn:P.
      cbn [llm_calls say] in P. rewrite P. cbn [fst].
      destruct parsed as [e|task]; [discriminate|].
      cbn [perform called send say sent messages llm_calls].
      intros H.
      assert (E : create_task py_repr
                    (store (List.length (sent st))
                       (PostTask (Task.model_dump task))) =
                  inl (Todoist c msg)) by congruence.
      rewrite E.
      cbn [messages say send called]. rewrite <- app_assoc. cbn [app].
      destruct c; reflexivity.
    + unfold handle_retrieve_mode. cbv zeta.
      cbn [perform called send say sent messages llm_calls].
      generalize (handle_retrieve_mode_filter user_message). intros f H.
      assert (E : get_tasks py_repr
                    (store (List.length (sent st))
                       (GetTasks (get_tasks_params None (label f) None
                                    (due_date f)))) =
                  inl (Todoist c msg)) by congruence.
      rewrite E.
      cbn [messages say send called]. rewrite <- app_assoc. cbn [app].
      destruct c; reflexivity.
  - intros r Hr. unfold outcome in H. rewrite Hr in H.
    inversion H as [E]. rewrite <- (perform_authentication _ _ _ _ E).
    destruct c; split; try reflexivity; intros D; vm_compute in D;
      discriminate D.
Qed.

(** X14: a RETRIEVE message to which the store answers with a list of
    objects is answered with the listing that [format_task_list] makes of
    them under the description of the filter read from the message, or, if
    the listing fails, with the report of an unexpected error; tasks of the
    shape the API gives are always listed. *)
Theorem retrieve_lists_what_the_store_returned (user_message : string)
        (st : session) (ds : list dict) :
  detect_mode user_message = RETRIEVE ->
  outcome py_repr lax_int exc_str svc store user_message st =
    Some (inr (JArr (map JObj ds))) ->
  let listing :=
    format_task_list py_repr ds
      (filter_desc (handle_retrieve_mode_filter user_message)) in
  messages (handle_user_input py_repr lax_int exc_str exc_text svc store
              user_message st) =
    (messages st ++
     [("user", user_message);
      ("assistant",
       match listing with
       | inr formatted_tasks => formatted_tasks
       | inl e =>
           ("❌ **Unexpected Error**" ++ nl ++ nl ++
            exc_text (Dynamic e))%string
       end)])%list /\
  (forallb api_shaped ds = true -> is_ok listing = true).
Proof.
  intros M H. cbv zeta. split.
  - revert H. unfold outcome, request_of, handle_user_input. rewrite M.
    unfold handle_retrieve_mode. cbv zeta.
    cbn [perform called send say sent messages llm_calls].
    generalize (handle_retrieve_mode_filter user_message). intros f H.
    assert (E : get_tasks py_repr
                  (store (List.length (sent st))
                     (GetTasks (get_tasks_params None (label f) None
                                  (due_date f)))) =
                inr (JArr (map JObj ds))) by congruence.
    rewrite E, format_tasks_of_dicts.
    destruct (format_task_list py_repr ds (filter_desc f))
      as [e|formatted_tasks];
      cbn [messages say send called report_retrieve];
      rewrite <- app_assoc; reflexivity.
  - intros A. unfold format_task_list.
    destruct ds as [|d ds']; [reflexivity|].
    destruct (map_result_shaped py_repr (d :: ds') A) as (lines & S & _).
    rewrite S. reflexivity.
Qed.

(** X15: a CREATE message whose task the store created and answered with
    its id and content is answered with the confirmation alone: the id,
    then the link to the task, which is the url of the answer when that is
    a non-empty string and is built from the id when the answer has no url
    and the id is a non-empty string. *)
Theorem creation_is_confirmed (user_message : string) (st : session)
        (d : dict) (task_id title : json) :
  detect_mode user_message = CREATE ->
  outcome py_repr lax_int exc_str svc store user_message st =
    Some (inr (JObj d)) ->
  lookup "id" d = Some task_id ->
  lookup "content" d = Some title ->
  messages (handle_user_input py_repr lax_int exc_str exc_text svc store
              user_message st) =
    (messages st ++
     [("user", user_message);
      ("assistant",
       (confirmation (py_str py_repr task_id) ++
        link_note py_repr (JObj d))%string)])%list /\
  (forall url,
      lookup "url" d = Some (JStr url) -> url <> EmptyString ->
      link_note py_repr (JObj d) = "[View in Todoist](" ++ url ++ ")") /\
  (forall i,
      lookup "url" d = None -> task_id = JStr i -> i <> EmptyString ->
      link_note py_repr (JObj d) =
        "[View in Todoist](" ++ link_template ++ i ++ ")").
Proof.
  intros M H Hid Hc. split; [|split].
  - revert H. unfold outcome, request_of, handle_user_input. rewrite M.
    unfold create_branch.
    destruct (parse_task lax_int exc_str svc user_message
                (llm_calls (say "user" user_message st)))
      as [parsed calls] eqn:P.
    cbn [llm_calls say] in P. rewrite P. cbn [fst].
    destruct parsed as [e|task]; [discriminate|].
    cbn [perform called send say sent messages llm_calls].
    intros H.
    assert (E : create_task py_repr
                  (store (List.length (sent st))
                     (PostTask (Task.model_dump task))) =
                inr (JObj d)) by congruence.
    rewrite E.
    unfold subscript. rewrite Hid, Hc.
    cbn [messages say send called]. rewrite <- app_assoc. cbn [app].
    rewrite confirmation_app. reflexivity.
  - intros url Hu Hne. unfold link_note, build_task_url. rewrite Hu.
    destruct url as [|x url]; [contradiction Hne; reflexivity|]. reflexivity.
  - intros i Hu -> Hne. unfold link_note, build_task_url. rewrite Hu, Hid.
    destruct i as [|x i]; [contradiction Hne; reflexivity|]. reflexivity.
Qed.

End OrchestratorFacts.

(** ** The due date of a line *)

Lemma contains_T_cons c s :
  contains "T" (String c s) = Ascii.eqb c "T" || contains "T" s.
Proof.
  cbn [contains]. f_equal.
  destruct (Ascii.eqb_spec c "T") as [ -> |N].
  - destruct s; reflexivity.
  - cbn [prefix]. destruct (ascii_dec "T" c) as [E|_]; [|reflexivity].
    contradiction N. symmetry. exact E.
Qed.

Lemma before_T_whole s : contains "T" s = false -> before_T s = s.
Proof.
  induction s as [|c s IH]; [reflexivity|].
  rewrite contains_T_cons. intros H. apply orb_false_iff in H.
  destruct H as [Hc Hs]. cbn [before_T]. rewrite Hc, (IH Hs). reflexivity.
Qed.

Lemma before_T_has_no_T s : contains "T" (before_T s) = false.
Proof.
  induction s as [|c s IH]; [reflexivity|].
  cbn [before_T]. destruct (Ascii.eqb c "T") eqn:E; [reflexivity|].
  rewrite contains_T_cons, E, IH. reflexivity.
Qed.

Lemma before_T_prefix s : exists rest, s = before_T s ++ rest.
Proof.
  induction s as [|c s [rest IH]]; [exists EmptyString; reflexivity|].
  cbn [before_T]. destruct (Ascii.eqb c "T").
  - exists (String c s). reflexivity.
  - exists rest. cbn [append]. rewrite <- IH. reflexivity.
Qed.

Section DueFacts.

Variable py_repr : json -> string.

(** X16: when the due entry of a task is an object, the line shows the
    calendar sign followed by the text that decides the date, cut before its
    first letter T: that text is the date when it is a non-empty string, and
    the datetime when the date is missing or falsy.  What is shown holds no
    T and is the beginning of the text. *)
Theorem due_date_shows_the_day (task due : dict) (s : string) :
  lookup "due" task = Some (JObj due) ->
  lookup "date" due = Some (JStr s) \/
  (usable (lookup "date" due) = false /\
   lookup "datetime" due = Some (JStr s)) ->
  s <> EmptyString ->
  due_parts py_repr task = inr ["📅 " ++ before_T s] /\
  contains "T" (before_T s) = false /\
  exists rest, s = before_T s ++ rest.
Proof.
  intros Hd Hs Hne. split; [|split];
    [|apply before_T_has_no_T|apply before_T_prefix].
  assert (T : truthy (JStr s) = true)
    by (destruct s; [contradiction Hne; reflexivity|reflexivity]).
  assert (D : truthy (JObj due) = true).
  { destruct due as [|kv due]; [|reflexivity].
    destruct Hs as [H|[_ H]]; discriminate H. }
  assert (R : (has_T <- py_has_T (JStr s) ;;
               date_str <- (if has_T then py_split_T (JStr s)
                            else inr (JStr s)) ;;
               inr ["📅 " ++ py_str py_repr date_str]) =
              inr ["📅 " ++ before_T s]).
  { cbn [py_has_T bind]. destruct (contains "T" s) eqn:C.
    - reflexivity.
    - cbn [bind py_str]. rewrite (before_T_whole s C). reflexivity. }
  unfold due_parts. rewrite Hd, D. cbn [py_get bind].
  destruct Hs as [H|[Hu H]].
  - rewrite H, T. cbn [bind]. rewrite T. exact R.
  - unfold usable in Hu. rewrite H.
    destruct (lookup "date" due) as [v|]; [rewrite Hu|cbn [truthy]];
      cbn [bind]; rewrite T; exact R.
Qed.

End DueFacts.

(** ** The properties at work *)

Lemma label_is_a_lowercase_word_witness :
  "work" <> EmptyString /\ all_in CWord "work" = true /\
  lower "work" = "work" /\
  exists before after,
    lower "Show tasks labeled Work!" = before ++ "work" ++ after /\
    stops CWord after = true.
Proof.
  apply (label_is_a_lowercase_word "Show tasks labeled Work!" "work").
  vm_compute. reflexivity.
Defined.

Lemma preview_of_extracted_task_witness :
  exists badge rest,
    In badge known_badges /\
    Task.priority_label (priority title_only_task) = badge /\
    In ("**Priority:** " ++ badge) (Task.display_task_preview title_only_task) /\
    Task.display_task_preview title_only_task =
      "### 📋 Task Preview" :: ("**Title:** " ++ content title_only_task) :: rest.
Proof.
  apply (preview_of_extracted_task no_lax describe (always title_only_reply)
           "Buy milk" 0 1 title_only_task).
  vm_compute. reflexivity.
Defined.

Lemma store_failure_is_reported_witness :
  messages (handle_user_input repr_scalar no_lax describe describe_escaped
              (always title_only_reply) unauthorized "show my tasks"
              new_session) =
  [("user", "show my tasks");
   ("assistant",
    ("🔑 **Authentication Error**" ++ nl ++ nl ++
     "Invalid Todoist API token. Please check your TODOIST_API_TOKEN in .env file.")%string)].
Proof.
  apply (store_failure_is_reported repr_scalar no_lax describe describe_escaped
           (always title_only_reply) unauthorized "show my tasks" new_session
           AuthenticationError
           "Invalid Todoist API token. Please check your TODOIST_API_TOKEN in .env file.").
  vm_compute. reflexivity.
Defined.

Lemma retrieve_lists_what_the_store_returned_witness :
  messages (handle_user_input repr_scalar no_lax describe describe_escaped
              (always title_only_reply) one_task_store "show my tasks"
              new_session) =
  [("user", "show my tasks");
   ("assistant",
    ("### Your Tasks (1 item)" ++ nl ++ nl ++
     "- **Complete task** · 📅 2024-01-15 · _work_ · " ++
     "[View in Todoist](https://app.todoist.com/app/task/12345)")%string)].
Proof.
  apply (retrieve_lists_what_the_store_returned repr_scalar no_lax describe
           describe_escaped (always title_only_reply) one_task_store
           "show my tasks" new_session [sample_task]);
    vm_compute; reflexivity.
Defined.

Lemma creation_is_confirmed_witness :
  messages (handle_user_input repr_scalar no_lax describe describe_escaped
              (always title_only_reply) creating_store "Buy milk"
              new_session) =
  [("user", "Buy milk");
   ("assistant",
    ("✅ **Task created successfully!**" ++ nl ++ nl ++
     "Task ID: `12345`" ++ nl ++ nl ++
     "[View in Todoist](https://app.todoist.com/app/task/custom-url-format)")%string)].
Proof.
  apply (creation_is_confirmed repr_scalar no_lax describe describe_escaped
           (always title_only_reply) creating_store "Buy milk" new_session
           linked_task (JStr "12345") (JStr "Test task"));
    vm_compute; reflexivity.
Defined.

(** The phrase that is a conversation for [detect_mode] and is answered
    with the fallback text. *)
Example show_me_how_is_not_understood :
  detect_mode "Show me how" = CHAT /\
  Chat.chat_reply "Show me how" = Chat.Fallback /\
  Chat.chat_reply "help me please" = Chat.Capabilities.
Proof. vm_compute. auto. Qed.

(** A store that answers a creation without the content of the task: the
    confirmation is followed by a report of an error. *)
Example confirmed_then_reported :
  messages (handle_user_input repr_scalar no_lax describe describe_escaped
              (always title_only_reply) terse_store "Buy milk" new_session) =
  [("user", "Buy milk");
   ("assistant",
    ("✅ **Task created successfully!**" ++ nl ++ nl ++
     "Task ID: `123`" ++ nl ++ nl ++
     "[View in Todoist](https://app.todoist.com/app/task/123)")%string);
   ("assistant", unexpected "'content'")].
Proof. vm_compute. reflexivity. Qed.

(** An answer that is no JSON is reported as a failure of understanding in
    the creation branch and as an unexpected error in the retrieval
    branch. *)
Example undecodable_answer :
  let garbled : nat -> request -> exchange := fun _ _ => Answered None in
  messages (handle_user_input repr_scalar no_lax describe describe_escaped
              (always title_only_reply) garbled "Buy milk" new_session) =
  [("user", "Buy milk");
   ("assistant",
    ("❌ **Unable to understand your request**" ++ nl ++ nl ++
     "Expecting value: line 1 column 1 (char 0)")%string)] /\
  messages (handle_user_input repr_scalar no_lax describe describe_escaped
              (always title_only_reply) garbled "show my tasks" new_session) =
  [("user", "show my tasks");
   ("assistant",
    ("❌ **Unexpected Error**" ++ nl ++ nl ++
     "Expecting value: line 1 column 1 (char 0)")%string)].
Proof. vm_compute. auto. Qed.

Example test_create_task_validation_error :
  create_task repr_scalar
    (HTTPError 400 (Some (JObj [("error", JStr "Content is required")]))) =
  inl (Todoist ValidationError "Invalid task data: Content is required").
Proof. reflexivity. Qed.

Example test_create_task_auth_error :
  create_task repr_scalar (HTTPError 401 None) =
  inl (Todoist AuthenticationError
         "Invalid Todoist API token. Please check your TODOIST_API_TOKEN in .env file.").
Proof. reflexivity. Qed.

Example test_connection_error :
  create_task repr_scalar ConnectionError =
  inl (Todoist TodoistError
         "Unable to connect to Todoist API. Check your internet connection.").
Proof. reflexivity. Qed.

Example test_get_tasks_with_filters :
  get_tasks_params (Some "12345") (Some "work") (Some "today") None =
  [("project_id", "12345"); ("label", "work"); ("filter", "today")].
Proof. reflexivity. Qed.

Example test_get_tasks_with_due_date_iso :
  get_tasks_params None None None (Some "2024-12-31") =
  [("filter", "2024-12-31")] /\
  get_tasks_params None None None (Some "Today") = [("filter", "today")].
Proof. vm_compute. auto. Qed.

Example test_settings_initialization_success :
  __init__ sample_float test_environ =
  inr {| todoist_api_token := "test_todoist_token_12345";
         google_api_key := "test_google_key_12345";
         gemini_model := "gemini-2.5-flash";
         gemini_temperature := three_tenths;
         log_level := "INFO" |}.
Proof. reflexivity. Qed.

Example test_missing_google_key :
  __init__ sample_float
    (fun key => if String.eqb key "TODOIST_API_TOKEN"
                then Some "test_token" else None) =
  inl (missing "GOOGLE_API_KEY").
Proof. reflexivity. Qed.

Example test_validate_success :
  fst (checked_settings sample_float (fun _ => EmptyString) test_environ None) =
  inr true.
Proof. vm_compute. reflexivity. Qed.

Example test_validate_temperature_out_of_range :
  fst (checked_settings sample_float (fun _ => "1.5")
         (fun key => if String.eqb key "GEMINI_TEMPERATURE" then Some "1.5"
                     else test_environ key) None) =
  inl (ConfigurationError
         "GEMINI_TEMPERATURE must be between 0.0 and 1.0, got 1.5").
Proof. vm_compute. reflexivity. Qed.

Lemma due_date_shows_the_day_witness :
  due_parts repr_scalar sample_task = inr ["📅 2024-01-15"] /\
  contains "T" "2024-01-15" = false /\
  exists rest, "2024-01-15T14:30:00" = "2024-01-15" ++ rest.
Proof.
  apply (due_date_shows_the_day repr_scalar sample_task
           [("datetime", JStr "2024-01-15T14:30:00")] "2024-01-15T14:30:00").
  - reflexivity.
  - right. split; reflexivity.
  - discriminate.
Defined.
